(** * The network client of the chat application (src/client.py)

    A shallow embedding of [Client]: the wire framing of [send_request],
    the frame decoder and router of [_receive_loop], the push handler
    [handle_incoming_message], the history store [save_message] /
    [load_chat_history] and the facade operations [login], [download] and
    [create_new_chat], with [download_and_cache] of gallery_frame.py.
    A second part holds the other operations of the facade and the
    editor of src/editor.py.

    Conventions.
    - A Python [bytes] value is a [list byte].  A Python [str] is
      represented by its UTF-8 encoding, again a [list byte]; [decode()]
      is the identity on valid UTF-8 and raises otherwise.  Splitting on
      ASCII separators and comparing with ASCII keys commute with that
      encoding.
    - The receiving thread is a state machine driven by the successive
      results of [client_socket.recv(1024)]: between two calls of [recv]
      the thread is at line 91 (reading a header block) or at line 107
      (reading a body), or it has left the loop.  A result of [recv] is
      any byte string; the empty one means that the peer has closed.
    - A call that waits on the response queue is given the results of
      [recv] that the thread handles before the caller looks at the
      queue; a caller that finds the queue empty then stays blocked.
    - Local storage is a finite map from paths to file contents.
      Directories are not modelled: [os.makedirs] and opening a file for
      writing always succeed.
    - Library functions whose full behaviour is outside this file
      ([json.loads], [json.dumps], [str()] of an arbitrary value, the
      chat window's [display_message]) are the fields of the class
      [Runtime]; general theorems hold for every instance, and
      [py_runtime] is an executable instance for evaluating scenarios. *)

From Stdlib Require Import ZArith Lia List Bool String Strings.Byte.
From Stdlib Require Import Decimal DecimalNat DecimalFacts.
From stdpp Require Import gmap strings list.
Import ListNotations.

Set Warnings "-register-all".

Local Open Scope Z_scope.
Local Open Scope list_scope.

(** ** Bytes *)

Definition bytes := list byte.

(** [b "text"] is the byte string of an ASCII literal. *)
Definition b (s : string) : bytes := list_byte_of_string s.

(** [q "text"]: the same with every apostrophe read as a double quote,
    for writing JSON text. *)
Definition q (s : string) : bytes :=
  map (fun c => if Byte.eqb c "'"%byte then x22 else c) (list_byte_of_string s).

Definition CR : byte := x0d.
Definition LF : byte := x0a.
Definition QUOTE : byte := x22.
Definition BACKSLASH : byte := x5c.
Definition CRLF : bytes := [CR; LF].
Definition CRLFCRLF : bytes := [CR; LF; CR; LF].

Fixpoint bytes_eqb (x y : bytes) : bool :=
  match x, y with
  | [], [] => true
  | a :: x', c :: y' => Byte.eqb a c && bytes_eqb x' y'
  | _, _ => false
  end.

(** [starts_with p s]: [s.startswith(p)]. *)
Fixpoint starts_with (p s : bytes) : bool :=
  match p, s with
  | [], _ => true
  | _ :: _, [] => false
  | a :: p', c :: s' => Byte.eqb a c && starts_with p' s'
  end.

(** [find sep s]: index of the first occurrence of [sep] in [s]
    ([s.find(sep)], with [None] for -1); [sep in s] is [is_Some]. *)
Fixpoint find (sep s : bytes) : option nat :=
  if starts_with sep s then Some 0%nat
  else match s with
       | [] => None
       | _ :: s' => option_map S (find sep s')
       end.

(** [s.partition(sep)]: the parts before and after the first occurrence. *)
Definition partition (sep s : bytes) : option (bytes * bytes) :=
  match find sep s with
  | Some i => Some (take i s, drop (i + length sep) s)
  | None => None
  end.

(** [s.split(sep)] for a non-empty separator: a left-to-right scan for
    non-overlapping occurrences.  [skip] counts the bytes of a separator
    that is being stepped over, [cur] is the current field, reversed. *)
Fixpoint split_go (sep : bytes) (skip : nat) (cur : bytes) (s : bytes) : list bytes :=
  match s with
  | [] => [rev cur]
  | c :: s' =>
      match skip with
      | S k => split_go sep k cur s'
      | O =>
          if starts_with sep s
          then rev cur :: split_go sep (length sep - 1) [] s'
          else split_go sep 0 (c :: cur) s'
      end
  end.

Definition split (sep s : bytes) : list bytes := split_go sep 0 [] s.

(** [s.split(sep, 1)] unpacked into exactly two names: [None] stands for
    the [ValueError] raised when [sep] does not occur. *)
Definition split_once (sep s : bytes) : option (bytes * bytes) := partition sep s.

(** [s.lower()] on the ASCII range. *)
Definition lower_byte (c : byte) : byte :=
  let n := Byte.to_N c in
  if ((65 <=? n) && (n <=? 90))%N
  then match Byte.of_N (n + 32) with Some c' => c' | None => c end
  else c.

Definition lower (s : bytes) : bytes := map lower_byte s.

(** [bytes.decode()] succeeds exactly on well-formed UTF-8 (no overlong
    forms, no surrogates, nothing above U+10FFFF). *)
Definition in_range (lo hi : N) (c : byte) : bool :=
  let n := Byte.to_N c in ((lo <=? n) && (n <=? hi))%N.

Definition is_cont : byte -> bool := in_range 128 191.

Fixpoint utf8_valid (s : bytes) : bool :=
  match s with
  | [] => true
  | c0 :: r0 =>
      if in_range 0 127 c0 then utf8_valid r0
      else match r0 with
      | [] => false
      | c1 :: r1 =>
          if in_range 194 223 c0 then is_cont c1 && utf8_valid r1
          else match r1 with
          | [] => false
          | c2 :: r2 =>
              if in_range 224 224 c0 then in_range 160 191 c1 && is_cont c2 && utf8_valid r2
              else if in_range 225 236 c0 || in_range 238 239 c0
                   then is_cont c1 && is_cont c2 && utf8_valid r2
              else if in_range 237 237 c0 then in_range 128 159 c1 && is_cont c2 && utf8_valid r2
              else match r2 with
              | [] => false
              | c3 :: r3 =>
                  if in_range 240 240 c0
                  then in_range 144 191 c1 && is_cont c2 && is_cont c3 && utf8_valid r3
                  else if in_range 241 243 c0
                  then is_cont c1 && is_cont c2 && is_cont c3 && utf8_valid r3
                  else if in_range 244 244 c0
                  then in_range 128 143 c1 && is_cont c2 && is_cont c3 && utf8_valid r3
                  else false
              end
          end
      end
  end.

(** ** [int(s)] and [str(n)]

    [int] of an ASCII string: surrounding C whitespace is skipped, one
    sign is allowed, and the digits may be grouped by single underscores.
    (Digits outside ASCII and the interpreter's limit on the number of
    digits are not modelled: [py_int] is [int] on ASCII text of at most
    4300 digits, and a theorem that rests on a refusal of [py_int] is
    stated for ASCII text.) *)

Definition is_space (c : byte) : bool := in_range 9 13 c || in_range 32 32 c.
Definition is_digit (c : byte) : bool := in_range 48 57 c.
Definition digit_val (c : byte) : Z := Z.of_N (Byte.to_N c) - 48.

Fixpoint lstrip (s : bytes) : bytes :=
  match s with
  | c :: s' => if is_space c then lstrip s' else s
  | [] => []
  end.

Definition strip (s : bytes) : bytes := rev (lstrip (rev (lstrip s))).

(** [digits_go acc prev_digit s]: the decimal value of [s] continuing
    [acc]; [prev_digit] tells whether the previous byte was a digit (an
    underscore is only accepted between two digits). *)
Fixpoint digits_go (acc : Z) (prev_digit : bool) (s : bytes) : option Z :=
  match s with
  | [] => if prev_digit then Some acc else None
  | c :: s' =>
      if is_digit c then digits_go (10 * acc + digit_val c) true s'
      else if Byte.eqb c "_"%byte
           then (if prev_digit
                 then match s' with
                      | d :: _ => if is_digit d then digits_go acc false s' else None
                      | [] => None
                      end
                 else None)
           else None
  end.

Definition py_int (s : bytes) : option Z :=
  match strip s with
  | c :: r =>
      if Byte.eqb c "-"%byte then option_map Z.opp (digits_go 0 false r)
      else if Byte.eqb c "+"%byte then digits_go 0 false r
      else digits_go 0 false (c :: r)
  | [] => None
  end.

Fixpoint bytes_of_uint (d : Decimal.uint) : bytes :=
  match d with
  | Nil => []
  | D0 d' => "0"%byte :: bytes_of_uint d'
  | D1 d' => "1"%byte :: bytes_of_uint d'
  | D2 d' => "2"%byte :: bytes_of_uint d'
  | D3 d' => "3"%byte :: bytes_of_uint d'
  | D4 d' => "4"%byte :: bytes_of_uint d'
  | D5 d' => "5"%byte :: bytes_of_uint d'
  | D6 d' => "6"%byte :: bytes_of_uint d'
  | D7 d' => "7"%byte :: bytes_of_uint d'
  | D8 d' => "8"%byte :: bytes_of_uint d'
  | D9 d' => "9"%byte :: bytes_of_uint d'
  end.

(** [str(n)] for a natural number such as [len(body)]. *)
Definition str_of_nat (n : nat) : bytes := bytes_of_uint (Nat.to_uint n).

Definition str_of_Z (z : Z) : bytes :=
  match z with
  | Zneg p => "-"%byte :: str_of_nat (Pos.to_nat p)
  | _ => str_of_nat (Z.to_nat z)
  end.

(** ** Python values

    The values that travel as JSON: [None], booleans, integers, strings,
    lists and dictionaries with string keys (numbers with a fraction or an
    exponent are outside this fragment).  The fields of a [JObj] have
    pairwise distinct keys, as the keys of a [dict] do. *)

Inductive json :=
| JNull
| JBool (v : bool)
| JInt (n : Z)
| JStr (s : bytes)
| JArr (items : list json)
| JObj (fields : list (bytes * json)).

Fixpoint assoc (k : bytes) (fields : list (bytes * json)) : option json :=
  match fields with
  | [] => None
  | (k', v) :: rest => if bytes_eqb k k' then Some v else assoc k rest
  end.

(** [x == y] on these values; [True == 1] and [False == 0] hold in Python,
    and two dictionaries are equal when they bind the same keys to equal
    values, in any order. *)
Fixpoint py_eq (x y : json) : bool :=
  match x, y with
  | JNull, JNull => true
  | JBool a, JBool c => Bool.eqb a c
  | JBool a, JInt n => n =? (if a then 1 else 0)
  | JInt n, JBool a => n =? (if a then 1 else 0)
  | JInt n, JInt m => n =? m
  | JStr s, JStr t => bytes_eqb s t
  | JArr l, JArr m =>
      (fix all2 (l m : list json) : bool :=
         match l, m with
         | [], [] => true
         | a :: l', c :: m' => py_eq a c && all2 l' m'
         | _, _ => false
         end) l m
  | JObj f, JObj g =>
      (length f =? length g)%nat &&
      forallb (fun kv => match assoc (fst kv) g with
                         | Some v' => py_eq (snd kv) v'
                         | None => false
                         end) f
  | _, _ => false
  end.

(** [x in l] for a list [l]. *)
Definition py_in (x : json) (l : list json) : bool := existsb (py_eq x) l.

(** Truth value of [if v:]. *)
Definition truthy (v : json) : bool :=
  match v with
  | JNull => false
  | JBool a => a
  | JInt n => negb (n =? 0)
  | JStr s => negb (bytes_eqb s [])
  | JArr l => match l with [] => false | _ => true end
  | JObj f => match f with [] => false | _ => true end
  end.

(** ** Exceptions and results *)

Inductive exn :=
| UnicodeDecodeError
| ValueError
| IndexError
| JSONDecodeError
| AttributeError
| TclError.

Inductive result (A : Type) :=
| Ok (a : A)
| Err (e : exn).
Arguments Ok {A} a.
Arguments Err {A} e.

Definition bind {A B} (r : result A) (k : A -> result B) : result B :=
  match r with
  | Ok a => k a
  | Err e => Err e
  end.

Definition of_option {A} (e : exn) (o : option A) : result A :=
  match o with
  | Some a => Ok a
  | None => Err e
  end.

Notation "'let*' x ':=' r 'in' k" := (bind r (fun x => k))
  (at level 10, x name, r at level 100, k at level 200, only parsing).

(** [v.get(key)] and [v.get(key, default)]: only a dictionary has [get];
    a missing key gives the default ([None] when there is none). *)
Definition py_get_default (v : json) (key : bytes) (default : json) : result json :=
  match v with
  | JObj fields => Ok (match assoc key fields with Some x => x | None => default end)
  | _ => Err AttributeError
  end.

Definition py_get (v : json) (key : bytes) : result json := py_get_default v key JNull.

(** ** The runtime: library functions and the chat window *)

(** The chat window attached with [set_chat_frame]: the chat it shows and
    the messages it has been asked to display. *)
Record chat_frame_t := mkChatFrame {
  selected_chat_id : json;
  displayed : list json
}.

Class Runtime := {
  (** [json.loads(data)] and [json.load(f)]; [None] when it raises. *)
  json_loads : bytes -> option json;
  (** [json.dumps(v)] and, with [Some 2], [json.dump(v, f, indent=2)]. *)
  json_dumps : option nat -> json -> bytes;
  (** [str(v)], as an f-string formats a value. *)
  py_str : json -> bytes;
  (** [chat_frame.display_message(message)]; [None] when the window
      raises. *)
  display_message : chat_frame_t -> json -> option chat_frame_t
}.

(** ** The client *)

(** Where the frame decoder stands between two calls of [recv]. *)
Inductive reader :=
| ReadHead (data : bytes)
    (* line 91, inside [while b"\r\n\r\n" not in data] *)
| ReadBody (status_line : bytes) (headers_dict : list (bytes * bytes))
           (content_length : Z) (body : bytes).
    (* line 107, inside [while len(body) < content_length] *)

(** The receiving thread: inside the loop, or out of it. *)
Inductive loop_state :=
| Running (r : reader)
| Returned
    (* line 93: the peer closed the connection *)
| Crashed (e : exn).
    (* lines 116-118: an exception ended the loop *)

(** What the program prints, one entry per [print] call with the values it
    interpolates. *)
Inductive out_line :=
| OutReceiveError (e : exn)
| OutPushError (e : exn)
| OutChat (chat_id sender content : json)
| OutValue (v : json)
| OutText (text : string)
| OutLabelled (label : string) (v : json)
| OutChatCreated (message chat_id : json).

Record client := mkClient {
  response_queue : list (Z * bytes);   (* queue.Queue, oldest first *)
  chat_frame : option chat_frame_t;    (* None until set_chat_frame *)
  user_id : json;
  user_login : json;
  username : json;
  receiver : loop_state;               (* the thread of _receive_loop *)
  sent : list bytes;                   (* arguments of sendall, oldest first *)
  files : gmap string bytes;           (* regular files on local storage *)
  stdout : list out_line               (* oldest first *)
}.

Definition set_queue (q : list (Z * bytes)) (c : client) : client :=
  mkClient q (chat_frame c) (user_id c) (user_login c) (username c)
           (receiver c) (sent c) (files c) (stdout c).
Definition set_chat_frame (f : option chat_frame_t) (c : client) : client :=
  mkClient (response_queue c) f (user_id c) (user_login c) (username c)
           (receiver c) (sent c) (files c) (stdout c).
Definition set_session (uid login name : json) (c : client) : client :=
  mkClient (response_queue c) (chat_frame c) uid login name
           (receiver c) (sent c) (files c) (stdout c).
Definition set_receiver (r : loop_state) (c : client) : client :=
  mkClient (response_queue c) (chat_frame c) (user_id c) (user_login c) (username c)
           r (sent c) (files c) (stdout c).
Definition set_sent (s : list bytes) (c : client) : client :=
  mkClient (response_queue c) (chat_frame c) (user_id c) (user_login c) (username c)
           (receiver c) s (files c) (stdout c).
Definition set_files (f : gmap string bytes) (c : client) : client :=
  mkClient (response_queue c) (chat_frame c) (user_id c) (user_login c) (username c)
           (receiver c) (sent c) f (stdout c).
Definition print (l : out_line) (c : client) : client :=
  mkClient (response_queue c) (chat_frame c) (user_id c) (user_login c) (username c)
           (receiver c) (sent c) (files c) (stdout c ++ [l]).

(** [Client.__init__]: empty queue, no chat frame, no session, and the
    receiving thread started. *)
Definition new_client (fs : gmap string bytes) : client :=
  mkClient [] None JNull JNull JNull (Running (ReadHead [])) [] fs [].

(** [sep.join(parts)]. *)
Fixpoint join (sep : bytes) (parts : list bytes) : bytes :=
  match parts with
  | [] => []
  | [p] => p
  | p :: rest => p ++ sep ++ join sep rest
  end.

(** The outcome of a call that waits on the response queue: it returns, it
    raises, or it stays blocked in [response_queue.get()]. *)
Inductive outcome (A : Type) :=
| Return (a : A) (c : client)
| Raise (e : exn) (c : client)
| Wait (c : client).
Arguments Return {A} a c.
Arguments Raise {A} e c.
Arguments Wait {A} c.

(** The client as the call leaves it. *)
Definition client_of {A} (o : outcome A) : client :=
  match o with
  | Return _ c => c
  | Raise _ c => c
  | Wait c => c
  end.

(** The arguments of one call of [send_request]. *)
Record request := mkRequest {
  rq_method : bytes;
  rq_path : bytes;
  rq_params : list (bytes * json);
  rq_body : option bytes
}.

(** ** The frame decoder (lines 89-107)

    Decoding touches only the socket and local variables, so it is a
    function of the decoder's position and of what [recv] returns. *)

Definition dict_set (k v : bytes) (d : list (bytes * bytes)) : list (bytes * bytes) :=
  (fix go (d : list (bytes * bytes)) : list (bytes * bytes) :=
     match d with
     | [] => [(k, v)]
     | (k', v') :: d' => if bytes_eqb k k' then (k, v) :: d' else (k', v') :: go d'
     end) d.

Fixpoint dict_get (k : bytes) (d : list (bytes * bytes)) : option bytes :=
  match d with
  | [] => None
  | (k', v) :: d' => if bytes_eqb k k' then Some v else dict_get k d'
  end.

(** Lines 100-103: every header line must split at [": "]; a later line
    with the same lower-cased key replaces an earlier one. *)
Fixpoint parse_headers (lines : list bytes) (headers_dict : list (bytes * bytes))
  : result (list (bytes * bytes)) :=
  match lines with
  | [] => Ok headers_dict
  | header :: rest =>
      match split_once (b ": ") header with
      | None => Err ValueError
      | Some (key, value) => parse_headers rest (dict_set (lower key) value headers_dict)
      end
  end.

(** Line 105: [int(headers_dict.get("content-length", 0))]. *)
Definition content_length_of (headers_dict : list (bytes * bytes)) : result Z :=
  match dict_get (b "content-length") headers_dict with
  | None => Ok 0
  | Some v => of_option ValueError (py_int v)
  end.

(** What one result of [recv] leads to: another [recv], a complete frame
    at line 108, the [return] of line 93, or an exception. *)
Inductive decoded :=
| More (r : reader)
| Frame (status_line : bytes) (headers_dict : list (bytes * bytes)) (body : bytes)
| Closed
| Failed (e : exn).

(** Lines 106-108: wait for more body bytes, or deliver the frame with
    everything buffered after the terminator. *)
Definition body_step (status_line : bytes) (headers_dict : list (bytes * bytes))
           (content_length : Z) (body : bytes) : decoded :=
  if Z.of_nat (length body) <? content_length
  then More (ReadBody status_line headers_dict content_length body)
  else Frame status_line headers_dict body.

(** Lines 97-105 on the header block, then the body loop on what came
    with it. *)
Definition parse_head (headers body : bytes) : decoded :=
  if utf8_valid headers then
    let lines := split CRLF headers in
    let status_line := hd [] lines in
    match parse_headers (tl lines) [] with
    | Err e => Failed e
    | Ok headers_dict =>
        match content_length_of headers_dict with
        | Err e => Failed e
        | Ok content_length => body_step status_line headers_dict content_length body
        end
    end
  else Failed UnicodeDecodeError.

(** Lines 90 and 96 on the bytes buffered so far. *)
Definition head_step (data : bytes) : decoded :=
  match partition CRLFCRLF data with
  | None => More (ReadHead data)
  | Some (headers, body) => parse_head headers body
  end.

(** One result of [recv]: an empty chunk while a header is awaited is the
    end of the connection. *)
Definition decode (r : reader) (chunk : bytes) : decoded :=
  match r with
  | ReadHead data =>
      match chunk with
      | [] => Closed
      | _ => head_step (data ++ chunk)
      end
  | ReadBody status_line headers_dict content_length body =>
      body_step status_line headers_dict content_length (body ++ chunk)
  end.

(** The decoder run from position [r] over successive results of [recv],
    up to the first one that does not lead to another [recv]; the chunks
    not yet read are returned with it. *)
Fixpoint decode_chunks (r : reader) (chunks : list bytes) : decoded * list bytes :=
  match chunks with
  | [] => (More r, [])
  | chunk :: rest =>
      match decode r chunk with
      | More r' => decode_chunks r' rest
      | res => (res, rest)
      end
  end.

(** Going on with the chunks [rest] after the decoder answered [res]. *)
Definition resume (res : decoded) (rest : list bytes) : decoded * list bytes :=
  match res with
  | More r' => decode_chunks r' rest
  | _ => (res, rest)
  end.

(** ** The history store (lines 139-172) *)

Section WithRuntime.
Context `{RT : Runtime}.

(** [os.path.join("chat_history", f"chat_{chat_id}.json")]. *)
Definition chat_file (chat_id : json) : string :=
  string_of_list_byte (b "chat_history/chat_" ++ py_str chat_id ++ b ".json").

(** [save_message(chat_id, message_data)]: the log is read back when the
    file exists, the message is appended, and the whole log is written
    again.  [json.load] raises on a file that is not JSON, and [append]
    exists only on a list. *)
Definition save_message (chat_id message_data : json) (fs : gmap string bytes)
  : result (gmap string bytes) :=
  let file_path := chat_file chat_id in
  let* chat_history :=
    match fs !! file_path with
    | Some text => of_option JSONDecodeError (json_loads text)
    | None => Ok (JArr [])
    end in
  match chat_history with
  | JArr items =>
      Ok (<[file_path := json_dumps (Some 2%nat) (JArr (items ++ [message_data]))]> fs)
  | _ => Err AttributeError
  end.

(** [load_chat_history(chat_id)]. *)
Definition load_chat_history (chat_id : json) (fs : gmap string bytes) : result json :=
  match fs !! chat_file chat_id with
  | Some text => of_option JSONDecodeError (json_loads text)
  | None => Ok (JArr [])
  end.

(** ** The push handler (lines 120-137)

    The body of the [try] block threads the client through the steps that
    can raise; [handle_incoming_message] is the [try]/[except] around it.
    An exception keeps the effects that came before it. *)

Definition push_show (chat_id message : json) (c : client) : client * option exn :=
  match chat_frame c with
  | None => (c, Some AttributeError)      (* None.selected_chat_id *)
  | Some frame =>
      if py_eq (selected_chat_id frame) chat_id
      then match display_message frame message with
           | Some frame' => (set_chat_frame (Some frame') c, None)
           | None => (c, Some TclError)
           end
      else (c, None)
  end.

Definition push_try (body : bytes) (c : client) : client * option exn :=
  match json_loads body with
  | None => (c, Some JSONDecodeError)
  | Some message =>
      match py_get message (b "chat_id") with
      | Err e => (c, Some e)
      | Ok chat_id =>
          if truthy chat_id then
            match save_message chat_id message (files c) with
            | Err e => (c, Some e)
            | Ok fs =>
                let c1 := set_files fs c in
                (* [message] is a dictionary here, both [get] succeed *)
                match py_get message (b "sender"), py_get message (b "content") with
                | Ok sender, Ok content =>
                    push_show chat_id message (print (OutChat chat_id sender content) c1)
                | Err e, _ | _, Err e => (c1, Some e)
                end
            end
          else (c, None)
      end
  end.

Definition handle_incoming_message (body : bytes) (c : client) : client :=
  match push_try body c with
  | (c', None) => c'
  | (c', Some e) => print (OutPushError e) c'
  end.

(** ** The receive loop (lines 82-118) *)

(** The exception handler of the loop: print and [break]. *)
Definition crash (e : exn) (c : client) : client :=
  set_receiver (Crashed e) (print (OutReceiveError e) c).

(** Back to the top of [while True], where [data] is emptied. *)
Definition next_frame (c : client) : client := set_receiver (Running (ReadHead [])) c.

Definition queue_put (item : Z * bytes) (c : client) : client :=
  set_queue (response_queue c ++ [item]) c.

(** Line 109: [int(status_line.split(" ")[1])], the second field of the
    status line split at single spaces. *)
Definition parse_status (status_line : bytes) : result Z :=
  match nth_error (split (b " ") status_line) 1 with
  | None => Err IndexError
  | Some field => of_option ValueError (py_int field)
  end.

(** Line 110: [headers_dict.get("type", "response")]. *)
Definition type_header_of (headers_dict : list (bytes * bytes)) : bytes :=
  match dict_get (b "type") headers_dict with
  | Some v => v
  | None => b "response"
  end.

(** Lines 109-115: a frame with status 200 or 201 goes to the push handler
    or to the response queue; a frame with any other status goes nowhere. *)
Definition route (status_line : bytes) (headers_dict : list (bytes * bytes))
           (body : bytes) (c : client) : client :=
  match parse_status status_line with
  | Err e => crash e c
  | Ok status =>
      if (status =? 200) || (status =? 201) then
        if bytes_eqb (type_header_of headers_dict) (b "message")
        then next_frame (handle_incoming_message body c)
        else next_frame (queue_put (status, body) c)
      else next_frame c
  end.

(** One result of [recv] handled by the thread; a thread that has left the
    loop receives nothing. *)
Definition on_recv (c : client) (chunk : bytes) : client :=
  match receiver c with
  | Running r =>
      match decode r chunk with
      | More r' => set_receiver (Running r') c
      | Frame status_line headers_dict body => route status_line headers_dict body c
      | Closed => set_receiver Returned c
      | Failed e => crash e c
      end
  | Returned | Crashed _ => c
  end.

(** The receiving thread fed with the successive results of [recv]. *)
Definition receive (c : client) (chunks : list bytes) : client :=
  fold_left on_recv chunks c.

(** ** Sending a request (lines 49-74) *)

(** ['&'.join(f'{key}={value}' ...)] over the entries of [params]. *)
Definition params_str (params : list (bytes * json)) : bytes :=
  join (b "&") (map (fun kv => fst kv ++ b "=" ++ py_str (snd kv)) params).

Definition url_of (path : bytes) (params : list (bytes * json)) : bytes :=
  match params_str params with
  | [] => path
  | ps => path ++ b "?" ++ ps
  end.

(** [body] is [None] or a byte string; [None] and the empty byte string
    are both falsy, so
    the only header is ["Content-Length: 0"] and nothing follows the
    terminator. *)
Definition body_bytes (body : option bytes) : bytes :=
  match body with
  | Some bs => bs
  | None => []
  end.

Definition content_length_header (body : option bytes) : bytes :=
  match body_bytes body with
  | [] => b "0"
  | bs => str_of_nat (length bs)
  end.

Definition encode_request (method path : bytes) (params : list (bytes * json))
           (body : option bytes) : bytes :=
  method ++ b " " ++ url_of path params ++ b " HTTP/1.1" ++ CRLF
    ++ b "Content-Length: " ++ content_length_header body
    ++ CRLFCRLF ++ body_bytes body.

(** [response_queue.get()]. *)
Definition queue_get (c : client) : outcome (Z * bytes) :=
  match response_queue c with
  | [] => Wait c
  | item :: rest => Return item (set_queue rest c)
  end.

(** [send_request]: the request is written to the socket, then the caller
    waits on the queue.  [incoming] are the results of [recv] that the
    receiving thread handles before the caller looks at the queue. *)
Definition send_request (method path : bytes) (params : list (bytes * json))
           (body : option bytes) (incoming : list bytes) (c : client)
  : outcome (Z * bytes) :=
  let request := encode_request method path params body in
  queue_get (receive (set_sent (sent c ++ [request]) c) incoming).

(** Continue a call once [send_request] has returned. *)
Definition and_then {A B} (o : outcome A) (k : A -> client -> outcome B) : outcome B :=
  match o with
  | Return a c => k a c
  | Raise e c => Raise e c
  | Wait c => Wait c
  end.

(** Requests issued strictly one at a time: a call of [send_request]
    starts when the previous one has returned.  Each request comes with
    what the socket delivers while its caller waits; a caller that stays
    blocked never issues the requests after it. *)
Fixpoint send_requests (rounds : list (request * list bytes)) (c : client)
  : outcome (list (Z * bytes)) :=
  match rounds with
  | [] => Return [] c
  | (rq, incoming) :: rest =>
      and_then (send_request (rq_method rq) (rq_path rq) (rq_params rq) (rq_body rq) incoming c)
        (fun reply c1 =>
           and_then (send_requests rest c1)
             (fun replies c2 => Return (reply :: replies) c2))
  end.

Definition loads_or_raise {A} (data : bytes) (c : client)
           (k : json -> outcome A) : outcome A :=
  match json_loads data with
  | Some v => k v
  | None => Raise JSONDecodeError c
  end.

Definition get_or_raise {A} (v : json) (key : bytes) (c : client)
           (k : json -> outcome A) : outcome A :=
  match py_get v key with
  | Ok x => k x
  | Err e => Raise e c
  end.

(** ** [login] (lines 175-194) *)

Definition login (login password : json) (incoming : list bytes) (c : client)
  : outcome json :=
  let body := json_dumps None (JObj [(b "login", login); (b "password", password)]) in
  and_then (send_request (b "POST") (b "/login") [] (Some body) incoming c)
    (fun '(status, response) c =>
       loads_or_raise response c (fun response_data =>
         if status =? 200 then
           get_or_raise response_data (b "id") c (fun id =>
           get_or_raise response_data (b "username") c (fun name =>
           get_or_raise response_data (b "message") c (fun message =>
             Return name (print (OutValue message) (set_session id login name c)))))
         else
           get_or_raise response_data (b "message") c (fun message =>
             Return JNull (print (OutLabelled "Login failed:" message) c)))).

(** ** [download] (lines 350-365) and the gallery cache
    (gallery_frame.py, [download_and_cache]) *)

Definition download (file_path : json) (incoming : list bytes) (c : client)
  : outcome (option bytes) :=
  and_then (send_request (b "GET") (b "/download") [(b "file", file_path)] None incoming c)
    (fun '(status, body) c =>
       if status =? 200 then
         Return (Some body) (print (OutText "File downloaded successfully!") c)
       else
         loads_or_raise body c (fun response_data =>
           get_or_raise response_data (b "message") c (fun message =>
             Return None (print (OutLabelled "File download failed: " message) c)))).

(** [os.path.join(cache_dir, filename)]: an absolute [filename] replaces
    the directory. *)
Definition path_join (dir name : bytes) : string :=
  string_of_list_byte (if starts_with (b "/") name then name else dir ++ b "/" ++ name).

Definition download_and_cache (file_path : json) (filename : bytes)
           (incoming : list bytes) (c : client) : outcome (option string) :=
  let local_path := path_join (b "temp_gallery_cache") filename in
  match files c !! local_path with
  | Some _ => Return (Some local_path) c
  | None =>
      and_then (download file_path incoming c)
        (fun file_data c =>
           match file_data with
           | None => Return None c
           | Some data => Return (Some local_path) (set_files (<[local_path := data]> (files c)) c)
           end)
  end.

(** ** [create_new_chat] (lines 229-249)

    Python lists are mutable objects: [heap] holds the lists that exist,
    and a list is named by its index in [heap].  [members] is such a name,
    or [None] when the argument is omitted. *)

Definition members_prepare (uid : json) (members : option nat) (heap : list (list json))
  : nat * list (list json) :=
  let '(loc, heap1) :=
    match members with
    | Some loc => (loc, heap)
    | None => (length heap, heap ++ [[]])       (* members = [] *)
    end in
  let items := default [] (heap1 !! loc) in
  if py_in uid items then (loc, heap1)
  else (loc, <[loc := items ++ [uid]]> heap1).   (* members.append(self.user_id) *)

Definition create_new_chat (chat_name : json) (members : option nat)
           (incoming : list bytes) (heap : list (list json)) (c : client)
  : outcome json * list (list json) :=
  let '(loc, heap') := members_prepare (user_id c) members heap in
  let body := json_dumps None
                (JObj [(b "chat_name", chat_name); (b "creator_id", user_id c);
                       (b "members", JArr (default [] (heap' !! loc)))]) in
  (and_then (send_request (b "POST") (b "/create_chat") [] (Some body) incoming c)
     (fun '(status, response) c =>
        loads_or_raise response c (fun response_data =>
          if status =? 201 then
            get_or_raise response_data (b "message") c (fun message =>
            get_or_raise response_data (b "chat_id") c (fun chat_id =>
              Return chat_id (print (OutChatCreated message chat_id) c)))
          else
            get_or_raise response_data (b "message") c (fun message =>
              Return JNull (print (OutLabelled "Chat creation failed:" message) c)))),
   heap').

End WithRuntime.

(** ** An executable runtime

    A JSON reader and writer for the fragment of [json]: enough of
    [json.loads] and [json.dumps] to run the scenarios of the
    specification.  Numbers with a fraction or an exponent and escapes
    outside the Basic Latin block are rejected here. *)

Module PyJson.

Definition is_ws (c : byte) : bool :=
  Byte.eqb c " "%byte || Byte.eqb c x09 || Byte.eqb c LF || Byte.eqb c CR.

Fixpoint skip_ws (s : bytes) : bytes :=
  match s with
  | c :: s' => if is_ws c then skip_ws s' else s
  | [] => []
  end.

Definition hex_val (c : byte) : option N :=
  let n := Byte.to_N c in
  if in_range 48 57 c then Some (n - 48)%N
  else if in_range 97 102 c then Some (n - 87)%N
  else if in_range 65 70 c then Some (n - 55)%N
  else None.

(** The characters of a string literal after its opening quote. *)
Fixpoint read_string (s : bytes) (acc : bytes) : option (bytes * bytes) :=
  match s with
  | [] => None
  | c :: s' =>
      if Byte.eqb c QUOTE then Some (rev acc, s')
      else if Byte.eqb c BACKSLASH then
        match s' with
        | e :: s'' =>
            if Byte.eqb e QUOTE then read_string s'' (e :: acc)
            else if Byte.eqb e BACKSLASH then read_string s'' (e :: acc)
            else if Byte.eqb e "/"%byte then read_string s'' (e :: acc)
            else if Byte.eqb e "n"%byte then read_string s'' (LF :: acc)
            else if Byte.eqb e "r"%byte then read_string s'' (CR :: acc)
            else if Byte.eqb e "t"%byte then read_string s'' (x09 :: acc)
            else if Byte.eqb e "b"%byte then read_string s'' (x08 :: acc)
            else if Byte.eqb e "f"%byte then read_string s'' (x0c :: acc)
            else if Byte.eqb e "u"%byte then
              match s'' with
              | h1 :: h2 :: h3 :: h4 :: s3 =>
                  match hex_val h1, hex_val h2, hex_val h3, hex_val h4 with
                  | Some 0%N, Some 0%N, Some hi, Some lo =>
                      match Byte.of_N (16 * hi + lo) with
                      | Some c' => if in_range 0 127 c' then read_string s3 (c' :: acc) else None
                      | None => None
                      end
                  | _, _, _, _ => None
                  end
              | _ => None
              end
            else None
        | [] => None
        end
      else if in_range 0 31 c then None
      else read_string s' (c :: acc)
  end.

Fixpoint read_digits (s : bytes) (acc : Z) : Z * bytes :=
  match s with
  | c :: s' => if is_digit c then read_digits s' (10 * acc + digit_val c) else (acc, s)
  | [] => (acc, [])
  end.

(** An integer literal: no leading zero, and no fraction or exponent
    behind it. *)
Definition read_int (s : bytes) : option (Z * bytes) :=
  match s with
  | c :: s' =>
      if is_digit c then
        let '(n, rest) := read_digits s 0 in
        let leading_zero :=
          Byte.eqb c "0"%byte && match s' with d :: _ => is_digit d | [] => false end in
        let more :=
          match rest with
          | d :: _ => Byte.eqb d "."%byte || Byte.eqb d "e"%byte || Byte.eqb d "E"%byte
          | [] => false
          end in
        if leading_zero || more then None else Some (n, rest)
      else None
  | [] => None
  end.

Fixpoint obj_set (k : bytes) (v : json) (fields : list (bytes * json)) : list (bytes * json) :=
  match fields with
  | [] => [(k, v)]
  | (k', v') :: rest => if bytes_eqb k k' then (k, v) :: rest else (k', v') :: obj_set k v rest
  end.

(** Recursive descent; [fuel] bounds the nesting and the number of items,
    the length of the input is always enough. *)
Fixpoint read_value (fuel : nat) (s : bytes) : option (json * bytes) :=
  match fuel with
  | O => None
  | S fuel' =>
      match skip_ws s with
      | [] => None
      | c :: s' =>
          if Byte.eqb c QUOTE then
            match read_string s' [] with
            | Some (str, rest) => Some (JStr str, rest)
            | None => None
            end
          else if Byte.eqb c "["%byte then
            match skip_ws s' with
            | d :: s'' =>
                if Byte.eqb d "]"%byte then Some (JArr [], s'')
                else read_items fuel' (skip_ws s') []
            | [] => None
            end
          else if Byte.eqb c "{"%byte then
            match skip_ws s' with
            | d :: s'' =>
                if Byte.eqb d "}"%byte then Some (JObj [], s'')
                else read_fields fuel' (skip_ws s') []
            | [] => None
            end
          else if Byte.eqb c "-"%byte then
            match read_int s' with
            | Some (n, rest) => Some (JInt (- n), rest)
            | None => None
            end
          else if is_digit c then
            match read_int (c :: s') with
            | Some (n, rest) => Some (JInt n, rest)
            | None => None
            end
          else if starts_with (b "null") (c :: s') then Some (JNull, drop 4 (c :: s'))
          else if starts_with (b "true") (c :: s') then Some (JBool true, drop 4 (c :: s'))
          else if starts_with (b "false") (c :: s') then Some (JBool false, drop 5 (c :: s'))
          else None
      end
  end
with read_items (fuel : nat) (s : bytes) (acc : list json) : option (json * bytes) :=
  match fuel with
  | O => None
  | S fuel' =>
      match read_value fuel' s with
      | Some (v, rest) =>
          match skip_ws rest with
          | d :: rest' =>
              if Byte.eqb d ","%byte then read_items fuel' rest' (v :: acc)
              else if Byte.eqb d "]"%byte then Some (JArr (rev (v :: acc)), rest')
              else None
          | [] => None
          end
      | None => None
      end
  end
with read_fields (fuel : nat) (s : bytes) (acc : list (bytes * json)) : option (json * bytes) :=
  match fuel with
  | O => None
  | S fuel' =>
      match skip_ws s with
      | q :: s1 =>
          if Byte.eqb q QUOTE then
            match read_string s1 [] with
            | Some (key, s2) =>
                match skip_ws s2 with
                | colon :: s3 =>
                    if Byte.eqb colon ":"%byte then
                      match read_value fuel' s3 with
                      | Some (v, rest) =>
                          match skip_ws rest with
                          | d :: rest' =>
                              if Byte.eqb d ","%byte then read_fields fuel' rest' (obj_set key v acc)
                              else if Byte.eqb d "}"%byte then Some (JObj (obj_set key v acc), rest')
                              else None
                          | [] => None
                          end
                      | None => None
                      end
                    else None
                | [] => None
                end
            | None => None
            end
          else None
      | [] => None
      end
  end.

Definition loads (data : bytes) : option json :=
  if utf8_valid data then
    match read_value (S (length data)) data with
    | Some (v, rest) => match skip_ws rest with [] => Some v | _ => None end
    | None => None
    end
  else None.

(** Writing: [ensure_ascii] escapes for the Basic Latin block; bytes of a
    longer UTF-8 sequence are copied. *)
Definition hex_digit (n : N) : byte :=
  match Byte.of_N (if (n <? 10)%N then n + 48 else n + 87)%N with
  | Some c => c
  | None => "0"%byte
  end.

Definition escape_byte (c : byte) : bytes :=
  if Byte.eqb c QUOTE then [BACKSLASH; QUOTE]
  else if Byte.eqb c BACKSLASH then [BACKSLASH; BACKSLASH]
  else if Byte.eqb c LF then [BACKSLASH; "n"%byte]
  else if Byte.eqb c CR then [BACKSLASH; "r"%byte]
  else if Byte.eqb c x09 then [BACKSLASH; "t"%byte]
  else if Byte.eqb c x08 then [BACKSLASH; "b"%byte]
  else if Byte.eqb c x0c then [BACKSLASH; "f"%byte]
  else if in_range 0 31 c || in_range 127 127 c
       then BACKSLASH :: b "u00" ++ [hex_digit (Byte.to_N c / 16); hex_digit (Byte.to_N c mod 16)]
  else [c].

Definition render_string (s : bytes) : bytes :=
  QUOTE :: concat (map escape_byte s) ++ [QUOTE].

Definition newline (indent : option nat) (depth : nat) : bytes :=
  match indent with
  | Some n => LF :: repeat " "%byte (n * depth)
  | None => []
  end.

Definition item_sep (indent : option nat) : bytes :=
  match indent with
  | Some _ => b ","
  | None => b ", "
  end.

Fixpoint render (indent : option nat) (depth : nat) (v : json) : bytes :=
  match v with
  | JNull => b "null"
  | JBool true => b "true"
  | JBool false => b "false"
  | JInt n => str_of_Z n
  | JStr s => render_string s
  | JArr [] => b "[]"
  | JArr items =>
      b "[" ++ newline indent (S depth)
        ++ join (item_sep indent ++ newline indent (S depth))
                (map (render indent (S depth)) items)
        ++ newline indent depth ++ b "]"
  | JObj [] => b "{}"
  | JObj fields =>
      b "{" ++ newline indent (S depth)
        ++ join (item_sep indent ++ newline indent (S depth))
                (map (fun kv => render_string (fst kv) ++ b ": " ++ render indent (S depth) (snd kv))
                     fields)
        ++ newline indent depth ++ b "}"
  end.

Definition dumps (indent : option nat) (v : json) : bytes := render indent 0 v.

(** [str(v)]: exact on [None], booleans, integers and strings; a list or
    a dictionary is shown in its JSON form. *)
Definition to_str (v : json) : bytes :=
  match v with
  | JNull => b "None"
  | JBool true => b "True"
  | JBool false => b "False"
  | JInt n => str_of_Z n
  | JStr s => s
  | _ => dumps None v
  end.

(** The values on which reading back what was written is proved below:
    strings in ASCII, and dictionaries whose keys are pairwise distinct. *)
Definition ascii_only (s : bytes) : bool := forallb (in_range 0 127) s.

Fixpoint fresh_key (k : bytes) (fields : list (bytes * json)) : bool :=
  match fields with
  | [] => true
  | (k', _) :: rest => negb (bytes_eqb k k') && fresh_key k rest
  end.

Fixpoint plain (v : json) : bool :=
  match v with
  | JStr s => ascii_only s
  | JArr items => forallb plain items
  | JObj fields =>
      (fix all (fs : list (bytes * json)) : bool :=
         match fs with
         | [] => true
         | (k, x) :: rest => ascii_only k && fresh_key k rest && plain x && all rest
         end) fields
  | _ => true
  end.

(** The text after a number does not go on like a number. *)
Definition int_end (rest : bytes) : bool :=
  match rest with
  | [] => true
  | c :: _ => negb (is_digit c || Byte.eqb c "."%byte || Byte.eqb c "e"%byte || Byte.eqb c "E"%byte)
  end.

Definition blank (s : bytes) : bool := forallb is_ws s.

(** The first byte of a written value: not white space and not a closing
    bracket. *)
Definition starts_value (s : bytes) : bool :=
  match s with
  | c :: _ => negb (is_ws c) && negb (Byte.eqb c "]"%byte) && negb (Byte.eqb c "}"%byte)
  | [] => false
  end.

Definition key_free (k : bytes) (acc : list (bytes * json)) : bool :=
  forallb (fun kv => negb (bytes_eqb k (fst kv))) acc.

(** The fields still to be read, given those already read. *)
Fixpoint fields_ok (acc fields : list (bytes * json)) : bool :=
  match fields with
  | [] => true
  | (k, x) :: rest =>
      ascii_only k && key_free k acc && fresh_key k rest && plain x && fields_ok acc rest
  end.

Definition field_text (indent : option nat) (depth : nat) (kv : bytes * json) : bytes :=
  render_string (fst kv) ++ b ": " ++ render indent depth (snd kv).

Definition items_text (indent : option nat) (depth : nat) (items : list json) : bytes :=
  join (item_sep indent ++ newline indent depth) (map (render indent depth) items).

Definition fields_text (indent : option nat) (depth : nat) (fields : list (bytes * json)) : bytes :=
  join (item_sep indent ++ newline indent depth) (map (field_text indent depth) fields).

(** A bound on the fuel that reading a value takes. *)
Fixpoint weight (v : json) : nat :=
  match v with
  | JArr items => 2 + list_sum (map weight items)
  | JObj fields => 2 + list_sum (map (fun kv => weight (snd kv)) fields)
  | _ => 1
  end.

(** A chat window that records what it is asked to display. *)
Definition record_message (frame : chat_frame_t) (message : json) : option chat_frame_t :=
  Some (mkChatFrame (selected_chat_id frame) (displayed frame ++ [message])).

End PyJson.

#[export] Instance py_runtime : Runtime := {
  json_loads := PyJson.loads;
  json_dumps := PyJson.dumps;
  py_str := PyJson.to_str;
  display_message := PyJson.record_message
}.

(** ** Vocabulary of the statements *)

(** The wire form of a frame is [head ++ CRLFCRLF ++ body]; the header
    terminator must not occur earlier, which is [first_terminator head]. *)
Definition first_terminator (head : bytes) : Prop :=
  find CRLFCRLF (head ++ CRLFCRLF) = Some (length head).

(** Every result of [recv] holds at least one byte (the peer has not
    closed the connection). *)
Definition nonempty_chunks (chunks : list bytes) : Prop := Forall (fun ch => ch <> []) chunks.

Definition all_nonempty (chunks : list bytes) : bool :=
  forallb (fun ch => negb (bytes_eqb ch [])) chunks.

(** A line without a carriage return. *)
Definition no_cr (s : bytes) : Prop := Forall (fun c => c <> CR) s.

Definition has_no_cr (s : bytes) : bool := forallb (fun c => negb (Byte.eqb c CR)) s.

(** The first line of a header block, as line 98 takes it. *)
Definition status_line_of (head : bytes) : bytes := hd [] (split CRLF head).

(** [arrives chunks head body d cl]: the reads [chunks] carry exactly one
    frame, whose header block [head] parses into the headers [d] with
    declared length [cl], followed by a body of that length. *)
Definition arrives (chunks : list bytes) (head body : bytes)
           (d : list (bytes * bytes)) (cl : Z) : Prop :=
  first_terminator head
  /\ all_nonempty chunks = true
  /\ concat chunks = head ++ CRLFCRLF ++ body
  /\ utf8_valid head = true
  /\ parse_headers (tl (split CRLF head)) [] = Ok d
  /\ content_length_of d = Ok cl
  /\ Z.of_nat (length body) = Z.max 0 cl.

(** [delivers chunks status_line d body]: decoded from the top of the loop,
    the reads [chunks] end with the delivery, at line 108, of a frame with
    that status line, these headers (keys in lower case) and that body. *)
Definition delivers (chunks : list bytes) (status_line : bytes)
           (d : list (bytes * bytes)) (body : bytes) : Prop :=
  decode_chunks (ReadHead []) chunks = (Frame status_line d body, []).

(** The thread waits at the top of its loop, with nothing buffered. *)
Definition idle (c : client) : Prop := receiver c = Running (ReadHead []).

(** The session fields of the client. *)
Definition session (c : client) : json * json * json := (user_id c, user_login c, username c).

Section Vocabulary.
Context `{RT : Runtime}.

(** The request line and the header block that [send_request] writes. *)
Definition request_line (method path : bytes) (params : list (bytes * json)) : bytes :=
  method ++ b " " ++ url_of path params ++ b " HTTP/1.1".

Definition request_head (method path : bytes) (params : list (bytes * json))
           (body : option bytes) : bytes :=
  request_line method path params ++ CRLF ++ b "Content-Length: " ++ content_length_header body.

(** What the thread makes of the decoder's answer. *)
Definition deliver (res : decoded * list bytes) (c : client) : client :=
  match res with
  | (More r', _) => set_receiver (Running r') c
  | (Frame status_line headers_dict body, rest) =>
      receive (route status_line headers_dict body c) rest
  | (Closed, _) => set_receiver Returned c
  | (Failed e, _) => crash e c
  end.

(** The log persisted for a chat: no file stands for the empty log, and a
    file stands for the list it holds. *)
Definition stored (fs : gmap string bytes) (chat_id : json) (log : list json) : Prop :=
  match fs !! chat_file chat_id with
  | None => log = []
  | Some text => json_loads text = Some (JArr log)
  end.

(** Messages saved one after the other. *)
Fixpoint save_all (chat_id : json) (messages : list json) (fs : gmap string bytes)
  : result (gmap string bytes) :=
  match messages with
  | [] => Ok fs
  | m :: rest => let* fs' := save_message chat_id m fs in save_all chat_id rest fs'
  end.

(** [answered rounds replies]: each request of [rounds] is answered, while
    its caller waits, by the reads of one response frame with status 200
    or 201; [replies] lists the status and body of these frames. *)
Inductive answered : list (request * list bytes) -> list (Z * bytes) -> Prop :=
| answered_nil : answered [] []
| answered_cons rq chunks status_line body d status rounds replies :
    delivers chunks status_line d body ->
    bytes_eqb (type_header_of d) (b "message") = false ->
    parse_status status_line = Ok status ->
    status = 200 \/ status = 201 ->
    answered rounds replies ->
    answered ((rq, chunks) :: rounds) ((status, body) :: replies).

End Vocabulary.

(** ** Scenarios *)

Definition fresh_client : client := new_client (∅ : gmap string bytes).

Definition logged_in_as_7 : client :=
  set_session (JInt 7) (JStr (b "bob")) (JStr (b "Bob")) fresh_client.

(** A binary body that contains the header terminator twice. *)
Definition upload_body : bytes := b "PNG" ++ CRLFCRLF ++ b "IDAT" ++ CRLFCRLF.

(** The push of the specification's scenario, with the header name in
    capitals, and a plain reply. *)
Definition chat_push_body : bytes :=
  q "{'chat_id':3,'sender':'Ann','sender_id':2,'content':'hi','timestamp':'2024-01-01 00:00:00'}".

Definition chat_push_head : bytes :=
  b "HTTP/1.1 200 OK" ++ CRLF ++ b "TYPE: message" ++ CRLF ++ b "Content-Length: 91".

Definition ok_reply_head : bytes := b "HTTP/1.1 200 OK" ++ CRLF ++ b "Content-Length: 2".

Definition ok_reply : bytes := ok_reply_head ++ CRLFCRLF ++ b "{}".

Definition not_found_body : bytes := q "{'message':'not found'}".

Definition not_found_reply : bytes :=
  b "HTTP/1.1 404 Not Found" ++ CRLF ++ b "Content-Length: 23" ++ CRLFCRLF ++ not_found_body.

Definition bad_login_body : bytes := q "{'message':'Invalid password'}".

Definition bad_login_reply : bytes :=
  b "HTTP/1.1 401 Unauthorized" ++ CRLF ++ b "Content-Length: 30" ++ CRLFCRLF ++ bad_login_body.

Definition bob_reply : bytes :=
  b "HTTP/1.1 200 OK" ++ CRLF ++ b "Content-Length: 25" ++ CRLFCRLF
    ++ q "{'id':7,'username':'Bob'}".

Definition ann_message : json :=
  JObj [(b "chat_id", JInt 3); (b "sender", JStr (b "Ann")); (b "content", JStr (b "hi"))].

Definition bob_message : json :=
  JObj [(b "chat_id", JInt 3); (b "sender", JStr (b "Bob")); (b "content", JStr (b "hello"))].

Definition ann_log : gmap string bytes :=
  {[ "chat_history/chat_3.json"%string := json_dumps (Some 2%nat) (JArr [ann_message]) ]}.

(** * The rest of the facade (src/client.py, lines 196-227, 251-347 and 367-463)

    Every operation sends one request, waits for the reply, reads it as
    JSON and branches on the status.  What an operation returns is the
    value of its [return]: [tt] where the Python function returns nothing,
    [JNull] for an explicit or implicit [None] beside another value. *)

(** The thread waits at the top of its loop and no reply is queued: the
    state in which a call of the facade starts. *)
Definition ready (c : client) : Prop := idle c /\ response_queue c = [].

(** [reply_arrives chunks status body]: the reads [chunks] carry one response
    frame (its [Type] header is not ["message"]) with this status and
    this body. *)
Definition reply_arrives (chunks : list bytes) (status : Z) (body : bytes) : Prop :=
  exists status_line d,
    delivers chunks status_line d body
    /\ bytes_eqb (type_header_of d) (b "message") = false
    /\ parse_status status_line = Ok status.

(** The value bound to [key] in a JSON object, [default] when there is
    none: [fields.get(key, default)]. *)
Definition value_of (key : bytes) (default : json) (fields : list (bytes * json)) : json :=
  match assoc key fields with
  | Some x => x
  | None => default
  end.



(** Text within ASCII, on which [lower] is [str.lower]. *)
Definition is_ascii (s : bytes) : bool := forallb (in_range 0 127) s.


Section Facade.
Context `{RT : Runtime}.

(** The text of an f-string. *)
Definition fstring (parts : list bytes) : string := string_of_list_byte (concat parts).

(** The first two statements of every operation below:
    [status, response = self.send_request(...)] and
    [response_data = json.loads(response)]. *)
Definition request_json {A} (method path : bytes) (params : list (bytes * json))
           (body : option bytes) (incoming : list bytes) (c : client)
           (k : Z -> json -> client -> outcome A) : outcome A :=
  and_then (send_request method path params body incoming c)
    (fun '(status, response) c =>
       loads_or_raise response c (fun response_data => k status response_data c)).

(** [return response_data.get(key, [])]. *)
Definition return_get_list (response_data : json) (key : bytes) (c : client) : outcome json :=
  match py_get_default response_data key (JArr []) with
  | Ok v => Return v c
  | Err e => Raise e c
  end.

(** [sign_in] (lines 196-211): on status 201 the session takes the id of
    the reply and the login and user name that were passed in. *)
Definition sign_in (login username password : json) (incoming : list bytes) (c : client)
  : outcome unit :=
  let body := json_dumps None (JObj [(b "login", login); (b "username", username);
                                     (b "password", password)]) in
  request_json (b "POST") (b "/sign_in") [] (Some body) incoming c
    (fun status response_data c =>
       if status =? 201 then
         get_or_raise response_data (b "id") c (fun id =>
         get_or_raise response_data (b "message") c (fun message =>
           Return tt (print (OutValue message) (set_session id login username c))))
       else
         get_or_raise response_data (b "message") c (fun message =>
           Return tt (print (OutLabelled "Sign-up failed: " message) c))).

(** [upload] (lines 213-227): the path returned on status 200 is put
    together from the session and the file name. *)
Definition upload (filename : json) (file_data : bytes) (incoming : list bytes) (c : client)
  : outcome json :=
  request_json (b "POST") (b "/upload") [(b "filename", filename); (b "id", user_id c)]
               (Some file_data) incoming c
    (fun status response_data c =>
       if status =? 200 then
         get_or_raise response_data (b "message") c (fun message =>
           Return (JStr (b "uploads/" ++ py_str (user_id c) ++ b "/" ++ py_str filename))
                  (print (OutValue message) c))
       else
         get_or_raise response_data (b "message") c (fun message =>
           Return JNull (print (OutLabelled "File upload failed: " message) c))).

(** The dictionary that [send_message] sends and saves (lines 260-261);
    [timestamp] is what [datetime.now().strftime(...)] gave. *)
Definition message_data_of (chat_id message_type content : json) (timestamp : bytes)
           (c : client) : json :=
  JObj [(b "chat_id", chat_id); (b "sender", username c); (b "sender_id", user_id c);
        (b "message_type", message_type); (b "content", content);
        (b "timestamp", JStr timestamp)].

(** [send_message] (lines 251-270): on status 200 the message is appended
    to the local history of the chat. *)
Definition send_message (chat_id message_type content : json) (timestamp : bytes)
           (incoming : list bytes) (c : client) : outcome unit :=
  let message_data := message_data_of chat_id message_type content timestamp c in
  let body := json_dumps None message_data in
  request_json (b "POST") (b "/send_message") [] (Some body) incoming c
    (fun status response_data c =>
       if status =? 200 then
         get_or_raise response_data (b "message") c (fun message =>
           let c1 := print (OutValue message) c in
           match save_message chat_id message_data (files c1) with
           | Ok fs => Return tt (set_files fs c1)
           | Err e => Raise e c1
           end)
       else
         get_or_raise response_data (b "message") c (fun message =>
           Return tt (print (OutLabelled "Failed to send message:" message) c))).

(** [add_to_chat] (lines 272-283). *)
Definition add_to_chat (chat_id user_id_to_add : json) (incoming : list bytes) (c : client)
  : outcome unit :=
  let body := json_dumps None (JObj [(b "chat_id", chat_id); (b "user_id", user_id_to_add)]) in
  request_json (b "POST") (b "/add_to_chat") [] (Some body) incoming c
    (fun status response_data c =>
       if status =? 200 then
         Return tt (print (OutText (fstring [b "User "; py_str user_id_to_add;
                                             b " added to chat "; py_str chat_id;
                                             b " successfully!"])) c)
       else
         get_or_raise response_data (b "message") c (fun message =>
           Return tt (print (OutLabelled (fstring [b "Failed to add user "; py_str user_id_to_add;
                                                   b " to chat "; py_str chat_id; b ":"])
                                         message) c))).

(** The body of the four friend operations (lines 291, 308, 325, 340). *)
Definition friend_body (friend_id : json) (c : client) : bytes :=
  json_dumps None (JObj [(b "user_id", user_id c); (b "friend_id", friend_id)]).

(** [send_friend_request] (lines 285-300). *)
Definition send_friend_request (friend_id : json) (incoming : list bytes) (c : client)
  : outcome bool :=
  request_json (b "POST") (b "/add_friend") [] (Some (friend_body friend_id c)) incoming c
    (fun status response_data c =>
       if status =? 200 then
         get_or_raise response_data (b "message") c (fun message =>
           Return true (print (OutValue message) c))
       else
         get_or_raise response_data (b "message") c (fun message =>
           Return false (print (OutLabelled "Failed to send friend request:" message) c))).

(** [accept_friend_request] (lines 302-317). *)
Definition accept_friend_request (friend_id : json) (incoming : list bytes) (c : client)
  : outcome bool :=
  request_json (b "POST") (b "/accept_friend") [] (Some (friend_body friend_id c)) incoming c
    (fun status response_data c =>
       if status =? 200 then
         get_or_raise response_data (b "message") c (fun message =>
           Return true (print (OutValue message) c))
       else
         get_or_raise response_data (b "message") c (fun message =>
           Return false (print (OutLabelled "Failed to accept friend request:" message) c))).

(** [decline_friend_request] (lines 319-334). *)
Definition decline_friend_request (friend_id : json) (incoming : list bytes) (c : client)
  : outcome bool :=
  request_json (b "POST") (b "/decline_friend") [] (Some (friend_body friend_id c)) incoming c
    (fun status response_data c =>
       if status =? 200 then
         get_or_raise response_data (b "message") c (fun message =>
           Return true (print (OutValue message) c))
       else
         get_or_raise response_data (b "message") c (fun message =>
           Return false (print (OutLabelled "Failed to decline friend request:" message) c))).

(** [remove_friend] (lines 336-347). *)
Definition remove_friend (friend_id : json) (incoming : list bytes) (c : client)
  : outcome unit :=
  request_json (b "POST") (b "/remove_friend") [] (Some (friend_body friend_id c)) incoming c
    (fun status response_data c =>
       if status =? 200 then
         get_or_raise response_data (b "message") c (fun message =>
           Return tt (print (OutValue message) c))
       else
         get_or_raise response_data (b "message") c (fun message =>
           Return tt (print (OutLabelled "Failed to remove friend:" message) c))).

(** [get_gallery] (lines 367-382). *)
Definition get_gallery (incoming : list bytes) (c : client) : outcome json :=
  request_json (b "GET") (b "/gallery") [(b "id", user_id c)] None incoming c
    (fun status response_data c =>
       if status =? 200 then
         return_get_list response_data (b "images")
                         (print (OutText "Gallery fetched successfully!") c)
       else
         get_or_raise response_data (b "message") c (fun message =>
           Return (JArr []) (print (OutLabelled "Failed to fetch gallery:" message) c))).

(** [get_chats] (lines 384-399). *)
Definition get_chats (incoming : list bytes) (c : client) : outcome json :=
  request_json (b "GET") (b "/chats") [(b "id", user_id c)] None incoming c
    (fun status response_data c =>
       if status =? 200 then
         return_get_list response_data (b "chats")
                         (print (OutText "Chats fetched successfully!") c)
       else
         get_or_raise response_data (b "message") c (fun message =>
           Return (JArr []) (print (OutLabelled "Failed to fetch chats:" message) c))).

(** [get_friends] (lines 401-415). *)
Definition get_friends (incoming : list bytes) (c : client) : outcome json :=
  request_json (b "GET") (b "/friends") [(b "user_id", user_id c)] None incoming c
    (fun status response_data c =>
       if status =? 200 then return_get_list response_data (b "friends") c
       else
         get_or_raise response_data (b "message") c (fun message =>
           Return (JArr []) (print (OutLabelled "Failed to fetch friends:" message) c))).

(** [get_incoming_requests] (lines 417-431). *)
Definition get_incoming_requests (incoming : list bytes) (c : client) : outcome json :=
  request_json (b "GET") (b "/requests_incoming") [(b "user_id", user_id c)] None incoming c
    (fun status response_data c =>
       if status =? 200 then return_get_list response_data (b "incoming") c
       else
         get_or_raise response_data (b "message") c (fun message =>
           Return (JArr []) (print (OutLabelled "Failed to fetch incoming requests:" message) c))).

(** [get_outgoing_requests] (lines 433-447). *)
Definition get_outgoing_requests (incoming : list bytes) (c : client) : outcome json :=
  request_json (b "GET") (b "/requests_outgoing") [(b "user_id", user_id c)] None incoming c
    (fun status response_data c =>
       if status =? 200 then return_get_list response_data (b "outgoing") c
       else
         get_or_raise response_data (b "message") c (fun message =>
           Return (JArr []) (print (OutLabelled "Failed to fetch outgoing requests:" message) c))).

(** [search_user] (lines 449-463). *)
Definition search_user (username searcher_id : json) (incoming : list bytes) (c : client)
  : outcome json :=
  request_json (b "GET") (b "/search_user")
               [(b "username", username); (b "searcher_id", searcher_id)] None incoming c
    (fun status response_data c =>
       if status =? 200 then return_get_list response_data (b "results") c
       else
         get_or_raise response_data (b "message") c (fun message =>
           Return (JArr []) (print (OutLabelled "Search failed:" message) c))).

End Facade.

(** * The image editor (src/editor.py)

    The editor holds the image as loaded, the image being edited and two
    stacks of images.  Pillow's images and its operations on them are the
    fields of the class [Pillow].  A Python list used as a stack grows at
    its end: [append] adds the last element and [pop] removes it. *)

Class Pillow := {
  image : Type;
  (** [img.size]: width, then height. *)
  image_size : image -> Z * Z;
  (** [img.crop((left, top, right, bottom))]. *)
  image_crop : image -> Z * Z * Z * Z -> image;
  (** [img.rotate(angle, expand=True)]. *)
  image_rotate : image -> Z -> image
}.

Module Editor.
Section WithPillow.
Context `{PIL : Pillow}.

Record editor := mkEditor {
  original_image : option image;
  current_image : option image;
  undo_stack : list image;
  redo_stack : list image
}.

(** [Editor.__init__]. *)
Definition new_editor : editor := mkEditor None None [] [].

Definition set_current_image (img : option image) (e : editor) : editor :=
  mkEditor (original_image e) img (undo_stack e) (redo_stack e).

(** [stack.pop()] on a list that is not empty: the list without its last
    element, and that element. *)
Fixpoint pop (stack : list image) : option (list image * image) :=
  match stack with
  | [] => None
  | [x] => Some ([], x)
  | x :: rest =>
      match pop rest with
      | Some (rest', top) => Some (x :: rest', top)
      | None => None
      end
  end.

(** [load_image] (lines 27-38), given the image that
    [Image.open(path).convert("RGB")] returned. *)
Definition load_image (opened : image) (e : editor) : editor :=
  mkEditor (Some opened) (Some opened) [] [].

(** [reset] (lines 40-45). *)
Definition reset (e : editor) : editor :=
  match original_image e with
  | Some img => set_current_image (Some img) e
  | None => e
  end.

(** [undo] (lines 47-53); [self.current_image.copy()] raises when no
    image is loaded. *)
Definition undo (e : editor) : result editor :=
  match pop (undo_stack e) with
  | None => Ok e
  | Some (rest, top) =>
      match current_image e with
      | None => Err AttributeError
      | Some img => Ok (mkEditor (original_image e) (Some top) rest (redo_stack e ++ [img]))
      end
  end.

(** [redo] (lines 55-61). *)
Definition redo (e : editor) : result editor :=
  match pop (redo_stack e) with
  | None => Ok e
  | Some (rest, top) =>
      match current_image e with
      | None => Err AttributeError
      | Some img => Ok (mkEditor (original_image e) (Some top) (undo_stack e ++ [img]) rest)
      end
  end.

(** Lines 206-212 of [crop_rect]: the box clamped to the image, when it
    is not empty. *)
Definition crop_box (size : Z * Z) (left top right bottom : Z) : option (Z * Z * Z * Z) :=
  let '(width, height) := size in
  let left := Z.max 0 (Z.min left width) in
  let right := Z.max 0 (Z.min right width) in
  let top := Z.max 0 (Z.min top height) in
  let bottom := Z.max 0 (Z.min bottom height) in
  if (left <? right) && (top <? bottom) then Some (left, top, right, bottom) else None.

(** [crop_rect] (lines 194-213). *)
Definition crop_rect (left top right bottom : Z) (e : editor) : editor :=
  match current_image e with
  | None => e
  | Some img =>
      match crop_box (image_size img) left top right bottom with
      | Some box => set_current_image (Some (image_crop img box)) e
      | None => e
      end
  end.

(** [rotate_image] (lines 215-223). *)
Definition rotate_image (angle : Z) (e : editor) : editor :=
  match current_image e with
  | None => e
  | Some img => set_current_image (Some (image_rotate img angle)) e
  end.

(** What the editor window asks of the editor.  [crop_to_aspect_ratio]
    and [apply_kernel] compute in floating point and through NumPy; like
    the assignments of lines 293 and 325 of editor_frame.py they are
    present by their only effect on the editor, which is to replace the
    current image when there is one.  Opening a file ([Image.open], line
    34) and these computations (the divisions of lines 93 and 180-181,
    NumPy, the JPEG coder) can raise: [None] stands for the call that
    raised instead of giving an image. *)
Inductive action :=
| ALoadImage (opened : option image)
| AReset
| AUndo
| ARedo
| ACropRect (left top right bottom : Z)
| ARotateImage (angle : Z)
| AReplace (computed : option image).

(** One request; [None] when it raised.  Every operation assigns to the
    editor after the last step that can raise, so a request that raised
    has left the editor as it was. *)
Definition perform (a : action) (e : editor) : option editor :=
  match a with
  | ALoadImage (Some opened) => Some (load_image opened e)
  | ALoadImage None => None
  | AReset => Some (reset e)
  | AUndo => match undo e with Ok e' => Some e' | Err _ => None end
  | ARedo => match redo e with Ok e' => Some e' | Err _ => None end
  | ACropRect x0 y0 x1 y1 => Some (crop_rect x0 y0 x1 y1 e)
  | ARotateImage angle => Some (rotate_image angle e)
  | AReplace computed =>
      match current_image e with
      | None => Some e
      | Some _ =>
          match computed with
          | Some img => Some (set_current_image (Some img) e)
          | None => None
          end
      end
  end.

(** The requests of a session, one after the other: after a request that
    raised, the window goes on with the editor as it was. *)
Fixpoint run (actions : list action) (e : editor) : editor :=
  match actions with
  | [] => e
  | a :: rest =>
      run rest (match perform a e with
                | Some e' => e'
                | None => e
                end)
  end.

End WithPillow.
End Editor.

(** Images known by their size only, turned by right angles, for running
    the editor. *)
#[export] Instance sized_images : Pillow := {
  image := Z * Z;
  image_size := fun img => img;
  image_crop := fun _ '(x0, y0, x1, y1) => (x1 - x0, y1 - y0);
  image_rotate := fun '(width, height) angle =>
                    if (angle mod 180 =? 0) then (width, height) else (height, width)
}.
(** ** More scenarios *)

Definition reply_frame (status_line : string) (body : bytes) : bytes :=
  b status_line ++ CRLF ++ b "Content-Length: " ++ str_of_nat (length body) ++ CRLFCRLF ++ body.

Definition created_body : bytes := q "{'id':9,'message':'ok'}".

Definition message_body : bytes := q "{'message':'ok'}".

Definition chats_body : bytes := q "{'chats':[1,2]}".

(** The bytes of a small image file, with a header terminator inside. *)
Definition image_bytes : bytes := b "PNG" ++ CRLFCRLF ++ b "IDAT".

(** Bob, logged in, with the history of chat 3 on his disk. *)
Definition bob_with_history : client := set_files ann_log logged_in_as_7.

(** * Properties *)

(** ** Searching in byte strings *)

Lemma byte_eqb_eq (x y : byte) : Byte.eqb x y = true <-> x = y.
Proof. split; [apply byte_dec_bl | apply byte_dec_lb]. Qed.

Lemma byte_eqb_refl (x : byte) : Byte.eqb x x = true.
Proof. now apply byte_eqb_eq. Qed.

Lemma bytes_eqb_eq (x y : bytes) : bytes_eqb x y = true <-> x = y.
Proof.
  revert y; induction x as [|a x IH]; intros [|c y]; simpl; try easy.
  rewrite andb_true_iff, byte_eqb_eq, IH. split.
  - now intros [-> ->].
  - intros [= -> ->]; auto.
Qed.

Lemma bytes_eqb_refl (x : bytes) : bytes_eqb x x = true.
Proof. now apply bytes_eqb_eq. Qed.

Lemma starts_with_spec (p s : bytes) :
  starts_with p s = true <-> exists r, s = p ++ r.
Proof.
  revert s; induction p as [|a p IH]; intros s; simpl.
  - split; eauto.
  - destruct s as [|c s].
    + split; [easy | intros [r [=]]].
    + rewrite andb_true_iff, byte_eqb_eq, IH. split.
      * intros [-> [r ->]]; eauto.
      * intros [r [= -> ->]]; eauto.
Qed.

Lemma starts_with_app (p r : bytes) : starts_with p (p ++ r) = true.
Proof. apply starts_with_spec; eauto. Qed.

(** Only the first [length p] bytes of [s] matter. *)
Lemma starts_with_app_l (p x y : bytes) :
  (length p <= length x)%nat -> starts_with p (x ++ y) = starts_with p x.
Proof.
  revert x; induction p as [|a p IH]; intros [|c x] Hlen; simpl in *; try easy; try lia.
  rewrite IH by lia. reflexivity.
Qed.

Lemma starts_with_length (p s : bytes) :
  starts_with p s = true -> (length p <= length s)%nat.
Proof. rewrite starts_with_spec. intros [r ->]. rewrite length_app. lia. Qed.

(** [find] returns the least index at which [sep] occurs. *)
Lemma find_Some (sep s : bytes) (i : nat) :
  find sep s = Some i <->
  starts_with sep (drop i s) = true /\
  forall j, (j < i)%nat -> starts_with sep (drop j s) = false.
Proof.
  revert i; induction s as [|c s IH]; intros i; simpl.
  - destruct (starts_with sep []) eqn:E0.
    + split.
      * intros [= <-]. split; [assumption | lia].
      * intros [_ H]. destruct i as [|i]; [reflexivity|].
        specialize (H 0%nat ltac:(lia)). simpl in H. congruence.
    + split; [easy|]. intros [H _]. rewrite drop_nil in H. congruence.
  - destruct (starts_with sep (c :: s)) eqn:E0.
    + split.
      * intros [= <-]. split; [assumption | lia].
      * intros [_ H]. destruct i as [|i]; [reflexivity|].
        specialize (H 0%nat ltac:(lia)). simpl in H. congruence.
    + destruct i as [|i].
      * split.
        -- destruct (find sep s); simpl; congruence.
        -- intros [H _]. simpl in H. congruence.
      * specialize (IH i). simpl. split.
        -- destruct (find sep s) as [i'|] eqn:Ef; simpl; [|easy].
           intros [= ->]. destruct IH as [IH _]. destruct (IH eq_refl) as [H1 H2].
           split; [assumption|]. intros [|j] Hj; simpl; [assumption | apply H2; lia].
        -- intros [H1 H2]. destruct IH as [_ IH].
           rewrite IH; [reflexivity|]. split; [assumption|].
           intros j Hj. apply (H2 (S j)). lia.
Qed.

Lemma find_None (sep s : bytes) :
  find sep s = None <-> forall j, starts_with sep (drop j s) = false.
Proof.
  induction s as [|c s IH]; simpl.
  - destruct (starts_with sep []) eqn:E0.
    + split; [easy|]. intros H. specialize (H 0%nat). simpl in H. congruence.
    + split; [|easy]. intros _ j. now rewrite drop_nil.
  - destruct (starts_with sep (c :: s)) eqn:E0.
    + split; [easy|]. intros H. specialize (H 0%nat). simpl in H. congruence.
    + destruct (find sep s) as [i|] eqn:Ef; simpl.
      * split; [easy|]. intros H. destruct IH as [_ IH].
        discriminate IH. intros j. apply (H (S j)).
      * split; [|easy]. intros _ [|j]; simpl; [assumption|]. now apply IH.
Qed.

Lemma drop_app_length' {A} (x y : list A) (j : nat) :
  (j <= length x)%nat -> drop j (x ++ y) = drop j x ++ y.
Proof. intros H. rewrite drop_app. replace (j - length x)%nat with 0%nat by lia. reflexivity. Qed.

Lemma first_terminator_before (head rest : bytes) (j : nat) :
  first_terminator head -> (j < length head)%nat ->
  starts_with CRLFCRLF (drop j (head ++ CRLFCRLF ++ rest)) = false.
Proof.
  intros H Hj. apply find_Some in H as [_ H]. specialize (H j Hj).
  rewrite app_assoc, drop_app_length' by (rewrite length_app; simpl; lia).
  rewrite starts_with_app_l; [assumption|].
  rewrite length_drop, length_app. simpl. lia.
Qed.

Lemma first_terminator_at (head rest : bytes) :
  starts_with CRLFCRLF (drop (length head) (head ++ CRLFCRLF ++ rest)) = true.
Proof. rewrite drop_app_length. apply starts_with_app. Qed.

Lemma starts_with_extend (p x y : bytes) :
  starts_with p x = true -> starts_with p (x ++ y) = true.
Proof.
  rewrite !starts_with_spec. intros [r ->]. exists (r ++ y). now rewrite app_assoc.
Qed.

Lemma find_terminator (head rest : bytes) :
  first_terminator head ->
  find CRLFCRLF (head ++ CRLFCRLF ++ rest) = Some (length head).
Proof.
  intros H. apply find_Some. split.
  - apply first_terminator_at.
  - intros j Hj. now apply first_terminator_before.
Qed.

(** What has been received stops short of the terminator's end: the
    loop of line 90 goes on. *)
Lemma prefix_find_None (head rest data more : bytes) :
  first_terminator head ->
  data ++ more = head ++ CRLFCRLF ++ rest ->
  (length data < length head + 4)%nat ->
  find CRLFCRLF data = None.
Proof.
  intros H Heq Hlen. apply find_None. intros j.
  destruct (starts_with CRLFCRLF (drop j data)) eqn:E; [|reflexivity].
  exfalso. pose proof (starts_with_length _ _ E) as Hl.
  rewrite length_drop in Hl. simpl in Hl.
  assert (Hj : (j < length head)%nat) by lia.
  pose proof (first_terminator_before head rest j H Hj) as Hno.
  rewrite <- Heq, drop_app_length' in Hno by lia.
  rewrite (starts_with_extend _ _ _ E) in Hno. discriminate.
Qed.

(** What has been received holds the terminator: line 96 splits it at the
    end of the header block. *)
Lemma prefix_partition (head rest data more : bytes) :
  first_terminator head ->
  data ++ more = head ++ CRLFCRLF ++ rest ->
  (length head + 4 <= length data)%nat ->
  exists body0, data = head ++ CRLFCRLF ++ body0 /\ body0 ++ more = rest /\
                partition CRLFCRLF data = Some (head, body0).
Proof.
  intros H Heq Hlen. rewrite (app_assoc head) in Heq.
  apply app_eq_app in Heq as [l [[-> ->] | [Hl ->]]].
  - exists l. rewrite <- app_assoc. split; [reflexivity|]. split; [reflexivity|].
    unfold partition. rewrite find_terminator by assumption.
    rewrite take_app_length. rewrite app_assoc.
    replace (length head + length CRLFCRLF)%nat with (length (head ++ CRLFCRLF))
      by (now rewrite length_app).
    now rewrite drop_app_length.
  - assert (l = []) as ->.
    { apply (f_equal (@length byte)) in Hl. rewrite !length_app in Hl. simpl in Hl.
      destruct l; [reflexivity | simpl in Hl; lia]. }
    rewrite app_nil_r in Hl. subst data. exists [].
    split; [reflexivity|]. split; [reflexivity|].
    unfold partition. pose proof (find_terminator head [] H) as Hf.
    change (CRLFCRLF ++ []) with CRLFCRLF in Hf. rewrite Hf.
    rewrite take_app_length.
    replace (length head + length CRLFCRLF)%nat with (length (head ++ CRLFCRLF))
      by (now rewrite length_app).
    rewrite drop_all. reflexivity.
Qed.

(** ** The decoder on a frame cut into chunks *)

Lemma nonempty_chunks_app (xs ys : list bytes) :
  nonempty_chunks (xs ++ ys) -> nonempty_chunks xs /\ nonempty_chunks ys.
Proof. apply Forall_app. Qed.

Lemma concat_nonempty_nil (chunks : list bytes) :
  nonempty_chunks chunks -> concat chunks = [] -> chunks = [].
Proof.
  intros H Hc. destruct chunks as [|ch rest]; [reflexivity|].
  inversion H as [|? ? Hch _]; subst. cbn [concat] in Hc.
  apply app_eq_nil in Hc as [-> _]. congruence.
Qed.

Lemma decode_chunks_cons (r : reader) (chunk : bytes) (rest : list bytes) :
  decode_chunks r (chunk :: rest) = resume (decode r chunk) rest.
Proof. simpl. destruct (decode r chunk); reflexivity. Qed.

(** The body loop (lines 106-107): chunks are read up to the first point
    where the buffered body reaches the declared length, and the frame is
    delivered with everything buffered by then. *)
Lemma decode_chunks_body (chunks : list bytes) :
  forall status_line headers_dict cl body0,
    Z.of_nat (length body0) < cl <= Z.of_nat (length (body0 ++ concat chunks)) ->
    exists used rest,
      chunks = used ++ rest
      /\ cl <= Z.of_nat (length (body0 ++ concat used))
      /\ decode_chunks (ReadBody status_line headers_dict cl body0) chunks
         = (Frame status_line headers_dict (body0 ++ concat used), rest).
Proof.
  induction chunks as [|chunk chunks IH]; intros sl d cl body0 Hlen.
  - cbn [concat] in Hlen. rewrite app_nil_r in Hlen. lia.
  - cbn [concat] in Hlen. rewrite decode_chunks_cons. cbn [decode]. unfold body_step.
    destruct (Z.of_nat (length (body0 ++ chunk)) <? cl) eqn:E.
    + apply Z.ltb_lt in E. cbn [resume].
      destruct (IH sl d cl (body0 ++ chunk)) as (used & rest & H1 & H2 & H3).
      { rewrite <- app_assoc. lia. }
      exists (chunk :: used), rest. cbn [concat].
      split; [now rewrite H1|]. rewrite app_assoc. split; assumption.
    + apply Z.ltb_ge in E. exists [chunk], chunks. cbn [concat]. rewrite app_nil_r.
      split; [reflexivity|]. split; [lia | reflexivity].
Qed.

(** The header loop (lines 90-94) on the chunks of a frame: line 96 is
    reached with the header block and the part of the body that came in
    the same reads. *)
Lemma decode_chunks_head (chunks : list bytes) :
  forall head body data,
    first_terminator head ->
    nonempty_chunks chunks ->
    data ++ concat chunks = head ++ CRLFCRLF ++ body ->
    find CRLFCRLF data = None ->
    exists body0 used rest,
      chunks = used ++ rest
      /\ data ++ concat used = head ++ CRLFCRLF ++ body0
      /\ body0 ++ concat rest = body
      /\ decode_chunks (ReadHead data) chunks = resume (parse_head head body0) rest.
Proof.
  induction chunks as [|chunk chunks IH]; intros head body data Hfirst Hne Hcat Hnone.
  - cbn [concat] in Hcat. rewrite app_nil_r in Hcat. subst data.
    rewrite find_terminator in Hnone by assumption. discriminate.
  - inversion Hne as [|? ? Hchunk Hne']; subst. cbn [concat] in Hcat.
    rewrite decode_chunks_cons.
    assert (Hdec : decode (ReadHead data) chunk = head_step (data ++ chunk)).
    { destruct chunk; [congruence | reflexivity]. }
    rewrite Hdec. clear Hdec.
    destruct (Nat.lt_ge_cases (length (data ++ chunk)) (length head + 4)) as [Hshort | Hlong].
    + assert (Hn : find CRLFCRLF (data ++ chunk) = None).
      { apply (prefix_find_None head body _ (concat chunks)); auto.
        now rewrite <- app_assoc. }
      unfold head_step, partition. rewrite Hn. cbn [resume].
      destruct (IH head body (data ++ chunk)) as (body0 & used & rest & H1 & H2 & H3 & H4); auto.
      { now rewrite <- app_assoc. }
      exists body0, (chunk :: used), rest. cbn [concat].
      split; [now rewrite H1|]. rewrite app_assoc. repeat split; assumption.
    + destruct (prefix_partition head body (data ++ chunk) (concat chunks)) as (body0 & Hd & Hb & Hp);
        auto.
      { now rewrite <- app_assoc. }
      exists body0, [chunk], chunks. cbn [concat]. rewrite app_nil_r.
      split; [reflexivity|]. split; [exact Hd|]. split; [exact Hb|].
      unfold head_step. rewrite Hp. reflexivity.
Qed.

(** A frame whose body has exactly the declared length is delivered whole,
    however [recv] cuts it, once its last chunk has been read. *)
Lemma decode_frame_exact (chunks : list bytes) (head body : bytes)
      (headers_dict : list (bytes * bytes)) (cl : Z) :
  first_terminator head ->
  nonempty_chunks chunks ->
  concat chunks = head ++ CRLFCRLF ++ body ->
  utf8_valid head = true ->
  parse_headers (tl (split CRLF head)) [] = Ok headers_dict ->
  content_length_of headers_dict = Ok cl ->
  Z.of_nat (length body) = Z.max 0 cl ->
  decode_chunks (ReadHead []) chunks
  = (Frame (hd [] (split CRLF head)) headers_dict body, []).
Proof.
  intros Hfirst Hne Hcat Hutf Hparse Hcl Hlen.
  destruct (decode_chunks_head chunks head body [] Hfirst Hne Hcat eq_refl)
    as (body0 & used & rest & H1 & H2 & H3 & H4).
  rewrite H4. unfold parse_head. rewrite Hutf, Hparse, Hcl. unfold body_step.
  subst chunks. apply nonempty_chunks_app in Hne as [_ Hrest].
  assert (Hb : (length body0 + length (concat rest) = length body)%nat).
  { rewrite <- H3. now rewrite length_app. }
  destruct (Z.of_nat (length body0) <? cl) eqn:E.
  - apply Z.ltb_lt in E. cbn [resume].
    destruct (decode_chunks_body rest (hd [] (split CRLF head)) headers_dict cl body0)
      as (used' & rest' & H5 & H6 & H7).
    { rewrite H3. lia. }
    rewrite H7. subst rest. apply nonempty_chunks_app in Hrest as [_ Hrest'].
    rewrite concat_app, app_assoc in H3.
    assert (Hl : (length (body0 ++ concat used') + length (concat rest') = length body)%nat).
    { rewrite <- H3. rewrite !length_app. lia. }
    assert (Hnil : concat rest' = []).
    { destruct (concat rest'); [reflexivity | simpl in Hl; lia]. }
    rewrite Hnil, app_nil_r in H3. rewrite H3.
    now rewrite (concat_nonempty_nil rest' Hrest' Hnil).
  - apply Z.ltb_ge in E. cbn [resume].
    assert (Hnil : concat rest = []).
    { destruct (concat rest); [reflexivity | simpl in Hb; lia]. }
    rewrite Hnil, app_nil_r in H3. rewrite H3.
    now rewrite (concat_nonempty_nil rest Hrest Hnil).
Qed.

(** ** Lines without a carriage return *)

Lemma no_cr_app (x y : bytes) : no_cr (x ++ y) <-> no_cr x /\ no_cr y.
Proof. apply Forall_app. Qed.

Lemma byte_eqb_neq (x y : byte) : x <> y -> Byte.eqb x y = false.
Proof.
  intros H. destruct (Byte.eqb x y) eqn:E; [|reflexivity].
  apply byte_eqb_eq in E. contradiction.
Qed.

Lemma starts_with_cr (sep' s : bytes) (c : byte) :
  c <> CR -> starts_with (CR :: sep') (c :: s) = false.
Proof. intros H. simpl. rewrite byte_eqb_neq; [reflexivity | congruence]. Qed.

Lemma find_skip (x rest : bytes) :
  no_cr x ->
  find CRLFCRLF (x ++ rest) = option_map (Nat.add (length x)) (find CRLFCRLF rest).
Proof.
  induction 1 as [|c x Hc Hx IH].
  - simpl app. now destruct (find CRLFCRLF rest).
  - cbn [app find]. unfold CRLFCRLF at 1. rewrite starts_with_cr by assumption.
    rewrite IH. now destruct (find CRLFCRLF rest).
Qed.

Lemma split_go_line (x rest cur : bytes) :
  no_cr x ->
  split_go CRLF 0 cur (x ++ CRLF ++ rest) = (rev cur ++ x) :: split_go CRLF 0 [] rest.
Proof.
  intros H. revert cur. induction H as [|c x Hc Hx IH]; intros cur.
  - simpl. now rewrite app_nil_r.
  - cbn [app split_go]. unfold CRLF at 1. rewrite starts_with_cr by assumption.
    fold CRLF. rewrite IH. cbn [rev]. now rewrite <- app_assoc.
Qed.

Lemma split_go_last (x cur : bytes) :
  no_cr x -> split_go CRLF 0 cur x = [rev cur ++ x].
Proof.
  intros H. revert cur. induction H as [|c x Hc Hx IH]; intros cur.
  - simpl. now rewrite app_nil_r.
  - cbn [split_go]. unfold CRLF at 1. rewrite starts_with_cr by assumption.
    fold CRLF. rewrite IH. cbn [rev]. now rewrite <- app_assoc.
Qed.

Lemma split_two_lines (x y : bytes) :
  no_cr x -> no_cr y -> split CRLF (x ++ CRLF ++ y) = [x; y].
Proof.
  intros Hx Hy. unfold split. rewrite split_go_line by assumption.
  now rewrite split_go_last.
Qed.

(** ** Decimal numerals *)

Lemma bytes_of_uint_digits (d : Decimal.uint) : Forall (fun c => is_digit c = true) (bytes_of_uint d).
Proof. induction d; simpl; constructor; auto. Qed.

Lemma is_digit_not_cr (c : byte) : is_digit c = true -> c <> CR.
Proof. intros H ->. discriminate H. Qed.

Lemma is_digit_not_space (c : byte) : is_digit c = true -> is_space c = false.
Proof.
  unfold is_digit, is_space, in_range. intros H.
  apply andb_true_iff in H as [H1 H2]. apply N.leb_le in H1. apply N.leb_le in H2.
  apply orb_false_iff. split; apply andb_false_iff.
  - right. apply N.leb_gt. lia.
  - right. apply N.leb_gt. lia.
Qed.

Lemma digits_go_uint (d : Decimal.uint) :
  forall (a : nat) (p : bool),
    (p = true \/ d <> Nil) ->
    digits_go (Z.of_nat a) p (bytes_of_uint d) = Some (Z.of_nat (Nat.of_uint_acc d a)).
Proof.
  induction d; intros a p Hp; cbn [bytes_of_uint Nat.of_uint_acc];
    [destruct Hp as [-> | Hp]; [reflexivity | congruence] | ..];
    cbn [digits_go];
    match goal with
    | |- context [is_digit ?c] => change (is_digit c) with true; cbv iota
    end;
    match goal with
    | |- digits_go ?z true _ = Some (Z.of_nat (Nat.of_uint_acc _ ?m)) =>
        replace z with (Z.of_nat m)
          by (rewrite Nat.tail_mul_spec; unfold digit_val; simpl Byte.to_N; lia)
    end;
    apply IHd; auto.
Qed.

Lemma to_uint_not_Nil (n : nat) : Nat.to_uint n <> Nil.
Proof.
  intros H. pose proof (Unsigned.of_to n) as Hn. rewrite H in Hn. simpl in Hn.
  subst n. discriminate H.
Qed.

Lemma lstrip_digit (s : bytes) :
  match s with c :: _ => is_digit c = true | [] => True end -> lstrip s = s.
Proof.
  destruct s as [|c s]; [reflexivity|]. intros H. simpl.
  now rewrite (is_digit_not_space c H).
Qed.

Lemma strip_digits (s : bytes) :
  Forall (fun c => is_digit c = true) s -> strip s = s.
Proof.
  intros H. unfold strip. rewrite (lstrip_digit s).
  - rewrite (lstrip_digit (rev s)); [apply rev_involutive|].
    destruct (rev s) as [|c r] eqn:E; [exact I|].
    assert (Hin : In c (rev s)) by (rewrite E; now left).
    apply in_rev in Hin. rewrite Forall_forall in H. apply H.
    now apply list_elem_of_In.
  - destruct s; [exact I | now inversion H].
Qed.

(** [int(str(n)) == n]. *)
Lemma py_int_str_of_nat (n : nat) : py_int (str_of_nat n) = Some (Z.of_nat n).
Proof.
  unfold py_int, str_of_nat. rewrite strip_digits by apply bytes_of_uint_digits.
  pose proof (to_uint_not_Nil n) as Hnil.
  pose proof (bytes_of_uint_digits (Nat.to_uint n)) as Hd.
  pose proof (digits_go_uint (Nat.to_uint n) 0 false (or_intror Hnil)) as Hgo.
  change (Z.of_nat 0) with 0 in Hgo.
  fold (Nat.of_uint (Nat.to_uint n)) in Hgo. rewrite Unsigned.of_to in Hgo.
  destruct (bytes_of_uint (Nat.to_uint n)) as [|c r] eqn:E.
  - destruct (Nat.to_uint n); try contradiction; discriminate E.
  - inversion Hd as [|? ? Hc _]; subst.
    assert (Hm : Byte.eqb c "-"%byte = false).
    { apply byte_eqb_neq. intros ->. discriminate Hc. }
    assert (Hp : Byte.eqb c "+"%byte = false).
    { apply byte_eqb_neq. intros ->. discriminate Hc. }
    now rewrite Hm, Hp.
Qed.

(** ** UTF-8 *)

Lemma utf8_valid_app (x y : bytes) :
  utf8_valid x = true -> utf8_valid (x ++ y) = utf8_valid y.
Proof.
  remember (length x) as n eqn:Hn. revert x Hn.
  induction n as [n IH] using lt_wf_ind. intros x Hn Hx.
  destruct x as [|c0 r0]; [reflexivity|].
  cbn [app]. cbn [utf8_valid] in Hx |- *.
  destruct (in_range 0 127 c0).
  { apply (IH (length r0)); [simpl in Hn; lia | reflexivity | assumption]. }
  destruct r0 as [|c1 r1]; [discriminate|]. cbn [app].
  destruct (in_range 194 223 c0).
  { apply andb_true_iff in Hx as [-> Hx]. cbn [andb].
    apply (IH (length r1)); [simpl in Hn; lia | reflexivity | assumption]. }
  destruct r1 as [|c2 r2]; [discriminate|]. cbn [app].
  destruct (in_range 224 224 c0).
  { apply andb_true_iff in Hx as [Hc Hx]. rewrite Hc. cbn [andb].
    apply (IH (length r2)); [simpl in Hn; lia | reflexivity | assumption]. }
  destruct (in_range 225 236 c0 || in_range 238 239 c0).
  { apply andb_true_iff in Hx as [Hc Hx]. rewrite Hc. cbn [andb].
    apply (IH (length r2)); [simpl in Hn; lia | reflexivity | assumption]. }
  destruct (in_range 237 237 c0).
  { apply andb_true_iff in Hx as [Hc Hx]. rewrite Hc. cbn [andb].
    apply (IH (length r2)); [simpl in Hn; lia | reflexivity | assumption]. }
  destruct r2 as [|c3 r3]; [discriminate|]. cbn [app].
  destruct (in_range 240 240 c0).
  { apply andb_true_iff in Hx as [Hc Hx]. rewrite Hc. cbn [andb].
    apply (IH (length r3)); [simpl in Hn; lia | reflexivity | assumption]. }
  destruct (in_range 241 243 c0).
  { apply andb_true_iff in Hx as [Hc Hx]. rewrite Hc. cbn [andb].
    apply (IH (length r3)); [simpl in Hn; lia | reflexivity | assumption]. }
  destruct (in_range 244 244 c0); [|discriminate].
  apply andb_true_iff in Hx as [Hc Hx]. rewrite Hc. cbn [andb].
  apply (IH (length r3)); [simpl in Hn; lia | reflexivity | assumption].
Qed.

Lemma utf8_valid_digits (s : bytes) :
  Forall (fun c => is_digit c = true) s -> utf8_valid s = true.
Proof.
  induction 1 as [|c s Hc Hs IH]; [reflexivity|].
  cbn [utf8_valid].
  assert (H : in_range 0 127 c = true).
  { unfold is_digit, in_range in *. apply andb_true_iff in Hc as [H1 H2].
    apply N.leb_le in H1. apply N.leb_le in H2.
    apply andb_true_iff. split; apply N.leb_le; lia. }
  now rewrite H.
Qed.

(** ** The request frame of [send_request] *)

Section Request.
Context `{RT : Runtime}.

Lemma encode_request_wire method path params body :
  encode_request method path params body
  = request_head method path params body ++ CRLFCRLF ++ body_bytes body.
Proof.
  unfold encode_request, request_head, request_line.
  repeat rewrite <- app_assoc. reflexivity.
Qed.

Lemma content_length_header_digits (body : option bytes) :
  Forall (fun c => is_digit c = true) (content_length_header body).
Proof.
  unfold content_length_header. destruct (body_bytes body).
  - repeat constructor.
  - apply bytes_of_uint_digits.
Qed.

Lemma content_length_header_value (body : option bytes) :
  py_int (content_length_header body) = Some (Z.of_nat (length (body_bytes body))).
Proof.
  unfold content_length_header. destruct (body_bytes body) as [|c r] eqn:E.
  - reflexivity.
  - apply py_int_str_of_nat.
Qed.

Lemma find_after_cr (c : byte) (s : bytes) :
  c <> CR ->
  find CRLFCRLF (CR :: LF :: c :: s) = option_map S (find CRLFCRLF (LF :: c :: s)).
Proof.
  intros Hc.
  assert (H : starts_with CRLFCRLF (CR :: LF :: c :: s) = false).
  { unfold CRLFCRLF. cbn [starts_with].
    rewrite !byte_eqb_refl, (byte_eqb_neq CR c) by congruence. reflexivity. }
  change (find CRLFCRLF (CR :: LF :: c :: s))
    with (if starts_with CRLFCRLF (CR :: LF :: c :: s) then Some 0%nat
          else option_map S (find CRLFCRLF (LF :: c :: s))).
  now rewrite H.
Qed.

Lemma content_length_line_no_cr (body : option bytes) :
  no_cr (LF :: b "Content-Length: " ++ content_length_header body).
Proof.
  change (LF :: b "Content-Length: " ++ content_length_header body)
    with ((LF :: b "Content-Length: ") ++ content_length_header body).
  apply no_cr_app. split.
  - repeat constructor; discriminate.
  - eapply Forall_impl; [apply content_length_header_digits|].
    intros c. apply is_digit_not_cr.
Qed.

Lemma request_head_terminator method path params body :
  no_cr (request_line method path params) ->
  first_terminator (request_head method path params body).
Proof.
  intros Hline. unfold first_terminator, request_head.
  set (line := request_line method path params) in *.
  set (digits := content_length_header body).
  rewrite <- !app_assoc. rewrite find_skip by assumption.
  change (CRLF ++ b "Content-Length: " ++ digits ++ CRLFCRLF)
    with (CR :: LF :: "C"%byte :: (b "ontent-Length: " ++ digits) ++ CRLFCRLF).
  rewrite find_after_cr by discriminate.
  change (LF :: "C"%byte :: (b "ontent-Length: " ++ digits) ++ CRLFCRLF)
    with ((LF :: b "Content-Length: " ++ digits) ++ CRLFCRLF).
  rewrite find_skip by apply content_length_line_no_cr.
  change (find CRLFCRLF CRLFCRLF) with (Some 0%nat).
  cbn [option_map]. f_equal. rewrite !length_app. cbn [length]. rewrite !length_app.
  change (length CRLF) with 2%nat. change (length (b "Content-Length: ")) with 16%nat. lia.
Qed.

Lemma request_head_utf8 method path params body :
  utf8_valid (request_line method path params) = true ->
  utf8_valid (request_head method path params body) = true.
Proof.
  intros H. unfold request_head. rewrite utf8_valid_app by assumption.
  simpl. apply utf8_valid_digits, content_length_header_digits.
Qed.

Lemma request_head_lines method path params body :
  no_cr (request_line method path params) ->
  split CRLF (request_head method path params body)
  = [request_line method path params; b "Content-Length: " ++ content_length_header body].
Proof.
  intros H. unfold request_head. apply split_two_lines; [assumption|].
  apply no_cr_app. split.
  - repeat constructor; discriminate.
  - eapply Forall_impl; [apply content_length_header_digits|].
    intros c. apply is_digit_not_cr.
Qed.

Lemma request_content_length (body : option bytes) :
  content_length_of [(b "content-length", content_length_header body)]
  = Ok (Z.of_nat (length (body_bytes body))).
Proof.
  unfold content_length_of. cbn [dict_get].
  rewrite bytes_eqb_refl, content_length_header_value. reflexivity.
Qed.

End Request.

Lemma has_no_cr_spec (s : bytes) : has_no_cr s = true -> no_cr s.
Proof.
  unfold has_no_cr, no_cr. rewrite forallb_forall, Forall_forall.
  intros H c Hc. apply list_elem_of_In, H in Hc.
  intros ->. discriminate Hc.
Qed.

Lemma all_nonempty_spec (chunks : list bytes) :
  all_nonempty chunks = true -> nonempty_chunks chunks.
Proof.
  unfold all_nonempty, nonempty_chunks. rewrite forallb_forall, Forall_forall.
  intros H c Hc. apply list_elem_of_In, H in Hc.
  intros ->. discriminate Hc.
Qed.

(** C3.  A request written by [send_request] and read back by the frame
    decoder of the receive loop, however the stream is cut into reads:
    the decoder reaches line 108 exactly when the last chunk has been
    read, with the request line, the only header, and a body equal to the
    original bytes.  The body is any byte string (it may contain the
    header terminator); only the request line is constrained, to be text
    without a carriage return. *)
Theorem request_roundtrip `{RT : Runtime}
        (method path : bytes) (params : list (bytes * json)) (body : option bytes)
        (chunks : list bytes) :
  has_no_cr (request_line method path params) = true ->
  utf8_valid (request_line method path params) = true ->
  all_nonempty chunks = true ->
  concat chunks = encode_request method path params body ->
  decode_chunks (ReadHead []) chunks
  = (Frame (request_line method path params)
           [(b "content-length", content_length_header body)]
           (body_bytes body), []).
Proof.
  intros Hcr Hutf Hne Hcat. apply has_no_cr_spec in Hcr. apply all_nonempty_spec in Hne.
  rewrite encode_request_wire in Hcat.
  pose proof (decode_frame_exact chunks (request_head method path params body)
                (body_bytes body) [(b "content-length", content_length_header body)]
                (Z.of_nat (length (body_bytes body)))) as H.
  rewrite request_head_lines in H by assumption. apply H; clear H; auto.
  - now apply request_head_terminator.
  - now apply request_head_utf8.
  - apply request_content_length.
  - lia.
Qed.

Lemma request_roundtrip_witness :
  decode_chunks (ReadHead [])
    [b "POST /upload?filename=a.png&id=7 HT"; b "TP/1.1" ++ CRLF ++ b "Content-Length: 15" ++ [CR; LF; CR];
     [LF] ++ b "PNG" ++ [CR; LF]; [CR; LF] ++ b "IDAT" ++ CRLFCRLF]
  = (Frame (b "POST /upload?filename=a.png&id=7 HTTP/1.1")
           [(b "content-length", b "15")] upload_body, []).
Proof.
  apply (request_roundtrip (RT := py_runtime) (b "POST") (b "/upload")
           [(b "filename", JStr (b "a.png")); (b "id", JInt 7)] (Some upload_body));
    reflexivity.
Defined.

(** ** The receiving thread *)

Section Receiving.
Context `{RT : Runtime}.

Ltac push_cases c body :=
  unfold handle_incoming_message, push_try, push_show;
  destruct (json_loads body) as [message|]; [|reflexivity];
  destruct (py_get message (b "chat_id")) as [chat_id|]; [|reflexivity];
  destruct (truthy chat_id); [|reflexivity];
  cbn [files set_receiver];
  destruct (save_message chat_id message (files c)) as [fs|]; [|reflexivity];
  destruct (py_get message (b "sender")) as [sender|]; [|reflexivity];
  destruct (py_get message (b "content")) as [content|]; [|reflexivity];
  cbn [chat_frame print set_files set_receiver];
  destruct (chat_frame c) as [frame|]; [|reflexivity];
  destruct (py_eq (selected_chat_id frame) chat_id); [|reflexivity];
  destruct (display_message frame message); reflexivity.

(** The push handler neither reads nor writes the state of the thread,
    the response queue or the session. *)
Lemma handle_incoming_message_receiver (body : bytes) (r : loop_state) (c : client) :
  handle_incoming_message body (set_receiver r c)
  = set_receiver r (handle_incoming_message body c).
Proof. push_cases c body. Qed.

Lemma handle_incoming_message_queue (body : bytes) (c : client) :
  response_queue (handle_incoming_message body c) = response_queue c.
Proof. push_cases c body. Qed.

Lemma handle_incoming_message_session (body : bytes) (c : client) :
  session (handle_incoming_message body c) = session c.
Proof. push_cases c body. Qed.

Lemma route_receiver status_line headers_dict body (r : loop_state) (c : client) :
  route status_line headers_dict body (set_receiver r c)
  = route status_line headers_dict body c.
Proof.
  unfold route. destruct (parse_status status_line) as [status|e]; [|reflexivity].
  destruct ((status =? 200) || (status =? 201)); [|reflexivity].
  destruct (bytes_eqb _ _); [|reflexivity].
  rewrite handle_incoming_message_receiver. reflexivity.
Qed.

Lemma route_session status_line headers_dict body (c : client) :
  session (route status_line headers_dict body c) = session c.
Proof.
  unfold route. destruct (parse_status status_line) as [status|e]; [|reflexivity].
  destruct ((status =? 200) || (status =? 201)); [|reflexivity].
  destruct (bytes_eqb _ _); [|reflexivity].
  unfold next_frame. change (session (set_receiver ?r ?x)) with (session x).
  apply handle_incoming_message_session.
Qed.

Lemma on_recv_session (c : client) (chunk : bytes) : session (on_recv c chunk) = session c.
Proof.
  unfold on_recv. destruct (receiver c); [|reflexivity|reflexivity].
  destruct (decode r chunk); try reflexivity. apply route_session.
Qed.

Lemma receive_cons (c : client) (chunk : bytes) (chunks : list bytes) :
  receive c (chunk :: chunks) = receive (on_recv c chunk) chunks.
Proof. reflexivity. Qed.


Lemma receive_session (chunks : list bytes) (c : client) :
  session (receive c chunks) = session c.
Proof.
  revert c. induction chunks as [|chunk chunks IH]; intros c; [reflexivity|].
  rewrite receive_cons, IH. apply on_recv_session.
Qed.

(** A thread that has left the loop ignores whatever arrives. *)
Lemma receive_stopped (c : client) (chunks : list bytes) :
  match receiver c with Running _ => False | _ => True end ->
  receive c chunks = c.
Proof.
  intros H. induction chunks as [|chunk rest IH]; [reflexivity|].
  rewrite receive_cons. unfold on_recv.
  destruct (receiver c); [contradiction | exact IH | exact IH].
Qed.

(** The thread follows the decoder: it stays in [recv], routes the frame
    and goes on with the chunks left, returns, or crashes. *)
Lemma receive_decode (chunks : list bytes) :
  forall (r : reader) (c : client),
    receive (set_receiver (Running r) c) chunks = deliver (decode_chunks r chunks) c.
Proof.
  induction chunks as [|chunk chunks IH]; intros r c; [reflexivity|].
  rewrite receive_cons. unfold on_recv. cbn [receiver set_receiver].
  cbn [decode_chunks]. destruct (decode r chunk) as [r'| sl d body | | e].
  - change (set_receiver (Running r') (set_receiver (Running r) c)) with (set_receiver (Running r') c). apply IH.
  - cbn [deliver]. now rewrite route_receiver.
  - cbn [deliver]. now apply receive_stopped.
  - cbn [deliver]. now apply receive_stopped.
Qed.

End Receiving.

(** ** Frames as the server sends them *)

Lemma idle_eq (c : client) : idle c -> c = next_frame c.
Proof. unfold idle, next_frame. destruct c; simpl. now intros ->. Qed.

(** A frame sent whole, with a body of the declared length, is delivered
    as it is, however [recv] cuts it. *)
Lemma arrives_delivers chunks head body d cl :
  arrives chunks head body d cl ->
  delivers chunks (status_line_of head) d body.
Proof.
  intros (H1 & H2 & H3 & H4 & H5 & H6 & H7).
  apply (decode_frame_exact chunks head body d cl); auto.
  now apply all_nonempty_spec.
Qed.

Section Frames.
Context `{RT : Runtime}.

(** An idle thread that reads a frame routes it, and is idle again unless
    routing crashed. *)
Lemma receive_delivers (c : client) chunks status_line d body :
  idle c -> delivers chunks status_line d body ->
  receive c chunks = route status_line d body c.
Proof.
  intros Hidle Hdel. rewrite (idle_eq c Hidle) at 1. unfold next_frame.
  rewrite receive_decode, Hdel. reflexivity.
Qed.

Lemma route_push status_line d body status (c : client) :
  parse_status status_line = Ok status ->
  status = 200 \/ status = 201 ->
  dict_get (b "type") d = Some (b "message") ->
  route status_line d body c = next_frame (handle_incoming_message body c).
Proof.
  intros Hs Hok Ht. unfold route, type_header_of. rewrite Hs, Ht.
  destruct Hok as [-> | ->]; reflexivity.
Qed.

Lemma route_response status_line d body status (c : client) :
  parse_status status_line = Ok status ->
  status = 200 \/ status = 201 ->
  bytes_eqb (type_header_of d) (b "message") = false ->
  route status_line d body c = next_frame (queue_put (status, body) c).
Proof.
  intros Hs Hok Ht. unfold route. rewrite Hs, Ht.
  destruct Hok as [-> | ->]; reflexivity.
Qed.

(** The defect behind C1, C2 and C7: a frame whose status is neither 200
    nor 201 is decoded and then left out, whatever its headers and body. *)
Lemma route_other_status status_line d body status (c : client) :
  parse_status status_line = Ok status ->
  status <> 200 -> status <> 201 ->
  route status_line d body c = next_frame c.
Proof.
  intros Hs H1 H2. unfold route. rewrite Hs.
  apply Z.eqb_neq in H1. apply Z.eqb_neq in H2. now rewrite H1, H2.
Qed.

(** C4 (as amended).  A push frame, that is a frame with status 200 or
    201 whose [Type] header, looked up without regard to the case of its
    name, is ["message"], which the thread, idle at the top of its loop,
    decodes from reads of its own: the reads carry that frame from its
    first byte, and the last of them ends with the frame ([delivers]).
    When it arrives while a request is pending (the caller is blocked on
    an empty queue), the thread hands its body to the push handler, the
    queue stays empty so the caller keeps waiting, and the next response
    frame with status 200 or 201 that is delivered in the same way is what
    the caller's [get] returns. *)
Theorem push_not_consumed_by_pending_request
        (c : client) chunks status_line d body status
        chunks2 status_line2 d2 body2 status2 :
  idle c -> response_queue c = [] ->
  delivers chunks status_line d body ->
  dict_get (b "type") d = Some (b "message") ->
  parse_status status_line = Ok status ->
  status = 200 \/ status = 201 ->
  delivers chunks2 status_line2 d2 body2 ->
  bytes_eqb (type_header_of d2) (b "message") = false ->
  parse_status status_line2 = Ok status2 ->
  status2 = 200 \/ status2 = 201 ->
  let c1 := receive c chunks in
  c1 = next_frame (handle_incoming_message body c)
  /\ queue_get c1 = Wait c1
  /\ exists c2, queue_get (receive c1 chunks2) = Return (status2, body2) c2
                /\ response_queue c2 = [].
Proof.
  intros Hidle Hq Hdel Htype Hs Hok Hdel2 Htype2 Hs2 Hok2 c1.
  assert (Hc1 : c1 = next_frame (handle_incoming_message body c)).
  { unfold c1. rewrite (receive_delivers c _ _ _ _ Hidle Hdel).
    now apply (route_push _ _ _ status). }
  assert (Hq1 : response_queue c1 = []).
  { rewrite Hc1. unfold next_frame. cbn [response_queue set_receiver].
    now rewrite handle_incoming_message_queue. }
  split; [exact Hc1|]. split.
  - unfold queue_get. now rewrite Hq1.
  - assert (Hidle1 : idle c1) by (rewrite Hc1; reflexivity).
    rewrite (receive_delivers c1 _ _ _ _ Hidle1 Hdel2).
    rewrite (route_response _ _ _ status2) by assumption.
    unfold queue_get, next_frame, queue_put. cbn [response_queue set_receiver set_queue].
    rewrite Hq1. cbn [app]. eexists. split; reflexivity.
Qed.

End Frames.

Lemma push_not_consumed_by_pending_request_witness :
  let c1 := receive fresh_client
              [chat_push_head ++ CRLFCRLF ++ firstn 10 chat_push_body; skipn 10 chat_push_body] in
  c1 = next_frame (handle_incoming_message chat_push_body fresh_client)
  /\ queue_get c1 = Wait c1
  /\ exists c2, queue_get (receive c1 [ok_reply]) = Return (200, b "{}") c2
                /\ response_queue c2 = [].
Proof.
  apply (push_not_consumed_by_pending_request (RT := py_runtime)
           fresh_client _ (b "HTTP/1.1 200 OK")
           [(b "type", b "message"); (b "content-length", b "91")] chat_push_body 200
           _ (b "HTTP/1.1 200 OK") [(b "content-length", b "2")] (b "{}") 200);
    try reflexivity; now left.
Defined.

(** What [decode_chunks] answers once the header block is complete. *)
Lemma decode_chunks_frame chunks head tail d cl :
  first_terminator head ->
  nonempty_chunks chunks ->
  concat chunks = head ++ CRLFCRLF ++ tail ->
  utf8_valid head = true ->
  parse_headers (tl (split CRLF head)) [] = Ok d ->
  content_length_of d = Ok cl ->
  cl <= Z.of_nat (length tail) ->
  exists used rest body,
    chunks = used ++ rest
    /\ concat used = head ++ CRLFCRLF ++ body
    /\ cl <= Z.of_nat (length body)
    /\ decode_chunks (ReadHead []) chunks = (Frame (status_line_of head) d body, rest).
Proof.
  intros Hfirst Hne Hcat Hutf Hparse Hcl Hlen.
  destruct (decode_chunks_head chunks head tail [] Hfirst Hne Hcat eq_refl)
    as (body0 & used & rest & H1 & H2 & H3 & H4).
  rewrite H4. unfold parse_head. rewrite Hutf, Hparse, Hcl. unfold body_step.
  destruct (Z.of_nat (length body0) <? cl) eqn:E.
  - apply Z.ltb_lt in E. cbn [resume].
    destruct (decode_chunks_body rest (hd [] (split CRLF head)) d cl body0)
      as (used' & rest' & H5 & H6 & H7).
    { rewrite H3. lia. }
    exists (used ++ used'), rest', (body0 ++ concat used').
    split; [now rewrite H1, H5, app_assoc|].
    split; [rewrite concat_app; cbn [app] in H2; rewrite H2; now rewrite <- !app_assoc|].
    split; [assumption|]. exact H7.
  - apply Z.ltb_ge in E. cbn [resume]. exists used, rest, body0.
    repeat split; assumption.
Qed.


(** C5.  The decoder does not cut the body at [Content-Length]: when it
    delivers a frame, the body is every byte that the reads consumed so
    far hold after the first header terminator, which is at least the
    declared length and may be more; the reads left over are decoded from
    an empty buffer.  So when a following frame arrives in the same read
    as the end of a body, its bytes end up in that body and it is never
    decoded: in the example two replies come in one read, and the queue
    receives a single item whose body is the first body followed by the
    whole second frame. *)
Theorem body_not_cut_at_content_length :
  (forall chunks head tail d cl,
      first_terminator head ->
      all_nonempty chunks = true ->
      concat chunks = head ++ CRLFCRLF ++ tail ->
      utf8_valid head = true ->
      parse_headers (tl (split CRLF head)) [] = Ok d ->
      content_length_of d = Ok cl ->
      cl <= Z.of_nat (length tail) ->
      exists used rest body,
        chunks = used ++ rest
        /\ concat used = head ++ CRLFCRLF ++ body
        /\ cl <= Z.of_nat (length body)
        /\ decode_chunks (ReadHead []) chunks = (Frame (status_line_of head) d body, rest))
  /\ (let first := b "HTTP/1.1 200 OK" ++ CRLF ++ b "Content-Length: 2" ++ CRLFCRLF ++ b "{}" in
      let second := b "HTTP/1.1 201 Created" ++ CRLF ++ b "Content-Length: 2" ++ CRLFCRLF ++ b "[]" in
      let c := new_client (∅ : gmap string bytes) in
      response_queue (receive (RT := py_runtime) c [first ++ second]) = [(200, b "{}" ++ second)]
      /\ response_queue (receive (RT := py_runtime) c [first; second]) = [(200, b "{}"); (201, b "[]")]).
Proof.
  split.
  - intros chunks head tail d cl Hfirst Hne. apply all_nonempty_spec in Hne.
    now apply decode_chunks_frame.
  - split; reflexivity.
Qed.

Lemma body_not_cut_at_content_length_witness :
  exists used rest body,
    [b "HTTP/1.1 200 OK" ++ CRLF ++ b "Content-Length: 2" ++ CRLFCRLF ++ b "{"; b "}HTTP/1.1 201"; b " Created"]
    = used ++ rest
    /\ concat used = (b "HTTP/1.1 200 OK" ++ CRLF ++ b "Content-Length: 2") ++ CRLFCRLF ++ body
    /\ 2 <= Z.of_nat (length body)
    /\ decode_chunks (ReadHead [])
         [b "HTTP/1.1 200 OK" ++ CRLF ++ b "Content-Length: 2" ++ CRLFCRLF ++ b "{"; b "}HTTP/1.1 201"; b " Created"]
       = (Frame (status_line_of (b "HTTP/1.1 200 OK" ++ CRLF ++ b "Content-Length: 2"))
                [(b "content-length", b "2")] body, rest).
Proof.
  apply (proj1 body_not_cut_at_content_length _ _ (b "{}HTTP/1.1 201 Created")); try reflexivity.
  vm_compute. discriminate.
Defined.

Section Stopping.
Context `{RT : Runtime}.


End Stopping.



Section Pushes.
Context `{RT : Runtime}.


End Pushes.



(** ** The history store *)

Section History.
Context `{RT : Runtime}.

(** One append: the file is replaced by the previous log followed by the
    message. *)
Lemma save_message_appends (fs : gmap string bytes) (chat_id m : json) (prev : list json) :
  stored fs chat_id prev ->
  save_message chat_id m fs
  = Ok (<[chat_file chat_id := json_dumps (Some 2%nat) (JArr (prev ++ [m]))]> fs).
Proof.
  unfold save_message, stored. intros Hstored.
  destruct (fs !! chat_file chat_id) as [text|].
  - rewrite Hstored. reflexivity.
  - subst prev. reflexivity.
Qed.

Lemma stored_after_save (fs : gmap string bytes) (chat_id : json) (log : list json) :
  json_loads (json_dumps (Some 2%nat) (JArr log)) = Some (JArr log) ->
  stored (<[chat_file chat_id := json_dumps (Some 2%nat) (JArr log)]> fs) chat_id log.
Proof. intros H. unfold stored. now rewrite lookup_insert_eq. Qed.

(** C6.  Saving [m] to the log of a chat and loading that log gives the
    previous messages, in order, followed by [m]; a chat without a file
    loads as the empty list.  The files of other chats are not touched.
    The JSON library is used as it is: what [json.dump] writes for the new
    log is assumed to be read back by [json.load] as that log. *)
Theorem save_then_load
        (fs : gmap string bytes) (chat_id m : json) (prev : list json) :
  stored fs chat_id prev ->
  json_loads (json_dumps (Some 2%nat) (JArr (prev ++ [m]))) = Some (JArr (prev ++ [m])) ->
  (exists fs',
      save_message chat_id m fs = Ok fs'
      /\ load_chat_history chat_id fs' = Ok (JArr (prev ++ [m]))
      /\ stored fs' chat_id (prev ++ [m])
      /\ forall path, path <> chat_file chat_id -> fs' !! path = fs !! path)
  /\ (fs !! chat_file chat_id = None -> load_chat_history chat_id fs = Ok (JArr [])).
Proof.
  intros Hstored Hround. split.
  - exists (<[chat_file chat_id := json_dumps (Some 2%nat) (JArr (prev ++ [m]))]> fs).
    split; [now apply save_message_appends|]. split; [|split].
    + unfold load_chat_history. rewrite lookup_insert_eq, Hround. reflexivity.
    + now apply stored_after_save.
    + intros path Hpath. now rewrite lookup_insert_ne.
  - intros Hnone. unfold load_chat_history. now rewrite Hnone.
Qed.

(** Appends accumulate: after saving [messages] one after the other the
    log is the previous one followed by them, in the order of the calls. *)
Lemma save_all_stored (chat_id : json) (messages : list json) :
  (forall log, json_loads (json_dumps (Some 2%nat) (JArr log)) = Some (JArr log)) ->
  forall (fs : gmap string bytes) (prev : list json),
    stored fs chat_id prev ->
    exists fs', save_all chat_id messages fs = Ok fs' /\ stored fs' chat_id (prev ++ messages).
Proof.
  intros Hround. induction messages as [|m rest IH]; intros fs prev Hstored.
  - exists fs. rewrite app_nil_r. now split.
  - pose proof (save_message_appends fs chat_id m prev Hstored) as Hsave.
    destruct (IH _ (prev ++ [m]) (stored_after_save fs chat_id _ (Hround _)))
      as (fs' & Hall & Hstored').
    exists fs'. cbn [save_all]. rewrite Hsave. cbn [bind].
    split; [exact Hall|]. now rewrite <- app_assoc in Hstored'.
Qed.

End History.

Lemma save_then_load_witness :
  (exists fs',
      save_message (JInt 3) bob_message ann_log = Ok fs'
      /\ load_chat_history (JInt 3) fs' = Ok (JArr ([ann_message] ++ [bob_message]))
      /\ stored fs' (JInt 3) ([ann_message] ++ [bob_message])
      /\ forall path, path <> chat_file (JInt 3) -> fs' !! path = ann_log !! path)
  /\ (ann_log !! chat_file (JInt 3) = None -> load_chat_history (JInt 3) ann_log = Ok (JArr [])).
Proof.
  apply (save_then_load (RT := py_runtime) ann_log (JInt 3) bob_message [ann_message]);
    reflexivity.
Defined.

(** ** The facade *)

Section FacadeFacts.
Context `{RT : Runtime}.

Lemma send_request_session method path params body incoming (c : client) :
  session (client_of (send_request method path params body incoming c)) = session c.
Proof.
  unfold send_request, queue_get.
  destruct (response_queue _) eqn:E; cbn [client_of];
    [|change (session (set_queue ?q ?x)) with (session x)];
    now rewrite receive_session.
Qed.

(** Whatever a call does after [send_request] keeps the session when its
    continuation does. *)
Lemma and_then_session {A B} (o : outcome A) (k : A -> client -> outcome B) (s : json * json * json) :
  session (client_of o) = s ->
  (forall a c, session c = s -> session (client_of (k a c)) = s) ->
  session (client_of (and_then o k)) = s.
Proof. intros Ho Hk. destruct o; cbn in *; auto. Qed.

Lemma create_new_chat_session chat_name members incoming heap (c : client) :
  session (client_of (fst (create_new_chat chat_name members incoming heap c))) = session c.
Proof.
  unfold create_new_chat. destruct (members_prepare _ _ _) as [loc heap']. cbn [fst].
  apply and_then_session; [apply send_request_session|].
  intros [status response] c1 Hc1. unfold loads_or_raise, get_or_raise.
  destruct (json_loads response) as [data|]; [|exact Hc1].
  destruct (status =? 201).
  - destruct (py_get data (b "message")); [|exact Hc1].
    destruct (py_get data (b "chat_id")); exact Hc1.
  - destruct (py_get data (b "message")); exact Hc1.
Qed.

Lemma create_new_chat_heap chat_name members incoming heap (c : client) :
  snd (create_new_chat chat_name members incoming heap c)
  = snd (members_prepare (user_id c) members heap).
Proof. unfold create_new_chat. now destruct (members_prepare _ _ _). Qed.

Lemma members_prepare_given (uid : json) (loc : nat) (heap : list (list json)) items :
  heap !! loc = Some items ->
  members_prepare uid (Some loc) heap
  = (loc, if py_in uid items then heap else <[loc := items ++ [uid]]> heap).
Proof.
  intros H. unfold members_prepare. rewrite H.
  change (default [] (Some items)) with items.
  now destruct (py_in uid items).
Qed.

Lemma members_prepare_omitted (uid : json) (heap : list (list json)) :
  members_prepare uid None heap = (length heap, heap ++ [[uid]]).
Proof.
  unfold members_prepare.
  rewrite lookup_app_r, Nat.sub_diag by lia.
  change (default [] ([[]] !! 0%nat)) with (@nil json). cbn [py_in existsb app].
  rewrite insert_app_r_alt, Nat.sub_diag by lia. reflexivity.
Qed.

(** C10.  [create_new_chat] works on the caller's own list: when the
    current user's id is not in [members], the list at that very place of
    the heap has the id appended after the call, and no other list is
    touched; when the id is already there, nothing changes.  When
    [members] is omitted, a new list is created, holding only the current
    user's id.  This happens before the request is sent, whatever the
    call's outcome; and the session fields are the same after the call. *)
Theorem create_new_chat_mutates_members
        (chat_name : json) (incoming : list bytes) (heap : list (list json))
        (c : client) (loc : nat) (items : list json) :
  heap !! loc = Some items ->
  let heap' := snd (create_new_chat chat_name (Some loc) incoming heap c) in
  let fresh := snd (create_new_chat chat_name None incoming heap c) in
  heap' !! loc = Some (if py_in (user_id c) items then items else items ++ [user_id c])
  /\ (forall other, other <> loc -> heap' !! other = heap !! other)
  /\ length heap' = length heap
  /\ fresh = heap ++ [[user_id c]]
  /\ session (client_of (fst (create_new_chat chat_name (Some loc) incoming heap c))) = session c
  /\ session (client_of (fst (create_new_chat chat_name None incoming heap c))) = session c.
Proof.
  intros Hloc heap' fresh.
  assert (Hheap' : heap' = if py_in (user_id c) items then heap
                           else <[loc := items ++ [user_id c]]> heap).
  { unfold heap'. rewrite create_new_chat_heap, (members_prepare_given _ _ _ items Hloc).
    reflexivity. }
  assert (Hfresh : fresh = heap ++ [[user_id c]]).
  { unfold fresh. now rewrite create_new_chat_heap, members_prepare_omitted. }
  assert (Hlt : (loc < length heap)%nat) by (eapply lookup_lt_Some; eauto).
  split; [|split; [|split; [|split; [|split]]]].
  - rewrite Hheap'. destruct (py_in (user_id c) items); [assumption|].
    now apply list_lookup_insert_eq.
  - intros other Hother. rewrite Hheap'. destruct (py_in (user_id c) items); [reflexivity|].
    now apply list_lookup_insert_ne.
  - rewrite Hheap'. destruct (py_in (user_id c) items); [reflexivity|]. apply length_insert.
  - exact Hfresh.
  - apply create_new_chat_session.
  - apply create_new_chat_session.
Qed.

End FacadeFacts.

Lemma create_new_chat_mutates_members_witness :
  let heap := [[JInt 1]; [JInt 2; JInt 3]] in
  let heap' := snd (create_new_chat (JStr (b "team")) (Some 1%nat) [] heap logged_in_as_7) in
  let fresh := snd (create_new_chat (JStr (b "team")) None [] heap logged_in_as_7) in
  heap' !! 1%nat = Some (if py_in (JInt 7) [JInt 2; JInt 3] then [JInt 2; JInt 3]
                         else [JInt 2; JInt 3] ++ [JInt 7])
  /\ (forall other, other <> 1%nat -> heap' !! other = heap !! other)
  /\ length heap' = length heap
  /\ fresh = heap ++ [[JInt 7]]
  /\ session (client_of (fst (create_new_chat (JStr (b "team")) (Some 1%nat) [] heap logged_in_as_7)))
     = session logged_in_as_7
  /\ session (client_of (fst (create_new_chat (JStr (b "team")) None [] heap logged_in_as_7)))
     = session logged_in_as_7.
Proof.
  apply (create_new_chat_mutates_members (RT := py_runtime) (JStr (b "team")) []
           [[JInt 1]; [JInt 2; JInt 3]] logged_in_as_7 1%nat [JInt 2; JInt 3]).
  reflexivity.
Defined.

(** ** Replies with a status other than 200 and 201 *)

Section Replies.
Context `{RT : Runtime}.

(** An idle thread with an empty queue that reads a complete reply whose
    status is neither 200 nor 201 is exactly where it was: the reply has
    left no trace, and a caller waiting on the queue stays blocked. *)
Lemma reply_with_other_status_is_lost (c : client) chunks status_line d body status :
  idle c -> response_queue c = [] ->
  delivers chunks status_line d body ->
  parse_status status_line = Ok status ->
  status <> 200 -> status <> 201 ->
  receive c chunks = c /\ queue_get (receive c chunks) = Wait c.
Proof.
  intros Hidle Hq Hdel Hs H1 H2.
  rewrite (receive_delivers c _ _ _ _ Hidle Hdel).
  rewrite (route_other_status _ _ _ status) by assumption.
  rewrite <- (idle_eq c Hidle). split; [reflexivity|].
  unfold queue_get. now rewrite Hq.
Qed.

(** So every call of [send_request] answered that way stays blocked. *)
Lemma send_request_reply_lost method path params rbody (c : client)
      chunks status_line d body status :
  idle c -> response_queue c = [] ->
  delivers chunks status_line d body ->
  parse_status status_line = Ok status ->
  status <> 200 -> status <> 201 ->
  send_request method path params rbody chunks c
  = Wait (set_sent (sent c ++ [encode_request method path params rbody]) c).
Proof.
  intros Hidle Hq Hdel Hs H1 H2. unfold send_request.
  set (c0 := set_sent _ c).
  destruct (reply_with_other_status_is_lost c0 chunks status_line d body status) as [_ H]; auto.
Qed.

(** What [download] does with a failure reply that is on the queue: the
    branch of lines 362-365. *)
Lemma download_failure_branch (file_path : json) (c : client) status body data message rest :
  response_queue c = (status, body) :: rest ->
  status <> 200 ->
  json_loads body = Some data ->
  py_get data (b "message") = Ok message ->
  download file_path [] c
  = Return None (print (OutLabelled "File download failed: " message)
                       (set_queue rest (set_sent (sent c ++ [encode_request (b "GET") (b "/download")
                                                              [(b "file", file_path)] None]) c))).
Proof.
  intros Hq Hs Hj Hm. unfold download, send_request, queue_get. cbn [receive fold_left].
  cbn [response_queue set_sent]. rewrite Hq. cbn [and_then].
  apply Z.eqb_neq in Hs. rewrite Hs. unfold loads_or_raise, get_or_raise.
  now rewrite Hj, Hm.
Qed.

(** What [login] does with a reply that is on the queue (lines 185-194):
    status 200 sets the session from the reply and returns the user name;
    any other status prints the message and returns [None] with the
    session as it was. *)
Lemma login_success_branch (user password : json) (c : client) body data id name message rest :
  response_queue c = (200, body) :: rest ->
  json_loads body = Some data ->
  py_get data (b "id") = Ok id ->
  py_get data (b "username") = Ok name ->
  py_get data (b "message") = Ok message ->
  exists c', login user password [] c = Return name c'
             /\ session c' = (id, user, name).
Proof.
  intros Hq Hj Hid Hname Hm. unfold login, send_request, queue_get. cbn [receive fold_left].
  cbn [response_queue set_sent]. rewrite Hq. cbn [and_then].
  unfold loads_or_raise, get_or_raise. rewrite Hj. cbn [Z.eqb Pos.eqb].
  rewrite Hid, Hname, Hm. eexists. split; reflexivity.
Qed.

Lemma login_failure_branch (user password : json) (c : client) status body data message rest :
  response_queue c = (status, body) :: rest ->
  status <> 200 ->
  json_loads body = Some data ->
  py_get data (b "message") = Ok message ->
  exists c', login user password [] c = Return JNull c'
             /\ session c' = session c.
Proof.
  intros Hq Hs Hj Hm. unfold login, send_request, queue_get. cbn [receive fold_left].
  cbn [response_queue set_sent]. rewrite Hq. cbn [and_then].
  apply Z.eqb_neq in Hs. unfold loads_or_raise, get_or_raise. rewrite Hj, Hs, Hm.
  eexists. split; reflexivity.
Qed.

(** Requests one at a time, each answered by one response frame with
    status 200 or 201: every call returns the status and body of the
    frame sent in reply to it, in order. *)
Lemma replies_in_order rounds replies :
  answered rounds replies ->
  forall c, idle c -> response_queue c = [] ->
  exists c', send_requests rounds c = Return replies c'
             /\ idle c' /\ response_queue c' = [].
Proof.
  induction 1 as [|rq chunks status_line body d status rounds replies Hdel Htype Hs Hok _ IH];
    intros c Hidle Hq.
  - exists c. repeat split; assumption.
  - cbn [send_requests]. unfold send_request.
    set (c0 := set_sent _ c).
    assert (Hidle0 : idle c0) by exact Hidle.
    rewrite (receive_delivers c0 _ _ _ _ Hidle0 Hdel).
    rewrite (route_response _ _ _ status) by assumption.
    unfold queue_get, next_frame, queue_put.
    cbn [response_queue set_receiver set_queue set_sent c0]. rewrite Hq. cbn [app and_then].
    match goal with |- context [send_requests rounds ?c1] =>
      destruct (IH c1) as (c' & Hc' & Hidle' & Hq'); [reflexivity | reflexivity |]
    end.
    rewrite Hc'. cbn [and_then]. exists c'. repeat split; assumption.
Qed.

End Replies.

(** C1.  [download("uploads/7/a.png")] answered with status 404 and the
    body [{"message":"not found"}]: the receiving thread decodes the reply
    and drops it, so [download] (and [download_and_cache] around it) never
    returns: the caller gets neither [None] nor the server's message.  No
    cache file is created and the thread is still in its loop.  Had the
    reply reached the queue, [download] would have returned [None] and
    printed the message (second part). *)
Theorem download_not_found_never_returns :
  let file := JStr (b "uploads/7/a.png") in
  let waiting := set_sent [encode_request (RT := py_runtime) (b "GET") (b "/download")
                                          [(b "file", file)] None] fresh_client in
  download (RT := py_runtime) file [not_found_reply] fresh_client = Wait waiting
  /\ download_and_cache (RT := py_runtime) file (b "a.png") [not_found_reply] fresh_client
     = Wait waiting
  /\ files waiting = ∅ /\ stdout waiting = [] /\ idle waiting
  /\ download (RT := py_runtime) file [] (queue_put (404, not_found_body) fresh_client)
     = Return None (print (OutLabelled "File download failed: " (JStr (b "not found"))) waiting).
Proof. repeat split; vm_compute; reflexivity. Qed.

(** C2.  Requests one at a time: replies with status 200 or 201 come back
    in order, but a 404 reply never comes back; the call that waits for it
    stays blocked and the requests after it are never sent. *)
Theorem reply_404_never_returned :
  let get path := mkRequest (b "GET") path [(b "id", JInt 7)] None in
  let ok := b "HTTP/1.1 200 OK" ++ CRLF ++ b "Content-Length: 2" ++ CRLFCRLF ++ b "{}" in
  (exists c, send_requests (RT := py_runtime) [(get (b "/gallery"), [not_found_reply])] fresh_client
             = Wait c /\ response_queue c = [] /\ idle c)
  /\ (exists c, send_requests (RT := py_runtime)
                  [(get (b "/chats"), [ok]); (get (b "/gallery"), [not_found_reply]);
                   (get (b "/friends"), [ok])] fresh_client
                = Wait c /\ length (sent c) = 2%nat)
  /\ (exists c, send_requests (RT := py_runtime)
                  [(get (b "/chats"), [ok]); (get (b "/friends"), [ok])] fresh_client
                = Return [(200, b "{}"); (200, b "{}")] c).
Proof.
  repeat split; eexists; repeat split; vm_compute; reflexivity.
Qed.

(** C7.  [login("bob", "x")] answered with status 200 and the body
    [{"id":7,"username":"Bob"}] sets the user id to 7 and the user name to
    ["Bob"], and returns ["Bob"]; answered with status 401 it never
    returns, the reply having been dropped by the receiving thread (the
    session is untouched).  Had the 401 reply reached the queue, [login]
    would have returned [None]. *)
Theorem login_non_200_reply_never_returns :
  let user := JStr (b "bob") in
  let password := JStr (b "x") in
  (exists c, login (RT := py_runtime) user password [bob_reply] fresh_client
             = Return (JStr (b "Bob")) c
             /\ user_id c = JInt 7 /\ username c = JStr (b "Bob") /\ user_login c = user)
  /\ (exists c, login (RT := py_runtime) user password [bad_login_reply] fresh_client = Wait c
                /\ session c = session fresh_client /\ response_queue c = [] /\ idle c)
  /\ (exists c, login (RT := py_runtime) user password []
                  (queue_put (401, bad_login_body) fresh_client)
                = Return JNull c /\ session c = session fresh_client).
Proof.
  repeat split; eexists; repeat split; vm_compute; reflexivity.
Qed.

(** C4, as the specification states it, fails in two ways.  A push frame
    whose status is not 200 or 201 is dropped at line 111, not handed to
    the push handler (which would have written the history file of chat
    3).  And a push frame with status 200 that comes in the same read
    behind the reply to the pending request is taken into the body of
    that reply (lines 96 and 106-107 keep everything behind the
    terminator): the pending call returns it inside the reply body, and
    the push handler never sees it, although the same frame in a read of
    its own is handled. *)
Lemma push_dropped_or_returned_in_reply :
  let dropped := b "HTTP/1.1 500 Oops" ++ CRLF ++ b "Type: message" ++ CRLF
                   ++ b "Content-Length: 91" ++ CRLFCRLF ++ chat_push_body in
  let push := chat_push_head ++ CRLFCRLF ++ chat_push_body in
  let history (c : client) := files c !! "chat_history/chat_3.json"%string in
  (receive (RT := py_runtime) fresh_client [dropped] = fresh_client
   /\ receive (RT := py_runtime) fresh_client [dropped]
      <> next_frame (handle_incoming_message (RT := py_runtime) chat_push_body fresh_client)
   /\ history (handle_incoming_message (RT := py_runtime) chat_push_body fresh_client) <> None)
  /\ (history (receive (RT := py_runtime) fresh_client [push]) <> None
      /\ exists c,
           send_request (RT := py_runtime) (b "GET") (b "/chats") [(b "id", JInt 7)] None
                        [ok_reply ++ push] fresh_client
           = Return (200, b "{}" ++ push) c
           /\ history c = None /\ stdout c = [] /\ response_queue c = []).
Proof.
  split; [split; [vm_compute; reflexivity|]; split|split].
  - intros H. apply (f_equal stdout) in H. vm_compute in H. discriminate H.
  - vm_compute. discriminate.
  - vm_compute. discriminate.
  - eexists. repeat split; vm_compute; reflexivity.
Qed.

(** ** The executable runtime reads back what it writes *)

Module PyJsonFacts.
Import PyJson.

Lemma skip_ws_blank (pre s : bytes) : blank pre = true -> skip_ws (pre ++ s) = skip_ws s.
Proof.
  induction pre as [|c pre IH]; [reflexivity|]. cbn [blank forallb app skip_ws].
  intros H. apply andb_true_iff in H as [-> H]. now apply IH.
Qed.

Lemma skip_ws_value (s : bytes) : starts_value s = true -> skip_ws s = s.
Proof.
  destruct s as [|c s]; [discriminate|]. cbn [starts_value skip_ws]. intros H.
  apply andb_true_iff in H as [H _]. apply andb_true_iff in H as [H _].
  apply negb_true_iff in H. now rewrite H.
Qed.

Lemma blank_newline (indent : option nat) (depth : nat) : blank (newline indent depth) = true.
Proof.
  destruct indent as [n|]; [|reflexivity]. cbn [newline blank forallb].
  change (is_ws LF) with true. cbn [andb].
  induction (n * depth)%nat as [|k IH]; [reflexivity|]. cbn [repeat forallb]. exact IH.
Qed.

Lemma read_value_blank (f : nat) (pre s : bytes) :
  blank pre = true -> read_value f (pre ++ s) = read_value f s.
Proof. intros H. destruct f; [reflexivity|]. cbn [read_value]. now rewrite skip_ws_blank. Qed.

Lemma read_items_blank (f : nat) (pre s : bytes) acc :
  blank pre = true -> read_items f (pre ++ s) acc = read_items f s acc.
Proof. intros H. destruct f; [reflexivity|]. cbn [read_items]. now rewrite read_value_blank. Qed.

Lemma read_fields_blank (f : nat) (pre s : bytes) acc :
  blank pre = true -> read_fields f (pre ++ s) acc = read_fields f s acc.
Proof. intros H. destruct f; [reflexivity|]. cbn [read_fields]. now rewrite skip_ws_blank. Qed.

(** *** Strings *)

Lemma read_string_byte (c : byte) (tail acc : bytes) :
  in_range 0 127 c = true ->
  read_string (escape_byte c ++ tail) acc = read_string tail (c :: acc).
Proof. destruct c; intros H; try (vm_compute in H; discriminate H); reflexivity. Qed.

Lemma read_string_text (s : bytes) :
  ascii_only s = true ->
  forall tail acc,
    read_string (concat (map escape_byte s) ++ QUOTE :: tail) acc = Some (rev acc ++ s, tail).
Proof.
  induction s as [|c s IH]; intros H tail acc.
  - cbn [map concat app read_string]. rewrite byte_eqb_refl. now rewrite app_nil_r.
  - cbn [ascii_only forallb] in H. apply andb_true_iff in H as [Hc Hs].
    cbn [map concat]. rewrite <- app_assoc, read_string_byte by assumption.
    rewrite (IH Hs). cbn [rev]. now rewrite <- app_assoc.
Qed.

Lemma render_string_read (s tail : bytes) :
  ascii_only s = true ->
  exists t, render_string s ++ tail = QUOTE :: t /\ read_string t [] = Some (s, tail).
Proof.
  intros H. exists (concat (map escape_byte s) ++ QUOTE :: tail). split.
  - unfold render_string. cbn [app]. now rewrite <- app_assoc.
  - now rewrite read_string_text.
Qed.

(** *** Integers *)

Lemma int_end_not_digit (c : byte) (rest : bytes) :
  int_end (c :: rest) = true -> is_digit c = false.
Proof.
  cbn [int_end]. intros H. apply negb_true_iff in H.
  apply orb_false_iff in H as [H _]. apply orb_false_iff in H as [H _].
  now apply orb_false_iff in H as [H _].
Qed.

Lemma read_digits_uint (d : Decimal.uint) :
  forall (a : nat) (rest : bytes),
    int_end rest = true ->
    read_digits (bytes_of_uint d ++ rest) (Z.of_nat a) = (Z.of_nat (Nat.of_uint_acc d a), rest).
Proof.
  induction d; intros a rest Hrest; cbn [bytes_of_uint Nat.of_uint_acc app];
    [destruct rest as [|c r]; [reflexivity|];
     cbn [read_digits]; now rewrite (int_end_not_digit c r Hrest) | ..];
    cbn [read_digits];
    match goal with
    | |- context [is_digit ?c] => change (is_digit c) with true; cbv iota
    end;
    match goal with
    | |- read_digits _ ?z = (Z.of_nat (Nat.of_uint_acc _ ?m), _) =>
        replace z with (Z.of_nat m)
          by (rewrite Nat.tail_mul_spec; unfold digit_val; simpl Byte.to_N; lia)
    end;
    now apply IHd.
Qed.

(** A numeral written by [str] has no leading zero. *)
Lemma to_uint_leading_zero (n : nat) (d : Decimal.uint) : Nat.to_uint n = D0 d -> d = Nil.
Proof.
  intros H. pose proof (Unsigned.to_of (Nat.to_uint n)) as Hn.
  rewrite Unsigned.of_to, H, unorm_D0 in Hn.
  unfold unorm in Hn. destruct (nzhead d) as [|u|u|u|u|u|u|u|u|u|u] eqn:E; try discriminate.
  - now injection Hn as <-.
  - exfalso. now apply (nzhead_nonzero d u).
Qed.

Lemma read_int_nat (n : nat) (rest : bytes) :
  int_end rest = true ->
  read_int (str_of_nat n ++ rest) = Some (Z.of_nat n, rest).
Proof.
  intros Hrest. unfold str_of_nat.
  pose proof (read_digits_uint (Nat.to_uint n) 0 rest Hrest) as Hd.
  change (Z.of_nat 0) with 0 in Hd.
  fold (Nat.of_uint (Nat.to_uint n)) in Hd. rewrite Unsigned.of_to in Hd.
  assert (Hmore : match rest with
                  | d :: _ => Byte.eqb d "."%byte || Byte.eqb d "e"%byte || Byte.eqb d "E"%byte
                  | [] => false
                  end = false).
  { destruct rest as [|c r]; [reflexivity|]. cbn [int_end] in Hrest.
    apply negb_true_iff in Hrest.
    destruct (is_digit c); [discriminate Hrest | exact Hrest]. }
  assert (Hzero : match rest with d :: _ => is_digit d | [] => false end = false).
  { destruct rest as [|c r]; [reflexivity|]. apply (int_end_not_digit c r Hrest). }
  destruct (Nat.to_uint n) as [|d|d|d|d|d|d|d|d|d|d] eqn:E.
  - now apply to_uint_not_Nil in E.
  - apply to_uint_leading_zero in E. subst d.
    cbn [bytes_of_uint app] in Hd |- *. unfold read_int.
    change (is_digit "0"%byte) with true. cbv iota. rewrite Hd, Hmore, Hzero. reflexivity.
  - cbn [bytes_of_uint app] in Hd |- *. unfold read_int.
    change (is_digit "1"%byte) with true. cbv iota. rewrite Hd, Hmore. reflexivity.
  - cbn [bytes_of_uint app] in Hd |- *. unfold read_int.
    change (is_digit "2"%byte) with true. cbv iota. rewrite Hd, Hmore. reflexivity.
  - cbn [bytes_of_uint app] in Hd |- *. unfold read_int.
    change (is_digit "3"%byte) with true. cbv iota. rewrite Hd, Hmore. reflexivity.
  - cbn [bytes_of_uint app] in Hd |- *. unfold read_int.
    change (is_digit "4"%byte) with true. cbv iota. rewrite Hd, Hmore. reflexivity.
  - cbn [bytes_of_uint app] in Hd |- *. unfold read_int.
    change (is_digit "5"%byte) with true. cbv iota. rewrite Hd, Hmore. reflexivity.
  - cbn [bytes_of_uint app] in Hd |- *. unfold read_int.
    change (is_digit "6"%byte) with true. cbv iota. rewrite Hd, Hmore. reflexivity.
  - cbn [bytes_of_uint app] in Hd |- *. unfold read_int.
    change (is_digit "7"%byte) with true. cbv iota. rewrite Hd, Hmore. reflexivity.
  - cbn [bytes_of_uint app] in Hd |- *. unfold read_int.
    change (is_digit "8"%byte) with true. cbv iota. rewrite Hd, Hmore. reflexivity.
  - cbn [bytes_of_uint app] in Hd |- *. unfold read_int.
    change (is_digit "9"%byte) with true. cbv iota. rewrite Hd, Hmore. reflexivity.
Qed.

(** *** Dispatch on the first byte *)

Lemma read_value_string (f : nat) (t : bytes) :
  read_value (S f) (QUOTE :: t)
  = match read_string t [] with
    | Some (str, rest) => Some (JStr str, rest)
    | None => None
    end.
Proof. reflexivity. Qed.

Lemma read_value_array (f : nat) (s : bytes) :
  read_value (S f) ("["%byte :: s)
  = match skip_ws s with
    | d :: s' => if Byte.eqb d "]"%byte then Some (JArr [], s') else read_items f (skip_ws s) []
    | [] => None
    end.
Proof. reflexivity. Qed.

Lemma read_value_object (f : nat) (s : bytes) :
  read_value (S f) ("{"%byte :: s)
  = match skip_ws s with
    | d :: s' => if Byte.eqb d "}"%byte then Some (JObj [], s') else read_fields f (skip_ws s) []
    | [] => None
    end.
Proof. reflexivity. Qed.

Lemma read_value_minus (f : nat) (s : bytes) :
  read_value (S f) ("-"%byte :: s)
  = match read_int s with
    | Some (n, rest) => Some (JInt (- n), rest)
    | None => None
    end.
Proof. reflexivity. Qed.

Lemma read_value_digit (f : nat) (c : byte) (s : bytes) :
  is_digit c = true ->
  read_value (S f) (c :: s)
  = match read_int (c :: s) with
    | Some (n, rest) => Some (JInt n, rest)
    | None => None
    end.
Proof. destruct c; intros H; try (vm_compute in H; discriminate H); reflexivity. Qed.

Lemma read_items_step (f : nat) (s : bytes) acc :
  read_items (S f) s acc
  = match read_value f s with
    | Some (v, rest) =>
        match skip_ws rest with
        | d :: rest' =>
            if Byte.eqb d ","%byte then read_items f rest' (v :: acc)
            else if Byte.eqb d "]"%byte then Some (JArr (rev (v :: acc)), rest')
            else None
        | [] => None
        end
    | None => None
    end.
Proof. reflexivity. Qed.

Lemma read_fields_step (f : nat) (t : bytes) acc :
  read_fields (S f) (QUOTE :: t) acc
  = match read_string t [] with
    | Some (key, s2) =>
        match skip_ws s2 with
        | colon :: s3 =>
            if Byte.eqb colon ":"%byte then
              match read_value f s3 with
              | Some (v, rest) =>
                  match skip_ws rest with
                  | d :: rest' =>
                      if Byte.eqb d ","%byte then read_fields f rest' (obj_set key v acc)
                      else if Byte.eqb d "}"%byte then Some (JObj (obj_set key v acc), rest')
                      else None
                  | [] => None
                  end
              | None => None
              end
            else None
        | [] => None
        end
    | None => None
    end.
Proof. reflexivity. Qed.

Lemma str_of_nat_head (n : nat) :
  exists c r, str_of_nat n = c :: r /\ is_digit c = true.
Proof.
  unfold str_of_nat. pose proof (bytes_of_uint_digits (Nat.to_uint n)) as H.
  pose proof (to_uint_not_Nil n) as Hn.
  destruct (bytes_of_uint (Nat.to_uint n)) as [|c r] eqn:E.
  - destruct (Nat.to_uint n); try contradiction; discriminate E.
  - exists c, r. split; [reflexivity|]. now inversion H.
Qed.

Lemma read_value_int (f : nat) (z : Z) (rest : bytes) :
  int_end rest = true ->
  read_value (S f) (str_of_Z z ++ rest) = Some (JInt z, rest).
Proof.
  intros Hrest. destruct z as [|p|p]; cbn [str_of_Z].
  - change (str_of_nat (Z.to_nat 0)) with (b "0").
    change (b "0" ++ rest) with ("0"%byte :: rest).
    rewrite read_value_digit by reflexivity.
    change ("0"%byte :: rest) with (str_of_nat 0 ++ rest).
    now rewrite read_int_nat.
  - destruct (str_of_nat_head (Z.to_nat (Z.pos p))) as (c & r & E & Hc).
    pose proof (read_int_nat (Z.to_nat (Z.pos p)) rest Hrest) as Hint.
    rewrite E in Hint |- *. cbn [app] in Hint |- *.
    rewrite read_value_digit, Hint by assumption. now rewrite Z2Nat.id by lia.
  - cbn [app]. rewrite read_value_minus, read_int_nat by assumption.
    now rewrite positive_nat_Z.
Qed.

Lemma digit_starts_value (c : byte) (s : bytes) :
  is_digit c = true -> starts_value (c :: s) = true.
Proof. destruct c; intros H; try (vm_compute in H; discriminate H); reflexivity. Qed.

Lemma render_starts_value (v : json) (indent : option nat) (depth : nat) (rest : bytes) :
  starts_value (render indent depth v ++ rest) = true.
Proof.
  destruct v as [|[|]|z|s|items|fields]; try reflexivity.
  - cbn [render]. destruct z as [|p|p]; cbn [str_of_Z]; try reflexivity.
    destruct (str_of_nat_head (Z.to_nat (Z.pos p))) as (c & r & -> & Hc).
    now apply digit_starts_value.
  - destruct items; reflexivity.
  - destruct fields; reflexivity.
Qed.

(** *** Lists and dictionaries *)

Lemma weight_pos (v : json) : (1 <= weight v)%nat.
Proof. destruct v; cbn [weight]; lia. Qed.

Lemma ws_int_end (c : byte) (s : bytes) : is_ws c = true -> int_end (c :: s) = true.
Proof. destruct c; intros H; try (vm_compute in H; discriminate H); reflexivity. Qed.

Lemma int_end_closing (closing : bytes) (c : byte) (rest : bytes) :
  blank closing = true -> int_end [c] = true -> int_end (closing ++ c :: rest) = true.
Proof.
  intros Hb Hc. destruct closing as [|w closing]; [exact Hc|].
  cbn [blank forallb] in Hb. apply andb_true_iff in Hb as [Hw _].
  now apply ws_int_end.
Qed.

(** The separator between two items is a comma followed by white space. *)
Lemma item_sep_comma (indent : option nat) (depth : nat) (s : bytes) :
  exists pre, blank pre = true
              /\ item_sep indent ++ newline indent depth ++ s = ","%byte :: pre ++ s.
Proof.
  destruct indent as [n|].
  - exists (newline (Some n) depth). split; [apply blank_newline | reflexivity].
  - exists (b " "). split; reflexivity.
Qed.

Lemma items_text_cons indent depth (i i2 : json) (items : list json) :
  items_text indent depth (i :: i2 :: items)
  = render indent depth i ++ (item_sep indent ++ newline indent depth)
      ++ items_text indent depth (i2 :: items).
Proof. reflexivity. Qed.

Lemma fields_text_cons indent depth (kv kv2 : bytes * json) (fields : list (bytes * json)) :
  fields_text indent depth (kv :: kv2 :: fields)
  = field_text indent depth kv ++ (item_sep indent ++ newline indent depth)
      ++ fields_text indent depth (kv2 :: fields).
Proof. reflexivity. Qed.

Lemma bytes_eqb_sym (x y : bytes) : bytes_eqb x y = bytes_eqb y x.
Proof.
  destruct (bytes_eqb x y) eqn:E1, (bytes_eqb y x) eqn:E2; try reflexivity.
  - apply bytes_eqb_eq in E1. subst. now rewrite bytes_eqb_refl in E2.
  - apply bytes_eqb_eq in E2. subst. now rewrite bytes_eqb_refl in E1.
Qed.

Lemma obj_set_fresh (k : bytes) (v : json) (acc : list (bytes * json)) :
  key_free k acc = true -> obj_set k v acc = acc ++ [(k, v)].
Proof.
  induction acc as [|[k' v'] acc IH]; [reflexivity|]. cbn [key_free forallb fst obj_set app].
  intros H. apply andb_true_iff in H as [Hk H]. apply negb_true_iff in Hk.
  rewrite Hk. f_equal. now apply IH.
Qed.

Lemma key_free_snoc (k k' : bytes) (x : json) (acc : list (bytes * json)) :
  key_free k acc = true -> bytes_eqb k' k = false -> key_free k (acc ++ [(k', x)]) = true.
Proof.
  intros H Hk. unfold key_free in *. rewrite forallb_app, H. cbn [forallb fst andb].
  now rewrite bytes_eqb_sym, Hk.
Qed.

Lemma fields_ok_snoc (k : bytes) (x : json) (acc rest : list (bytes * json)) :
  fields_ok acc rest = true -> fresh_key k rest = true ->
  fields_ok (acc ++ [(k, x)]) rest = true.
Proof.
  induction rest as [|[k' x'] rest IH]; [reflexivity|]. cbn [fields_ok fresh_key].
  intros H Hf. apply andb_true_iff in Hf as [Hk Hf]. apply negb_true_iff in Hk.
  repeat (apply andb_true_iff in H as [H ?]).
  repeat (apply andb_true_iff; split); auto.
  now apply key_free_snoc.
Qed.

Lemma plain_fields (fields : list (bytes * json)) :
  plain (JObj fields) = fields_ok [] fields.
Proof.
  cbn [plain]. induction fields as [|[k x] fields IH]; [reflexivity|].
  cbn [fields_ok key_free forallb]. rewrite IH, andb_true_r. reflexivity.
Qed.

Lemma read_back (f : nat) :
  (forall v indent depth rest,
      plain v = true -> int_end rest = true -> (weight v <= f)%nat ->
      read_value f (render indent depth v ++ rest) = Some (v, rest))
  /\ (forall items indent depth closing rest acc,
         items <> [] -> forallb plain items = true ->
         (1 + list_sum (map weight items) <= f)%nat -> blank closing = true ->
         read_items f (items_text indent depth items ++ closing ++ "]"%byte :: rest) acc
         = Some (JArr (rev acc ++ items), rest))
  /\ (forall fields indent depth closing rest acc,
         fields <> [] -> fields_ok acc fields = true ->
         (1 + list_sum (map (fun kv => weight (snd kv)) fields) <= f)%nat -> blank closing = true ->
         read_fields f (fields_text indent depth fields ++ closing ++ "}"%byte :: rest) acc
         = Some (JObj (acc ++ fields), rest)).
Proof.
  induction f as [|f (IHV & IHI & IHF)].
  { split; [|split].
    - intros v ? ? ? _ _ H. pose proof (weight_pos v). lia.
    - intros; lia.
    - intros; lia. }
  split; [|split].
  - (* a value *)
    intros v indent depth rest Hplain Hrest Hw.
    destruct v as [|[|]|z|s|items|fields]; try reflexivity.
    + now apply read_value_int.
    + cbn [render plain] in *.
      destruct (render_string_read s rest Hplain) as (t & -> & Ht).
      now rewrite read_value_string, Ht.
    + destruct items as [|i items]; [reflexivity|].
      cbn [render]. change (b "[") with ["["%byte]. change (b "]") with ["]"%byte].
      fold (items_text indent (S depth) (i :: items)).
      rewrite <- !app_assoc. cbn [app]. rewrite read_value_array.
      rewrite skip_ws_blank by apply blank_newline.
      assert (Hstart : starts_value (items_text indent (S depth) (i :: items)
                                     ++ newline indent depth ++ "]"%byte :: rest) = true).
      { unfold items_text. cbn [map]. destruct (map _ items); cbn [join];
          rewrite <- ?app_assoc; apply render_starts_value. }
      rewrite (skip_ws_value _ Hstart).
      destruct (items_text indent (S depth) (i :: items) ++ newline indent depth ++ "]"%byte :: rest)
        as [|d s'] eqn:E; [discriminate Hstart|].
      assert (Hd : Byte.eqb d "]"%byte = false).
      { cbn [starts_value] in Hstart. apply andb_true_iff in Hstart as [Hs _].
        apply andb_true_iff in Hs as [_ Hs]. now apply negb_true_iff in Hs. }
      rewrite Hd, <- E. cbn [plain weight] in Hplain, Hw. fold (list_sum (map weight (i :: items))) in Hw.
      apply (IHI (i :: items) indent (S depth) (newline indent depth) rest []);
        [discriminate | assumption | lia | apply blank_newline].
    + destruct fields as [|kv fields]; [reflexivity|].
      rewrite plain_fields in Hplain.
      cbn [render]. change (b "{") with ["{"%byte]. change (b "}") with ["}"%byte].
      change (map (fun kv0 => render_string (fst kv0) ++ b ": " ++ render indent (S depth) (snd kv0))
                  (kv :: fields))
        with (map (field_text indent (S depth)) (kv :: fields)).
      fold (fields_text indent (S depth) (kv :: fields)).
      rewrite <- !app_assoc. cbn [app]. rewrite read_value_object.
      rewrite skip_ws_blank by apply blank_newline.
      assert (Hq : exists t, fields_text indent (S depth) (kv :: fields)
                             ++ newline indent depth ++ "}"%byte :: rest = QUOTE :: t).
      { unfold fields_text, field_text, render_string. cbn [map].
        destruct (map _ fields); cbn [join app]; eauto. }
      destruct Hq as [t Ht]. rewrite Ht. change (skip_ws (QUOTE :: t)) with (QUOTE :: t).
      change (Byte.eqb QUOTE "}"%byte) with false. cbv iota. rewrite <- Ht.
      cbn [weight] in Hw.
      apply (IHF (kv :: fields) indent (S depth) (newline indent depth) rest []);
        [discriminate | assumption | lia | apply blank_newline].
  - (* the items of a list *)
    intros items indent depth closing rest acc Hne Hplain Hw Hclosing.
    destruct items as [|i items]; [contradiction|]. clear Hne.
    cbn [forallb map list_sum fold_right] in Hplain, Hw.
    apply andb_true_iff in Hplain as [Hi Hitems].
    pose proof (weight_pos i) as Hwi.
    rewrite read_items_step. destruct items as [|i2 items].
    + unfold items_text. cbn [map join].
      rewrite (IHV i indent depth); [|assumption | now apply int_end_closing | lia].
      rewrite skip_ws_blank by assumption. reflexivity.
    + rewrite items_text_cons, <- !app_assoc.
      destruct (item_sep_comma indent depth
                  (items_text indent depth (i2 :: items) ++ closing ++ "]"%byte :: rest))
        as (pre & Hpre & Hsep).
      rewrite Hsep.
      rewrite (IHV i indent depth); [|assumption | reflexivity | lia].
      change (skip_ws (","%byte :: ?x)) with (","%byte :: x). cbv beta iota.
      change (Byte.eqb ","%byte ","%byte) with true. cbv iota.
      rewrite read_items_blank by assumption.
      rewrite (IHI (i2 :: items) indent depth closing rest (i :: acc));
        [|discriminate | assumption | cbn [map list_sum fold_right] in *; lia | assumption].
      cbn [rev]. now rewrite <- app_assoc.
  - (* the fields of a dictionary *)
    intros fields indent depth closing rest acc Hne Hok Hw Hclosing.
    destruct fields as [|[k x] fields]; [contradiction|]. clear Hne.
    cbn [fields_ok map list_sum fold_right snd] in Hok, Hw.
    repeat (apply andb_true_iff in Hok as [Hok ?]).
    pose proof (weight_pos x) as Hwx.
    assert (Hfield : forall tail, int_end tail = true ->
              read_fields (S f) (field_text indent depth (k, x) ++ tail) acc
              = match skip_ws tail with
                | d :: rest' =>
                    if Byte.eqb d ","%byte then read_fields f rest' (acc ++ [(k, x)])
                    else if Byte.eqb d "}"%byte then Some (JObj (acc ++ [(k, x)]), rest')
                    else None
                | [] => None
                end).
    { intros tail Htail. unfold field_text. cbn [fst snd]. rewrite <- !app_assoc.
      destruct (render_string_read k (b ": " ++ render indent depth x ++ tail)) as (t & -> & Ht);
        [assumption|].
      rewrite read_fields_step, Ht.
      change (skip_ws (b ": " ++ ?y)) with (":"%byte :: b " " ++ y). cbv beta iota.
      change (Byte.eqb ":"%byte ":"%byte) with true. cbv iota.
      rewrite (read_value_blank f (b " ")) by reflexivity.
      rewrite (IHV x indent depth); [|assumption | assumption | lia].
      now rewrite obj_set_fresh. }
    destruct fields as [|kv2 fields].
    + unfold fields_text. cbn [map join].
      rewrite Hfield by now apply int_end_closing.
      rewrite skip_ws_blank by assumption. reflexivity.
    + rewrite fields_text_cons, <- !app_assoc.
      destruct (item_sep_comma indent depth
                  (fields_text indent depth (kv2 :: fields) ++ closing ++ "}"%byte :: rest))
        as (pre & Hpre & Hsep).
      rewrite Hsep, Hfield by reflexivity.
      change (skip_ws (","%byte :: ?y)) with (","%byte :: y). cbv beta iota.
      change (Byte.eqb ","%byte ","%byte) with true. cbv iota.
      rewrite read_fields_blank by assumption.
      rewrite (IHF (kv2 :: fields) indent depth closing rest (acc ++ [(k, x)]));
        [|discriminate | now apply fields_ok_snoc
         | cbn [map list_sum fold_right] in *; lia | assumption].
      now rewrite <- app_assoc.
Qed.

(** *** What is written is ASCII text, long enough to be read back *)

Lemma ascii_only_app (x y : bytes) : ascii_only (x ++ y) = ascii_only x && ascii_only y.
Proof. apply forallb_app. Qed.

Lemma ascii_only_valid (s : bytes) : ascii_only s = true -> utf8_valid s = true.
Proof.
  induction s as [|c s IH]; [reflexivity|]. intros H.
  change (in_range 0 127 c && ascii_only s = true) in H.
  apply andb_true_iff in H as [Hc H]. cbn [utf8_valid]. rewrite Hc. now apply IH.
Qed.

Lemma ascii_only_cons (c : byte) (s : bytes) :
  ascii_only (c :: s) = in_range 0 127 c && ascii_only s.
Proof. reflexivity. Qed.

Lemma escape_byte_ascii (c : byte) : in_range 0 127 c = true -> ascii_only (escape_byte c) = true.
Proof. destruct c; intros H; try (vm_compute in H; discriminate H); reflexivity. Qed.

Lemma render_string_ascii (s : bytes) : ascii_only s = true -> ascii_only (render_string s) = true.
Proof.
  intros H. unfold render_string. rewrite ascii_only_cons, ascii_only_app.
  change (in_range 0 127 QUOTE) with true. change (ascii_only [QUOTE]) with true.
  cbn [andb]. rewrite andb_true_r.
  induction s as [|c s IH]; [reflexivity|]. rewrite ascii_only_cons in H.
  apply andb_true_iff in H as [Hc Hs]. cbn [map concat].
  now rewrite ascii_only_app, escape_byte_ascii, IH.
Qed.

Lemma digits_ascii (s : bytes) : Forall (fun c => is_digit c = true) s -> ascii_only s = true.
Proof.
  induction 1 as [|c s Hc _ IH]; [reflexivity|]. rewrite ascii_only_cons.
  rewrite IH, andb_true_r. unfold is_digit, in_range in *.
  apply andb_true_iff in Hc as [H1 H2]. apply N.leb_le in H1. apply N.leb_le in H2.
  apply andb_true_iff. split; apply N.leb_le; lia.
Qed.

Lemma str_of_Z_ascii (z : Z) : ascii_only (str_of_Z z) = true.
Proof.
  destruct z; cbn [str_of_Z]; try apply digits_ascii, bytes_of_uint_digits.
  rewrite ascii_only_cons. apply digits_ascii, bytes_of_uint_digits.
Qed.

Lemma newline_ascii (indent : option nat) (depth : nat) : ascii_only (newline indent depth) = true.
Proof.
  destruct indent as [n|]; [|reflexivity]. cbn [newline]. rewrite ascii_only_cons.
  change (in_range 0 127 LF) with true. cbn [andb].
  induction (n * depth)%nat as [|k IH]; [reflexivity|]. exact IH.
Qed.

Lemma separator_ascii (indent : option nat) (depth : nat) :
  ascii_only (item_sep indent ++ newline indent depth) = true.
Proof. rewrite ascii_only_app, newline_ascii. now destruct indent. Qed.

Lemma join_ascii (sep : bytes) (parts : list bytes) :
  ascii_only sep = true -> Forall (fun p => ascii_only p = true) parts ->
  ascii_only (join sep parts) = true.
Proof.
  intros Hsep. induction 1 as [|p parts Hp _ IH]; [reflexivity|].
  destruct parts as [|p2 parts]; [exact Hp|].
  change (join sep (p :: p2 :: parts)) with (p ++ sep ++ join sep (p2 :: parts)).
  now rewrite !ascii_only_app, Hp, Hsep, IH.
Qed.

Lemma list_sum_cons (a : nat) (l : list nat) : list_sum (a :: l) = (a + list_sum l)%nat.
Proof. reflexivity. Qed.

Lemma join_length (sep : bytes) (parts : list bytes) :
  (list_sum (map (@length byte) parts) <= length (join sep parts))%nat.
Proof.
  induction parts as [|p parts IH]; [reflexivity|].
  destruct parts as [|p2 parts]; [cbn; lia|].
  change (join sep (p :: p2 :: parts)) with (p ++ sep ++ join sep (p2 :: parts)).
  rewrite !length_app. cbn [map] in *. rewrite list_sum_cons. lia.
Qed.

Lemma list_sum_le {A} (f g : A -> nat) (l : list A) :
  Forall (fun x => (f x <= g x)%nat) l -> (list_sum (map f l) <= list_sum (map g l))%nat.
Proof. induction 1; cbn [map]; rewrite ?list_sum_cons; [reflexivity | lia]. Qed.

Lemma item_weight_le (i : json) (items : list json) :
  In i items -> (weight i <= list_sum (map weight items))%nat.
Proof.
  induction items as [|x items IH]; [contradiction|]. cbn [map]. rewrite list_sum_cons.
  intros [-> | H]; [lia|]. specialize (IH H). lia.
Qed.

Lemma field_weight_le (kv : bytes * json) (fields : list (bytes * json)) :
  In kv fields -> (weight (snd kv) <= list_sum (map (fun x => weight (snd x)) fields))%nat.
Proof.
  induction fields as [|x fields IH]; [contradiction|]. cbn [map]. rewrite list_sum_cons.
  intros [-> | H]; [lia|]. specialize (IH H). lia.
Qed.

Lemma fields_ok_each (acc fields : list (bytes * json)) :
  fields_ok acc fields = true ->
  Forall (fun kv => ascii_only (fst kv) = true /\ plain (snd kv) = true) fields.
Proof.
  induction fields as [|[k x] fields IH]; [constructor|]. cbn [fields_ok]. intros H.
  repeat (apply andb_true_iff in H as [H ?]). constructor; [now split | now apply IH].
Qed.

Lemma render_text (n : nat) :
  forall v indent depth,
    (weight v <= n)%nat -> plain v = true ->
    ascii_only (render indent depth v) = true
    /\ (weight v <= length (render indent depth v))%nat.
Proof.
  induction n as [|n IH]; intros v indent depth Hw Hplain.
  { pose proof (weight_pos v). lia. }
  destruct v as [|[|]|z|s|items|fields]; try (split; [reflexivity | cbn; lia]).
  - cbn [render weight]. split; [apply str_of_Z_ascii|].
    destruct z as [|p|p]; cbn [str_of_Z];
      [change (str_of_nat (Z.to_nat 0)) with ["0"%byte]; cbn [length]; lia | | cbn [length]; lia].
    destruct (str_of_nat_head (Z.to_nat (Z.pos p))) as (c & r & -> & _). cbn [length]. lia.
  - cbn [render weight plain] in *. split; [now apply render_string_ascii|].
    unfold render_string. cbn [length]. lia.
  - destruct items as [|i items]; [split; [reflexivity | cbn; lia]|].
    cbn [plain weight] in Hplain, Hw. fold (list_sum (map weight (i :: items))) in Hw.
    assert (Hall : Forall (fun x => ascii_only (render indent (S depth) x) = true
                                    /\ (weight x <= length (render indent (S depth) x))%nat)
                          (i :: items)).
    { apply Forall_forall. intros x Hx. apply list_elem_of_In in Hx.
      apply IH.
      - pose proof (item_weight_le x _ Hx). lia.
      - rewrite forallb_forall in Hplain. now apply Hplain. }
    cbn [render]. fold (items_text indent (S depth) (i :: items)). split.
    + rewrite !ascii_only_app, !newline_ascii. cbn [andb]. rewrite andb_true_r.
      apply join_ascii; [apply separator_ascii|].
      apply Forall_map. eapply Forall_impl; [exact Hall|]. now intros x [Hx _].
    + rewrite !length_app. cbn [weight length b list_byte_of_string].
      pose proof (join_length (item_sep indent ++ newline indent (S depth))
                              (map (render indent (S depth)) (i :: items))) as Hj.
      fold (items_text indent (S depth) (i :: items)) in Hj.
      assert (Hs : (list_sum (map weight (i :: items))
                    <= list_sum (map (@length byte) (map (render indent (S depth)) (i :: items))))%nat).
      { rewrite map_map. apply list_sum_le. eapply Forall_impl; [exact Hall|]. now intros x [_ Hx]. }
      change (length (b "[")) with 1%nat. change (length (b "]")) with 1%nat. 
      fold (list_sum (map weight (i :: items))). lia.
  - destruct fields as [|kv fields]; [split; [reflexivity | cbn; lia]|].
    rewrite plain_fields in Hplain. cbn [weight] in Hw.
    fold (list_sum (map (fun kv0 => weight (snd kv0)) (kv :: fields))) in Hw.
    assert (Hall : Forall (fun x => ascii_only (field_text indent (S depth) x) = true
                                    /\ (weight (snd x) <= length (field_text indent (S depth) x))%nat)
                          (kv :: fields)).
    { pose proof (fields_ok_each _ _ Hplain) as Heach.
      rewrite Forall_forall in Heach. apply Forall_forall. intros x Hx.
      destruct (Heach x Hx) as [Hk Hv]. apply list_elem_of_In in Hx.
      destruct (IH (snd x) indent (S depth)) as [Ha Hl]; [|assumption|].
      - pose proof (field_weight_le x _ Hx). lia.
      - unfold field_text. split.
        + now rewrite !ascii_only_app, render_string_ascii, Ha.
        + rewrite !length_app. lia. }
    cbn [render].
    change (map (fun kv0 => render_string (fst kv0) ++ b ": " ++ render indent (S depth) (snd kv0))
                (kv :: fields))
      with (map (field_text indent (S depth)) (kv :: fields)).
    fold (fields_text indent (S depth) (kv :: fields)). split.
    + rewrite !ascii_only_app, !newline_ascii. cbn [andb]. rewrite andb_true_r.
      apply join_ascii; [apply separator_ascii|].
      apply Forall_map. eapply Forall_impl; [exact Hall|]. now intros x [Hx _].
    + rewrite !length_app. cbn [weight].
      pose proof (join_length (item_sep indent ++ newline indent (S depth))
                              (map (field_text indent (S depth)) (kv :: fields))) as Hj.
      fold (fields_text indent (S depth) (kv :: fields)) in Hj.
      assert (Hs : (list_sum (map (fun x => weight (snd x)) (kv :: fields))
                    <= list_sum (map (@length byte)
                                     (map (field_text indent (S depth)) (kv :: fields))))%nat).
      { rewrite map_map. apply list_sum_le. eapply Forall_impl; [exact Hall|]. now intros x [_ Hx]. }
      change (length (b "{")) with 1%nat. change (length (b "}")) with 1%nat.
      fold (list_sum (map (fun x => weight (snd x)) (kv :: fields))). lia.
Qed.

(** Reading back what was written, for every value in ASCII with distinct
    keys, with or without indentation. *)
Lemma loads_dumps (indent : option nat) (v : json) :
  plain v = true -> loads (dumps indent v) = Some v.
Proof.
  intros Hplain. unfold loads, dumps.
  destruct (render_text (weight v) v indent 0%nat (le_n _) Hplain) as [Hascii Hlen].
  rewrite (ascii_only_valid _ Hascii).
  destruct (read_back (S (length (render indent 0 v)))) as [Hread _].
  specialize (Hread v indent 0%nat [] Hplain eq_refl).
  rewrite app_nil_r in Hread. rewrite Hread by lia. reflexivity.
Qed.

End PyJsonFacts.

(** C6 for the executable runtime, with nothing assumed about it: the
    previous log and the message being values in ASCII whose dictionaries
    have distinct keys. *)
Lemma save_then_load_py (fs : gmap string bytes) (chat_id m : json) (prev : list json) :
  stored (RT := py_runtime) fs chat_id prev ->
  PyJson.plain (JArr (prev ++ [m])) = true ->
  exists fs',
    save_message (RT := py_runtime) chat_id m fs = Ok fs'
    /\ load_chat_history (RT := py_runtime) chat_id fs' = Ok (JArr (prev ++ [m])).
Proof.
  intros Hstored Hplain. eexists. split.
  - exact (save_message_appends fs chat_id m prev Hstored).
  - unfold load_chat_history. rewrite lookup_insert_eq.
    change (json_loads (json_dumps (Some 2%nat) (JArr (prev ++ [m]))))
      with (PyJson.loads (PyJson.dumps (Some 2%nat) (JArr (prev ++ [m])))).
    now rewrite PyJsonFacts.loads_dumps.
Qed.

(** * Further properties of the receiving thread *)

(** ** The header dictionary (lines 100-103) *)

Lemma dict_get_set_same (k v : bytes) (d : list (bytes * bytes)) :
  dict_get k (dict_set k v d) = Some v.
Proof.
  unfold dict_set. induction d as [|[k0 v0] d IH]; cbn.
  - now rewrite bytes_eqb_refl.
  - destruct (bytes_eqb k k0) eqn:E; cbn.
    + now rewrite bytes_eqb_refl.
    + now rewrite E.
Qed.

Lemma dict_get_set_other (k k' v : bytes) (d : list (bytes * bytes)) :
  k' <> k -> dict_get k' (dict_set k v d) = dict_get k' d.
Proof.
  intros Hne.
  assert (Hk : bytes_eqb k' k = false).
  { destruct (bytes_eqb k' k) eqn:E; [|reflexivity]. now apply bytes_eqb_eq in E. }
  unfold dict_set. induction d as [|[k0 v0] d IH]; cbn.
  - now rewrite Hk.
  - destruct (bytes_eqb k k0) eqn:E; cbn.
    + apply bytes_eqb_eq in E. subst k0. now rewrite Hk.
    + now rewrite IH.
Qed.

Lemma parse_headers_app (xs ys : list bytes) :
  forall acc, parse_headers (xs ++ ys) acc
              = bind (parse_headers xs acc) (parse_headers ys).
Proof.
  induction xs as [|x xs IH]; intros acc; cbn [app parse_headers bind]; [reflexivity|].
  destruct (split_once (b ": ") x) as [[key value]|]; [apply IH | reflexivity].
Qed.


(** X1.  Header names are compared without regard to case, and of two
    header lines with the same name the later one counts: after a header
    line [name: value] with a name in ASCII the dictionary binds the
    lower-cased name to [value], whatever the lines before it bound it
    to, and every other key is as the lines before left it. *)
Theorem later_header_line_overrides
        (lines : list bytes) (line name value : bytes) (d : list (bytes * bytes)) :
  parse_headers lines [] = Ok d ->
  split_once (b ": ") line = Some (name, value) ->
  is_ascii name = true ->
  exists d',
    parse_headers (lines ++ [line]) [] = Ok d'
    /\ dict_get (lower name) d' = Some value
    /\ forall key, key <> lower name -> dict_get key d' = dict_get key d.
Proof.
  intros Hlines Hline _. rewrite parse_headers_app, Hlines. cbn [bind parse_headers].
  rewrite Hline. eexists. split; [reflexivity|]. split.
  - apply dict_get_set_same.
  - intros key Hkey. now apply dict_get_set_other.
Qed.

Lemma later_header_line_overrides_witness :
  exists d',
    parse_headers ([b "Content-Length: 5"; b "Type: message"] ++ [b "CONTENT-LENGTH: 7"]) [] = Ok d'
    /\ dict_get (lower (b "CONTENT-LENGTH")) d' = Some (b "7")
    /\ forall key, key <> lower (b "CONTENT-LENGTH") ->
                   dict_get key d' = dict_get key [(b "content-length", b "5"); (b "type", b "message")].
Proof.
  apply (later_header_line_overrides [b "Content-Length: 5"; b "Type: message"]
           (b "CONTENT-LENGTH: 7") (b "CONTENT-LENGTH") (b "7")); reflexivity.
Defined.

(** ** Header blocks that cannot be read (lines 97-105) *)

Section BadHeaders.
Context `{RT : Runtime}.





(** ** The end of the connection (lines 92-93 and 106-107) *)

Lemma set_receiver_same (c : client) : set_receiver (receiver c) c = c.
Proof. now destruct c. Qed.

(** A caller that finds the queue empty and the thread out of its loop
    waits for ever, whatever the socket delivers. *)
Lemma send_request_stopped method path params body incoming (c : client) :
  match receiver c with Running _ => False | _ => True end ->
  response_queue c = [] ->
  send_request method path params body incoming c
  = Wait (set_sent (sent c ++ [encode_request method path params body]) c).
Proof.
  intros Hstop Hq. unfold send_request.
  rewrite receive_stopped by exact Hstop.
  unfold queue_get. cbn [response_queue set_sent]. now rewrite Hq.
Qed.

(** X5.  When the peer closes the connection while a header block is
    awaited, the thread returns from its loop, leaving what it had
    buffered; the thread is not started again, so a request made then or
    later is written to the socket and its caller waits for ever. *)
Theorem closed_connection_blocks_requests
        (c : client) (data : bytes) (more : list bytes)
        method path params body (incoming : list bytes) :
  receiver c = Running (ReadHead data) ->
  response_queue c = [] ->
  let c' := receive c ([] :: more) in
  c' = set_receiver Returned c
  /\ send_request method path params body incoming c'
     = Wait (set_sent (sent c' ++ [encode_request method path params body]) c').
Proof.
  intros Hr Hq c'.
  assert (Hc' : c' = set_receiver Returned c).
  { unfold c'. rewrite receive_cons. unfold on_recv. rewrite Hr. cbn [decode].
    now apply receive_stopped. }
  split; [exact Hc'|]. apply send_request_stopped; rewrite Hc'; [exact I | exact Hq].
Qed.

(** X6.  When the peer closes the connection in the middle of a body, the
    thread does not notice: every empty read leaves it at line 107 with
    the same partial body, so it neither returns nor delivers the frame,
    and a caller waiting for that reply stays blocked. *)
Theorem close_in_mid_body_is_not_noticed
        (c : client) status_line (d : list (bytes * bytes)) (cl : Z) (body : bytes) (n : nat) :
  receiver c = Running (ReadBody status_line d cl body) ->
  Z.of_nat (length body) < cl ->
  response_queue c = [] ->
  receive c (repeat [] n) = c
  /\ queue_get (receive c (repeat [] n)) = Wait c.
Proof.
  intros Hr Hlen Hq.
  assert (H : receive c (repeat [] n) = c).
  { induction n as [|n IH]; [reflexivity|].
    cbn [repeat]. rewrite receive_cons.
    assert (Hstep : on_recv c [] = c).
    { unfold on_recv. rewrite Hr. cbn [decode]. rewrite app_nil_r. unfold body_step.
      apply Z.ltb_lt in Hlen. rewrite Hlen. rewrite <- Hr. apply set_receiver_same. }
    now rewrite Hstep. }
  split; [exact H|]. rewrite H. unfold queue_get. now rewrite Hq.
Qed.

(** X7.  Once the thread has left its loop, by a return or by an
    exception, no request is answered any more: the request is still
    written to the socket, but the caller finds the queue empty and waits
    for ever, whatever the server sends. *)
Theorem no_reply_once_loop_has_ended
        (c : client) method path params body (incoming : list bytes) :
  receiver c = Returned \/ (exists e, receiver c = Crashed e) ->
  response_queue c = [] ->
  send_request method path params body incoming c
  = Wait (set_sent (sent c ++ [encode_request method path params body]) c).
Proof.
  intros Hstop Hq. apply send_request_stopped; [|exact Hq].
  destruct Hstop as [-> | [e ->]]; exact I.
Qed.

(** ** Frames without a declared length (lines 105-108) *)

Lemma partition_terminator (head tail : bytes) :
  first_terminator head ->
  partition CRLFCRLF (head ++ CRLFCRLF ++ tail) = Some (head, tail).
Proof.
  intros Hfirst. unfold partition. rewrite (find_terminator head tail Hfirst).
  rewrite take_app_length.
  replace (length head + length CRLFCRLF)%nat with (length (head ++ CRLFCRLF))
    by (now rewrite length_app).
  now rewrite app_assoc, drop_app_length.
Qed.

(** X8.  A frame without a [Content-Length] header is delivered by the
    read that completes its header block, with the bytes which that read
    carried behind the terminator as its body: the thread does not wait
    for any more of the body. *)
Theorem frame_without_length_is_delivered_at_once
        (c : client) (data chunk head tail : bytes) (d : list (bytes * bytes)) :
  receiver c = Running (ReadHead data) ->
  chunk <> [] ->
  first_terminator head ->
  data ++ chunk = head ++ CRLFCRLF ++ tail ->
  utf8_valid head = true ->
  parse_headers (tl (split CRLF head)) [] = Ok d ->
  dict_get (b "content-length") d = None ->
  decode (ReadHead data) chunk = Frame (status_line_of head) d tail
  /\ on_recv c chunk = route (status_line_of head) d tail c.
Proof.
  intros Hr Hne Hfirst Hcat Hutf Hparse Hget.
  assert (H : decode (ReadHead data) chunk = Frame (status_line_of head) d tail).
  { cbn [decode]. destruct chunk as [|x chunk]; [congruence|].
    unfold head_step. rewrite Hcat, (partition_terminator head tail Hfirst).
    unfold parse_head, content_length_of. rewrite Hutf, Hparse, Hget.
    unfold body_step.
    assert (Hlt : (Z.of_nat (length tail) <? 0) = false) by (apply Z.ltb_ge; lia).
    now rewrite Hlt. }
  split; [exact H|]. unfold on_recv. now rewrite Hr, H.
Qed.

End BadHeaders.

(** ** Frames and reads *)

(** X9.  How [recv] cuts a frame does not matter when the frame is sent
    whole with a body of the declared length: two sequences of non-empty
    reads that carry the same bytes are decoded into the same frame, with
    nothing left over. *)
Theorem decoding_does_not_depend_on_reads
        (chunks chunks' : list bytes) (head body : bytes) (d : list (bytes * bytes)) (cl : Z) :
  arrives chunks head body d cl ->
  all_nonempty chunks' = true ->
  concat chunks' = concat chunks ->
  decode_chunks (ReadHead []) chunks' = (Frame (status_line_of head) d body, [])
  /\ decode_chunks (ReadHead []) chunks' = decode_chunks (ReadHead []) chunks.
Proof.
  intros (H1 & H2 & H3 & H4 & H5 & H6 & H7) Hne Hcat.
  assert (Ha : decode_chunks (ReadHead []) chunks = (Frame (status_line_of head) d body, [])).
  { apply (decode_frame_exact chunks head body d cl); auto. now apply all_nonempty_spec. }
  assert (Hb : decode_chunks (ReadHead []) chunks' = (Frame (status_line_of head) d body, [])).
  { apply (decode_frame_exact chunks' head body d cl); auto.
    - now apply all_nonempty_spec.
    - now rewrite Hcat. }
  split; [exact Hb | now rewrite Ha, Hb].
Qed.

Lemma decoding_does_not_depend_on_reads_witness :
  decode_chunks (ReadHead []) [ok_reply_head ++ [CR; LF]; [CR]; [LF] ++ b "{"; b "}"]
  = (Frame (status_line_of ok_reply_head) [(b "content-length", b "2")] (b "{}"), [])
  /\ decode_chunks (ReadHead []) [ok_reply_head ++ [CR; LF]; [CR]; [LF] ++ b "{"; b "}"]
     = decode_chunks (ReadHead []) [ok_reply].
Proof.
  apply (decoding_does_not_depend_on_reads [ok_reply] _ ok_reply_head (b "{}")
           [(b "content-length", b "2")] 2); [|reflexivity|reflexivity].
  repeat split; reflexivity.
Defined.




Lemma closed_connection_blocks_requests_witness :
  let c' := receive (receive fresh_client [b "HTTP/1.1 2"]) ([] :: [ok_reply]) in
  c' = set_receiver Returned (receive fresh_client [b "HTTP/1.1 2"])
  /\ send_request (b "GET") (b "/chats") [(b "id", JInt 7)] None [ok_reply] c'
     = Wait (set_sent (sent c' ++ [encode_request (b "GET") (b "/chats") [(b "id", JInt 7)] None]) c').
Proof.
  apply (closed_connection_blocks_requests (RT := py_runtime)
           (receive fresh_client [b "HTTP/1.1 2"]) (b "HTTP/1.1 2")); reflexivity.
Defined.

Lemma close_in_mid_body_is_not_noticed_witness :
  let c := receive fresh_client
             [b "HTTP/1.1 200 OK" ++ CRLF ++ b "Content-Length: 5" ++ CRLFCRLF ++ b "ab"] in
  receive c (repeat [] 3) = c
  /\ queue_get (receive c (repeat [] 3)) = Wait c.
Proof.
  apply (close_in_mid_body_is_not_noticed (RT := py_runtime) _ (b "HTTP/1.1 200 OK")
           [(b "content-length", b "5")] 5 (b "ab") 3); reflexivity.
Defined.

Lemma no_reply_once_loop_has_ended_witness :
  send_request (b "GET") (b "/chats") [(b "id", JInt 7)] None [ok_reply]
               (crash ValueError fresh_client)
  = Wait (set_sent (sent (crash ValueError fresh_client)
                      ++ [encode_request (b "GET") (b "/chats") [(b "id", JInt 7)] None])
                   (crash ValueError fresh_client)).
Proof.
  apply (no_reply_once_loop_has_ended (RT := py_runtime)); [|reflexivity].
  right. now exists ValueError.
Defined.

Lemma frame_without_length_is_delivered_at_once_witness :
  let c := receive fresh_client [b "HTTP/1.1 200 OK" ++ [CR; LF; CR]] in
  decode (ReadHead (b "HTTP/1.1 200 OK" ++ [CR; LF; CR])) ([LF] ++ b "{'images'")
  = Frame (status_line_of (b "HTTP/1.1 200 OK")) [] (b "{'images'")
  /\ on_recv c ([LF] ++ b "{'images'")
     = route (status_line_of (b "HTTP/1.1 200 OK")) [] (b "{'images'") c.
Proof.
  apply (frame_without_length_is_delivered_at_once (RT := py_runtime)
           (receive fresh_client [b "HTTP/1.1 200 OK" ++ [CR; LF; CR]])
           (b "HTTP/1.1 200 OK" ++ [CR; LF; CR]) ([LF] ++ b "{'images'")
           (b "HTTP/1.1 200 OK") (b "{'images'") []); try reflexivity.
  discriminate.
Defined.

(** * Further properties of routing, of the push handler and of the
      history store *)

Section Routing.
Context `{RT : Runtime}.

(** ** The response queue (lines 74 and 115) *)

(** An idle thread that reads a response frame with status 200 or 201
    puts it behind what the queue holds and is idle again. *)
Lemma receive_reply (c : client) chunks status body :
  idle c -> reply_arrives chunks status body -> status = 200 \/ status = 201 ->
  receive c chunks = next_frame (queue_put (status, body) c).
Proof.
  intros Hidle (status_line & d & Hdel & Htype & Hs) Hok.
  rewrite (receive_delivers c _ _ _ _ Hidle Hdel).
  now apply route_response.
Qed.

(** With one reply already queued, every call returns the item queued
    before its own reply arrived. *)
Lemma send_requests_shifted rounds replies :
  answered rounds replies ->
  forall (x : Z * bytes) (c : client),
    idle c -> response_queue c = [x] ->
    exists returned left c',
      send_requests rounds c = Return returned c'
      /\ response_queue c' = [left]
      /\ returned ++ [left] = x :: replies.
Proof.
  induction 1 as [|rq chunks status_line body d status rounds replies Hdel Htype Hs Hok _ IH];
    intros x c Hidle Hq.
  - exists [], x, c. repeat split; assumption.
  - cbn [send_requests]. unfold send_request.
    set (c0 := set_sent _ c).
    assert (Hidle0 : idle c0) by exact Hidle.
    rewrite (receive_delivers c0 _ _ _ _ Hidle0 Hdel).
    rewrite (route_response _ _ _ status) by assumption.
    unfold queue_get, next_frame, queue_put.
    cbn [response_queue set_receiver set_queue set_sent c0]. rewrite Hq. cbn [app and_then].
    match goal with |- context [send_requests rounds ?c1] =>
      destruct (IH (status, body) c1) as (returned & left & c' & Hc' & Hq' & Hshift);
        [reflexivity | reflexivity |]
    end.
    rewrite Hc'. cbn [and_then]. exists (x :: returned), left, c'.
    repeat split; [assumption|]. cbn [app]. now rewrite Hshift.
Qed.

(** X10.  The queue pairs replies with requests by order of arrival only.
    After one response frame that nobody asked for, every request issued
    one at a time gets the reply of the request before it: the first call
    returns the unsolicited frame, and the reply to the last request is
    left in the queue for the next call. *)
Theorem unsolicited_response_shifts_replies
        (c : client) chunks0 status0 body0 rounds replies :
  ready c ->
  reply_arrives chunks0 status0 body0 ->
  status0 = 200 \/ status0 = 201 ->
  answered rounds replies ->
  exists returned left c',
    send_requests rounds (receive c chunks0) = Return returned c'
    /\ response_queue c' = [left]
    /\ returned ++ [left] = (status0, body0) :: replies.
Proof.
  intros [Hidle Hq] Harr Hok Hans.
  rewrite (receive_reply c chunks0 status0 body0 Hidle Harr Hok).
  apply (send_requests_shifted rounds replies Hans); [reflexivity|].
  unfold next_frame, queue_put. cbn [response_queue set_receiver set_queue].
  now rewrite Hq.
Qed.

(** ** The push handler (lines 120-137) *)

(** X11.  A push whose JSON object has no [chat_id], or one that counts
    as false ([0], the empty string, [null]), is dropped without a trace:
    nothing is saved, printed or shown, and the thread is back at the top
    of its loop. *)
Theorem push_without_chat_id_is_ignored
        (c : client) chunks status_line d body status (fields : list (bytes * json)) :
  idle c ->
  delivers chunks status_line d body ->
  dict_get (b "type") d = Some (b "message") ->
  parse_status status_line = Ok status ->
  status = 200 \/ status = 201 ->
  json_loads body = Some (JObj fields) ->
  truthy (value_of (b "chat_id") JNull fields) = false ->
  handle_incoming_message body c = c /\ receive c chunks = c.
Proof.
  intros Hidle Hdel Htype Hs Hok Hjson Hfalse.
  assert (H : handle_incoming_message body c = c).
  { unfold handle_incoming_message, push_try. rewrite Hjson.
    cbn [py_get py_get_default]. unfold value_of in Hfalse. now rewrite Hfalse. }
  split; [exact H|].
  rewrite (receive_delivers c _ _ _ _ Hidle Hdel).
  rewrite (route_push _ _ _ status) by assumption.
  rewrite H. symmetry. now apply idle_eq.
Qed.

(** What the handler does once the message is known to belong to a chat
    whose history can be read. *)
Lemma push_try_saved (c : client) body (fields : list (bytes * json)) chat_id prev :
  json_loads body = Some (JObj fields) ->
  assoc (b "chat_id") fields = Some chat_id ->
  truthy chat_id = true ->
  stored (files c) chat_id prev ->
  push_try body c
  = push_show chat_id (JObj fields)
      (print (OutChat chat_id (value_of (b "sender") JNull fields)
                      (value_of (b "content") JNull fields))
             (set_files (<[chat_file chat_id :=
                             json_dumps (Some 2%nat) (JArr (prev ++ [JObj fields]))]> (files c)) c)).
Proof.
  intros Hjson Hid Htrue Hstored. unfold push_try. rewrite Hjson.
  cbn [py_get py_get_default]. rewrite Hid, Htrue.
  now rewrite (save_message_appends (files c) chat_id (JObj fields) prev Hstored).
Qed.

(** X12.  A push for a chat is saved before it is shown, and stays saved
    whatever the window does: the history file of the chat holds the
    previous log followed by the message, and one line is printed for it.
    The window is asked to display the message only when it shows that
    chat.  Without a window ([chat_frame] still [None], as before a
    login), line 134 raises [AttributeError], which is printed. *)
Theorem push_is_saved_before_it_is_shown
        (c : client) body (fields : list (bytes * json)) chat_id prev :
  json_loads body = Some (JObj fields) ->
  assoc (b "chat_id") fields = Some chat_id ->
  truthy chat_id = true ->
  stored (files c) chat_id prev ->
  let c' := handle_incoming_message body c in
  let line := OutChat chat_id (value_of (b "sender") JNull fields)
                      (value_of (b "content") JNull fields) in
  files c' = <[chat_file chat_id := json_dumps (Some 2%nat) (JArr (prev ++ [JObj fields]))]> (files c)
  /\ match chat_frame c with
     | None =>
         chat_frame c' = None /\ stdout c' = stdout c ++ [line; OutPushError AttributeError]
     | Some frame =>
         if py_eq (selected_chat_id frame) chat_id then
           match display_message frame (JObj fields) with
           | Some frame' => chat_frame c' = Some frame' /\ stdout c' = stdout c ++ [line]
           | None =>
               chat_frame c' = Some frame /\ stdout c' = stdout c ++ [line; OutPushError TclError]
           end
         else chat_frame c' = Some frame /\ stdout c' = stdout c ++ [line]
     end.
Proof.
  intros Hjson Hid Htrue Hstored c' line. unfold c', handle_incoming_message.
  rewrite (push_try_saved c body fields chat_id prev Hjson Hid Htrue Hstored).
  fold line. unfold push_show.
  change (chat_frame (print line (set_files ?fs c))) with (chat_frame c).
  destruct (chat_frame c) as [frame|] eqn:Hframe.
  - destruct (py_eq (selected_chat_id frame) chat_id).
    + destruct (display_message frame (JObj fields)) as [frame'|];
        cbn [files chat_frame stdout print set_files set_chat_frame];
        rewrite <- ?app_assoc; repeat split; auto.
    + cbn [files chat_frame stdout print set_files]. repeat split; auto.
  - cbn [files chat_frame stdout print set_files].
    rewrite <- ?app_assoc. repeat split; auto.
Qed.

(** X13.  Once the history file of a chat cannot be read as a JSON list,
    every push for that chat is lost: [save_message] raises inside the
    handler, the error is printed, the message is neither saved nor shown,
    and the file stays as it is. *)
Theorem unreadable_history_loses_pushes
        (c : client) body (fields : list (bytes * json)) chat_id (text : bytes) :
  json_loads body = Some (JObj fields) ->
  assoc (b "chat_id") fields = Some chat_id ->
  truthy chat_id = true ->
  files c !! chat_file chat_id = Some text ->
  (forall items, json_loads text <> Some (JArr items)) ->
  exists e,
    handle_incoming_message body c = print (OutPushError e) c
    /\ files (handle_incoming_message body c) = files c
    /\ chat_frame (handle_incoming_message body c) = chat_frame c.
Proof.
  intros Hjson Hid Htrue Hfile Hbad.
  assert (H : exists e, handle_incoming_message body c = print (OutPushError e) c).
  { unfold handle_incoming_message, push_try.
    rewrite Hjson. cbn [py_get py_get_default]. rewrite Hid, Htrue.
    unfold save_message. rewrite Hfile.
    destruct (json_loads text) as [v|]; cbn [of_option bind]; [|now eexists].
    destruct v; try (now eexists). now destruct (Hbad items). }
  destruct H as [e He]. exists e. rewrite He. repeat split.
Qed.

(** ** The history store (lines 139-172) *)

Lemma load_stored (fs : gmap string bytes) (chat_id : json) (log : list json) :
  stored fs chat_id log -> load_chat_history chat_id fs = Ok (JArr log).
Proof.
  unfold stored, load_chat_history. destruct (fs !! chat_file chat_id) as [text|].
  - now intros ->.
  - now intros ->.
Qed.

(** X14.  Saving messages one after the other and then loading the chat
    gives the previous log followed by these messages, in the order of
    the calls; the files of other chats are not touched.  The JSON
    library is used as it is: each log that is written is assumed to be
    read back as written. *)
Theorem save_many_then_load (chat_id : json) (messages : list json) :
  forall (fs : gmap string bytes) (prev : list json),
    stored fs chat_id prev ->
    (forall k, (1 <= k <= length messages)%nat ->
               json_loads (json_dumps (Some 2%nat) (JArr (prev ++ take k messages)))
               = Some (JArr (prev ++ take k messages))) ->
    exists fs',
      save_all chat_id messages fs = Ok fs'
      /\ load_chat_history chat_id fs' = Ok (JArr (prev ++ messages))
      /\ forall path, path <> chat_file chat_id -> fs' !! path = fs !! path.
Proof.
  induction messages as [|m rest IH]; intros fs prev Hstored Hround.
  - exists fs. rewrite app_nil_r. repeat split. now apply load_stored.
  - pose proof (save_message_appends fs chat_id m prev Hstored) as Hsave.
    set (fs1 := <[chat_file chat_id := json_dumps (Some 2%nat) (JArr (prev ++ [m]))]> fs) in *.
    destruct (IH fs1 (prev ++ [m])) as (fs' & Hall & Hload & Hother).
    + apply stored_after_save. apply (Hround 1%nat). cbn [length]. lia.
    + intros k Hk. rewrite <- app_assoc. apply (Hround (S k)). cbn [length]. lia.
    + exists fs'. cbn [save_all]. rewrite Hsave. cbn [bind].
      split; [exact Hall|]. split.
      * rewrite Hload. now rewrite <- app_assoc.
      * intros path Hpath. rewrite (Hother path Hpath). unfold fs1.
        now rewrite lookup_insert_ne.
Qed.

End Routing.

Lemma unsolicited_response_shifts_replies_witness :
  exists returned left c',
    send_requests
      [(mkRequest (b "GET") (b "/chats") [(b "id", JInt 7)] None, [ok_reply]);
       (mkRequest (b "GET") (b "/gallery") [(b "id", JInt 7)] None, [bob_reply])]
      (receive fresh_client
         [b "HTTP/1.1 201 Created" ++ CRLF ++ b "Content-Length: 2" ++ CRLFCRLF ++ b "[]"])
    = Return returned c'
    /\ response_queue c' = [left]
    /\ returned ++ [left]
       = (201, b "[]") :: [(200, b "{}"); (200, q "{'id':7,'username':'Bob'}")].
Proof.
  apply (unsolicited_response_shifts_replies (RT := py_runtime) fresh_client).
  - split; reflexivity.
  - exists (b "HTTP/1.1 201 Created"), [(b "content-length", b "2")]. repeat split; reflexivity.
  - now right.
  - apply (answered_cons _ _ (b "HTTP/1.1 200 OK") _ [(b "content-length", b "2")] 200);
      [reflexivity | reflexivity | reflexivity | now left |].
    apply (answered_cons _ _ (b "HTTP/1.1 200 OK") _ [(b "content-length", b "25")] 200);
      [reflexivity | reflexivity | reflexivity | now left |].
    apply answered_nil.
Defined.

Lemma push_without_chat_id_is_ignored_witness :
  let body := q "{'chat_id':0,'sender':'Ann','content':'hi'}" in
  let frame := b "HTTP/1.1 200 OK" ++ CRLF ++ b "Type: message" ++ CRLF
                 ++ b "Content-Length: 43" ++ CRLFCRLF ++ body in
  handle_incoming_message body fresh_client = fresh_client
  /\ receive fresh_client [frame] = fresh_client.
Proof.
  apply (push_without_chat_id_is_ignored (RT := py_runtime) fresh_client _ (b "HTTP/1.1 200 OK")
           [(b "type", b "message"); (b "content-length", b "43")] _ 200
           [(b "chat_id", JInt 0); (b "sender", JStr (b "Ann")); (b "content", JStr (b "hi"))]);
    try reflexivity.
  now left.
Defined.

Lemma push_is_saved_before_it_is_shown_witness :
  let c' := handle_incoming_message chat_push_body fresh_client in
  let line := OutChat (JInt 3) (JStr (b "Ann")) (JStr (b "hi")) in
  files c'
  = <[chat_file (JInt 3) :=
        json_dumps (Some 2%nat)
          (JArr ([] ++ [JObj [(b "chat_id", JInt 3); (b "sender", JStr (b "Ann"));
                              (b "sender_id", JInt 2); (b "content", JStr (b "hi"));
                              (b "timestamp", JStr (b "2024-01-01 00:00:00"))]]))]>
      (files fresh_client)
  /\ (chat_frame c' = None
      /\ stdout c' = stdout fresh_client ++ [line; OutPushError AttributeError]).
Proof.
  apply (push_is_saved_before_it_is_shown (RT := py_runtime) fresh_client chat_push_body
           [(b "chat_id", JInt 3); (b "sender", JStr (b "Ann")); (b "sender_id", JInt 2);
            (b "content", JStr (b "hi")); (b "timestamp", JStr (b "2024-01-01 00:00:00"))]
           (JInt 3) []); reflexivity.
Defined.

Lemma unreadable_history_loses_pushes_witness :
  let c := set_files {[ "chat_history/chat_3.json"%string := b "{}" ]} fresh_client in
  exists e,
    handle_incoming_message chat_push_body c = print (OutPushError e) c
    /\ files (handle_incoming_message chat_push_body c) = files c
    /\ chat_frame (handle_incoming_message chat_push_body c) = chat_frame c.
Proof.
  apply (unreadable_history_loses_pushes (RT := py_runtime)
           (set_files {[ "chat_history/chat_3.json"%string := b "{}" ]} fresh_client)
           chat_push_body
           [(b "chat_id", JInt 3); (b "sender", JStr (b "Ann")); (b "sender_id", JInt 2);
            (b "content", JStr (b "hi")); (b "timestamp", JStr (b "2024-01-01 00:00:00"))]
           (JInt 3) (b "{}")); try reflexivity.
  intros items. vm_compute. discriminate.
Defined.

Lemma save_many_then_load_witness :
  exists fs',
    save_all (JInt 3) [bob_message; ann_message] ann_log = Ok fs'
    /\ load_chat_history (JInt 3) fs' = Ok (JArr ([ann_message] ++ [bob_message; ann_message]))
    /\ forall path, path <> chat_file (JInt 3) -> fs' !! path = ann_log !! path.
Proof.
  apply (save_many_then_load (RT := py_runtime) (JInt 3) [bob_message; ann_message] ann_log
           [ann_message]); [reflexivity|].
  intros k Hk. destruct k as [|[|[|k]]]; [cbn in Hk; lia | reflexivity | reflexivity |].
  cbn in Hk. lia.
Defined.

(** * Properties of the facade *)

Section FacadeFacts.
Context `{RT : Runtime}.

(** ** A request and its reply *)

(** A call that starts with the thread idle and the queue empty, and is
    answered by one response frame with status 200 or 201, returns that
    status and body; the request has been written and the client is
    otherwise as before. *)
Lemma send_request_answered method path params rbody (c : client) chunks status body :
  ready c -> reply_arrives chunks status body -> status = 200 \/ status = 201 ->
  send_request method path params rbody chunks c
  = Return (status, body) (set_sent (sent c ++ [encode_request method path params rbody]) c).
Proof.
  intros [Hidle Hq] Harr Hok. unfold send_request.
  set (c0 := set_sent _ c).
  assert (Hidle0 : idle c0) by exact Hidle.
  rewrite (receive_reply c0 chunks status body Hidle0 Harr Hok).
  unfold queue_get, next_frame, queue_put.
  cbn [response_queue set_receiver set_queue set_sent c0]. rewrite Hq. cbn [app].
  f_equal. unfold idle in Hidle. destruct c; cbn in *. now subst.
Qed.

Lemma request_json_answered {A} method path params rbody (c : client) chunks status body data
      (k : Z -> json -> client -> outcome A) :
  ready c -> reply_arrives chunks status body -> status = 200 \/ status = 201 ->
  json_loads body = Some data ->
  request_json method path params rbody chunks c k
  = k status data (set_sent (sent c ++ [encode_request method path params rbody]) c).
Proof.
  intros Hready Harr Hok Hjson. unfold request_json.
  rewrite (send_request_answered _ _ _ _ c chunks status body Hready Harr Hok).
  cbn [and_then]. unfold loads_or_raise. now rewrite Hjson.
Qed.

Lemma get_or_raise_object {A} (fields : list (bytes * json)) (key : bytes) (c : client)
      (k : json -> outcome A) :
  get_or_raise (JObj fields) key c k = k (value_of key JNull fields).
Proof. reflexivity. Qed.

Lemma return_get_list_object (fields : list (bytes * json)) (key : bytes) (c : client) :
  return_get_list (JObj fields) key c = Return (value_of key (JArr []) fields) c.
Proof. reflexivity. Qed.

(** ** Registration and upload *)

(** X15.  [sign_in] changes the session only on a reply with status 201:
    the user id is then the [id] of the reply, while the login and the
    user name are the ones passed in, not anything the server sent.  A
    reply with status 200 is reported as a failure and leaves the session
    as it was.  Nothing is written to local storage either way. *)
Theorem sign_in_sets_session_only_on_201
        (login uname password : json) (c : client) chunks status body
        (fields : list (bytes * json)) :
  ready c ->
  reply_arrives chunks status body ->
  status = 200 \/ status = 201 ->
  json_loads body = Some (JObj fields) ->
  exists c',
    sign_in login uname password chunks c = Return tt c'
    /\ session c' = (if status =? 201 then (value_of (b "id") JNull fields, login, uname)
                     else session c)
    /\ stdout c' = stdout c ++ [if status =? 201
                                then OutValue (value_of (b "message") JNull fields)
                                else OutLabelled "Sign-up failed: "
                                                 (value_of (b "message") JNull fields)]
    /\ files c' = files c.
Proof.
  intros Hready Harr Hok Hjson. unfold sign_in.
  rewrite (request_json_answered _ _ _ _ c chunks status body (JObj fields)) by assumption.
  rewrite !get_or_raise_object.
  destruct (status =? 201); rewrite ?get_or_raise_object; eexists; repeat split.
Qed.

Lemma url_of_two (path k1 k2 : bytes) (v1 v2 : json) :
  k1 <> [] ->
  url_of path [(k1, v1); (k2, v2)]
  = path ++ b "?" ++ k1 ++ b "=" ++ py_str v1 ++ b "&" ++ k2 ++ b "=" ++ py_str v2.
Proof.
  intros Hk. unfold url_of, params_str. cbn [map join fst snd].
  destruct k1 as [|x k1]; [congruence|]. cbn [app].
  now rewrite <- !app_assoc.
Qed.

(** X16.  [upload] names the file and the user in the query string of the
    request, and on status 200 returns the path [uploads/<user id>/<file
    name>] that it puts together itself: the reply contributes only the
    message that is printed.  On status 201 it returns [None]. *)
Theorem upload_returns_path_built_locally
        (filename : json) (file_data : bytes) (c : client) chunks status body
        (fields : list (bytes * json)) :
  ready c ->
  reply_arrives chunks status body ->
  status = 200 \/ status = 201 ->
  json_loads body = Some (JObj fields) ->
  exists c',
    upload filename file_data chunks c
    = Return (if status =? 200
              then JStr (b "uploads/" ++ py_str (user_id c) ++ b "/" ++ py_str filename)
              else JNull) c'
    /\ sent c' = sent c ++ [encode_request (b "POST") (b "/upload")
                              [(b "filename", filename); (b "id", user_id c)] (Some file_data)]
    /\ url_of (b "/upload") [(b "filename", filename); (b "id", user_id c)]
       = b "/upload?filename=" ++ py_str filename ++ b "&id=" ++ py_str (user_id c)
    /\ session c' = session c.
Proof.
  intros Hready Harr Hok Hjson. unfold upload.
  rewrite (request_json_answered _ _ _ _ c chunks status body (JObj fields)) by assumption.
  rewrite !get_or_raise_object.
  destruct (status =? 200); eexists; (split; [reflexivity|]); (split; [reflexivity|]);
    (split; [|reflexivity]); now rewrite url_of_two.
Qed.

(** X17.  Keys and values go into the query string as they are: a value
    that contains [&] and [=] produces the very request that two separate
    parameters produce, so the server cannot tell the two apart. *)
Theorem query_parameters_are_not_escaped
        (method path key value key2 value2 : bytes) (body : option bytes) :
  (forall s, py_str (JStr s) = s) ->
  encode_request method path [(key, JStr (value ++ b "&" ++ key2 ++ b "=" ++ value2))] body
  = encode_request method path [(key, JStr value); (key2, JStr value2)] body.
Proof.
  intros Hstr. unfold encode_request, url_of, params_str. cbn [map join fst snd].
  rewrite !Hstr.
  replace (key ++ b "=" ++ value ++ b "&" ++ key2 ++ b "=" ++ value2)
    with ((key ++ b "=" ++ value) ++ b "&" ++ key2 ++ b "=" ++ value2)
    by (now rewrite <- !app_assoc).
  reflexivity.
Qed.

(** ** Sending a message *)

(** X18.  A message sent with [send_message] and accepted with status 200
    is appended to the local history of its chat: loading the chat
    afterwards gives the previous log followed by the dictionary that
    was sent, whose sender is the session's user.  (As for
    [save_message], the log written is assumed to be read back as
    written.) *)
Theorem send_message_then_load
        (chat_id message_type content : json) (timestamp : bytes)
        (c : client) chunks body (fields : list (bytes * json)) (prev : list json) :
  ready c ->
  reply_arrives chunks 200 body ->
  json_loads body = Some (JObj fields) ->
  stored (files c) chat_id prev ->
  let m := message_data_of chat_id message_type content timestamp c in
  json_loads (json_dumps (Some 2%nat) (JArr (prev ++ [m]))) = Some (JArr (prev ++ [m])) ->
  exists c',
    send_message chat_id message_type content timestamp chunks c = Return tt c'
    /\ load_chat_history chat_id (files c') = Ok (JArr (prev ++ [m]))
    /\ sent c' = sent c ++ [encode_request (b "POST") (b "/send_message") []
                              (Some (json_dumps None m))].
Proof.
  intros Hready Harr Hjson Hstored m Hround. unfold send_message. fold m.
  rewrite (request_json_answered _ _ _ _ c chunks 200 body (JObj fields));
    [|assumption|assumption|now left|assumption].
  cbn [Z.eqb Pos.eqb]. rewrite get_or_raise_object.
  cbn [files print set_sent].
  rewrite (save_message_appends (files c) chat_id m prev Hstored).
  eexists. split; [reflexivity|]. split; [|reflexivity].
  cbn [files set_files]. unfold load_chat_history. now rewrite lookup_insert_eq, Hround.
Qed.

(** X19.  [send_message] saves nothing unless the reply has status 200: a
    message that the server acknowledges with status 201 has been sent
    but is reported as failed and is missing from the local history. *)
Theorem send_message_not_saved_on_201
        (chat_id message_type content : json) (timestamp : bytes)
        (c : client) chunks body (fields : list (bytes * json)) :
  ready c ->
  reply_arrives chunks 201 body ->
  json_loads body = Some (JObj fields) ->
  exists c',
    send_message chat_id message_type content timestamp chunks c = Return tt c'
    /\ files c' = files c
    /\ stdout c' = stdout c ++ [OutLabelled "Failed to send message:"
                                            (value_of (b "message") JNull fields)]
    /\ sent c' = sent c ++ [encode_request (b "POST") (b "/send_message") []
                              (Some (json_dumps None
                                       (message_data_of chat_id message_type content timestamp c)))].
Proof.
  intros Hready Harr Hjson. unfold send_message.
  rewrite (request_json_answered _ _ _ _ c chunks 201 body (JObj fields));
    [|assumption|assumption|now right|assumption].
  cbn [Z.eqb Pos.eqb]. rewrite get_or_raise_object.
  eexists. repeat split.
Qed.

(** ** Friends and lists *)

(** X20.  The three friend-request operations return [True] exactly on a
    reply with status 200; a reply with status 201 makes them return
    [False].  They send the same body, the session's user id and the
    friend's id, to different paths. *)
Theorem friend_requests_succeed_on_200_only
        (friend_id : json) (c : client) chunks status body (fields : list (bytes * json)) :
  ready c ->
  reply_arrives chunks status body ->
  status = 200 \/ status = 201 ->
  json_loads body = Some (JObj fields) ->
  let wrote path c' :=
    sent c' = sent c ++ [encode_request (b "POST") path [] (Some (friend_body friend_id c))] in
  (exists c', send_friend_request friend_id chunks c = Return (status =? 200) c'
              /\ wrote (b "/add_friend") c')
  /\ (exists c', accept_friend_request friend_id chunks c = Return (status =? 200) c'
                 /\ wrote (b "/accept_friend") c')
  /\ (exists c', decline_friend_request friend_id chunks c = Return (status =? 200) c'
                 /\ wrote (b "/decline_friend") c').
Proof.
  intros Hready Harr Hok Hjson wrote.
  unfold send_friend_request, accept_friend_request, decline_friend_request, wrote.
  rewrite !(request_json_answered _ _ _ _ c chunks status body (JObj fields)) by assumption.
  rewrite !get_or_raise_object.
  destruct (status =? 200); repeat split; eexists; split; reflexivity.
Qed.

(** X21.  The six operations that fetch a list return, on status 200, the
    value that the reply binds to their key, and the empty list when the
    reply has no such key; on status 201 they return the empty list. *)
Theorem list_getters_default_to_empty
        (uname searcher_id : json) (c : client) chunks status body
        (fields : list (bytes * json)) :
  ready c ->
  reply_arrives chunks status body ->
  status = 200 \/ status = 201 ->
  json_loads body = Some (JObj fields) ->
  let result key := if status =? 200 then value_of key (JArr []) fields else JArr [] in
  (exists c', get_gallery chunks c = Return (result (b "images")) c')
  /\ (exists c', get_chats chunks c = Return (result (b "chats")) c')
  /\ (exists c', get_friends chunks c = Return (result (b "friends")) c')
  /\ (exists c', get_incoming_requests chunks c = Return (result (b "incoming")) c')
  /\ (exists c', get_outgoing_requests chunks c = Return (result (b "outgoing")) c')
  /\ (exists c', search_user uname searcher_id chunks c = Return (result (b "results")) c').
Proof.
  intros Hready Harr Hok Hjson result.
  unfold get_gallery, get_chats, get_friends, get_incoming_requests, get_outgoing_requests,
    search_user, result.
  rewrite !(request_json_answered _ _ _ _ c chunks status body (JObj fields)) by assumption.
  rewrite !get_or_raise_object, !return_get_list_object.
  destruct (status =? 200); repeat split; eexists; reflexivity.
Qed.

(** ** The gallery cache (gallery_frame.py, lines 56-75) *)

Lemma download_answered (file_path : json) (c : client) chunks body :
  ready c -> reply_arrives chunks 200 body ->
  download file_path chunks c
  = Return (Some body)
      (print (OutText "File downloaded successfully!")
             (set_sent (sent c ++ [encode_request (b "GET") (b "/download")
                                     [(b "file", file_path)] None]) c)).
Proof.
  intros Hready Harr. unfold download.
  rewrite (send_request_answered _ _ _ _ c chunks 200 body Hready Harr) by now left.
  reflexivity.
Qed.

(** X22.  A file is downloaded once: the first [download_and_cache] of a
    name that is not in the cache stores the body of the reply under
    that name, and from then on a call for the same name returns the
    local path without sending anything or changing anything, whichever
    remote path it is asked for. *)
Theorem download_and_cache_downloads_once
        (file_path : json) (filename : bytes) (c : client) chunks body :
  ready c ->
  files c !! path_join (b "temp_gallery_cache") filename = None ->
  reply_arrives chunks 200 body ->
  let local_path := path_join (b "temp_gallery_cache") filename in
  exists c1,
    download_and_cache file_path filename chunks c = Return (Some local_path) c1
    /\ files c1 !! local_path = Some body
    /\ forall other_path incoming,
         download_and_cache other_path filename incoming c1 = Return (Some local_path) c1.
Proof.
  intros Hready Hnew Harr local_path. unfold download_and_cache. fold local_path.
  fold local_path in Hnew. rewrite Hnew.
  rewrite (download_answered file_path c chunks body Hready Harr). cbn [and_then].
  eexists. split; [reflexivity|]. cbn [files set_files].
  split; [apply lookup_insert_eq|].
  intros other_path incoming. now rewrite lookup_insert_eq.
Qed.

(** X23.  The cache directory does not confine the file: a file name
    that begins with a slash is taken by [os.path.join] as the whole
    path, so the body of the reply is written to that absolute path. *)
Theorem absolute_file_name_escapes_cache
        (file_path : json) (filename : bytes) (c : client) chunks body :
  ready c ->
  starts_with (b "/") filename = true ->
  files c !! string_of_list_byte filename = None ->
  reply_arrives chunks 200 body ->
  exists c1,
    download_and_cache file_path filename chunks c
    = Return (Some (string_of_list_byte filename)) c1
    /\ files c1 = <[string_of_list_byte filename := body]> (files c).
Proof.
  intros Hready Habs Hnew Harr. unfold download_and_cache, path_join. rewrite Habs, Hnew.
  rewrite (download_answered file_path c chunks body Hready Harr). cbn [and_then].
  eexists. split; reflexivity.
Qed.

(** ** Replies that are not JSON *)

Lemma request_json_not_json {A} method path params rbody (c : client) chunks status body
      (k : Z -> json -> client -> outcome A) :
  ready c -> reply_arrives chunks status body -> status = 200 \/ status = 201 ->
  json_loads body = None ->
  request_json method path params rbody chunks c k
  = Raise JSONDecodeError (set_sent (sent c ++ [encode_request method path params rbody]) c).
Proof.
  intros Hready Harr Hok Hjson. unfold request_json.
  rewrite (send_request_answered _ _ _ _ c chunks status body Hready Harr Hok).
  cbn [and_then]. unfold loads_or_raise. now rewrite Hjson.
Qed.

(** X24.  Every operation that reads its reply as JSON lets the
    exception of [json.loads] reach its caller when the reply, a frame
    with status 200 or 201, has a body that is not JSON: the request has
    been sent, and nothing is printed, saved or changed in the session.
    In particular a message acknowledged with status 200 and such a body
    is not saved.  (A reply with another status does not come back at
    all, see C1.) *)
Theorem reply_that_is_not_json_raises
        (x y z : json) (data timestamp : bytes) (c : client) chunks status body :
  ready c ->
  reply_arrives chunks status body ->
  status = 200 \/ status = 201 ->
  json_loads body = None ->
  let raises (A : Type) (o : outcome A) :=
    exists e c', o = Raise e c'
                 /\ session c' = session c /\ files c' = files c /\ stdout c' = stdout c in
  raises _ (login x y chunks c)
  /\ raises _ (sign_in x y z chunks c)
  /\ raises _ (upload x data chunks c)
  /\ raises _ (send_message x y z timestamp chunks c)
  /\ raises _ (add_to_chat x y chunks c)
  /\ raises _ (send_friend_request x chunks c)
  /\ raises _ (accept_friend_request x chunks c)
  /\ raises _ (decline_friend_request x chunks c)
  /\ raises _ (remove_friend x chunks c)
  /\ raises _ (get_gallery chunks c)
  /\ raises _ (get_chats chunks c)
  /\ raises _ (get_friends chunks c)
  /\ raises _ (get_incoming_requests chunks c)
  /\ raises _ (get_outgoing_requests chunks c)
  /\ raises _ (search_user x y chunks c).
Proof.
  intros Hready Harr Hok Hjson raises.
  assert (Hlogin : raises _ (login x y chunks c)).
  { unfold raises, login.
    rewrite (send_request_answered _ _ _ _ c chunks status body Hready Harr Hok).
    cbn [and_then]. unfold loads_or_raise. rewrite Hjson. eexists _, _. repeat split. }
  split; [exact Hlogin|].
  unfold raises, sign_in, upload, send_message, add_to_chat, send_friend_request,
    accept_friend_request, decline_friend_request, remove_friend, get_gallery, get_chats,
    get_friends, get_incoming_requests, get_outgoing_requests, search_user.
  rewrite !(request_json_not_json _ _ _ _ c chunks status body) by assumption.
  repeat split; eexists _, _; repeat split.
Qed.

End FacadeFacts.

(** ** The scenarios run *)

Ltac reply_of status_line headers_dict :=
  exists status_line, headers_dict; repeat split; reflexivity.

Lemma sign_in_sets_session_only_on_201_witness :
  exists c',
    sign_in (JStr (b "ann")) (JStr (b "Ann")) (JStr (b "pw"))
            [reply_frame "HTTP/1.1 201 Created" created_body] fresh_client
    = Return tt c'
    /\ session c' = (JInt 9, JStr (b "ann"), JStr (b "Ann"))
    /\ stdout c' = stdout fresh_client ++ [OutValue (JStr (b "ok"))]
    /\ files c' = files fresh_client.
Proof.
  apply (sign_in_sets_session_only_on_201 (RT := py_runtime)
           (JStr (b "ann")) (JStr (b "Ann")) (JStr (b "pw")) fresh_client _ 201 created_body
           [(b "id", JInt 9); (b "message", JStr (b "ok"))]).
  - split; reflexivity.
  - reply_of (b "HTTP/1.1 201 Created") [(b "content-length", b "23")].
  - now right.
  - reflexivity.
Defined.

Lemma upload_returns_path_built_locally_witness :
  exists c',
    upload (JStr (b "a.png")) image_bytes [reply_frame "HTTP/1.1 200 OK" message_body]
           logged_in_as_7
    = Return (JStr (b "uploads/7/a.png")) c'
    /\ sent c' = sent logged_in_as_7
                 ++ [encode_request (b "POST") (b "/upload")
                       [(b "filename", JStr (b "a.png")); (b "id", JInt 7)] (Some image_bytes)]
    /\ url_of (b "/upload") [(b "filename", JStr (b "a.png")); (b "id", JInt 7)]
       = b "/upload?filename=a.png&id=7"
    /\ session c' = session logged_in_as_7.
Proof.
  apply (upload_returns_path_built_locally (RT := py_runtime)
           (JStr (b "a.png")) image_bytes logged_in_as_7 _ 200 message_body
           [(b "message", JStr (b "ok"))]).
  - split; reflexivity.
  - reply_of (b "HTTP/1.1 200 OK") [(b "content-length", b "16")].
  - now left.
  - reflexivity.
Defined.

Lemma query_parameters_are_not_escaped_witness :
  encode_request (b "GET") (b "/search_user")
    [(b "username", JStr (b "ann" ++ b "&" ++ b "searcher_id" ++ b "=" ++ b "1"))] None
  = encode_request (b "GET") (b "/search_user")
      [(b "username", JStr (b "ann")); (b "searcher_id", JStr (b "1"))] None.
Proof.
  apply (query_parameters_are_not_escaped (RT := py_runtime)).
  intros s. reflexivity.
Defined.

Lemma send_message_then_load_witness :
  let m := message_data_of (JInt 3) (JStr (b "text")) (JStr (b "hello"))
                           (b "2024-01-01 00:00:01") bob_with_history in
  exists c',
    send_message (JInt 3) (JStr (b "text")) (JStr (b "hello")) (b "2024-01-01 00:00:01")
                 [reply_frame "HTTP/1.1 200 OK" message_body] bob_with_history
    = Return tt c'
    /\ load_chat_history (JInt 3) (files c') = Ok (JArr ([ann_message] ++ [m]))
    /\ sent c' = sent bob_with_history
                 ++ [encode_request (b "POST") (b "/send_message") [] (Some (json_dumps None m))].
Proof.
  apply (send_message_then_load (RT := py_runtime)
           (JInt 3) (JStr (b "text")) (JStr (b "hello")) (b "2024-01-01 00:00:01")
           bob_with_history _ message_body [(b "message", JStr (b "ok"))] [ann_message]).
  - split; reflexivity.
  - reply_of (b "HTTP/1.1 200 OK") [(b "content-length", b "16")].
  - reflexivity.
  - reflexivity.
  - vm_compute. reflexivity.
Defined.

Lemma send_message_not_saved_on_201_witness :
  exists c',
    send_message (JInt 3) (JStr (b "text")) (JStr (b "hello")) (b "2024-01-01 00:00:01")
                 [reply_frame "HTTP/1.1 201 Created" message_body] bob_with_history
    = Return tt c'
    /\ files c' = files bob_with_history
    /\ stdout c' = stdout bob_with_history
                   ++ [OutLabelled "Failed to send message:" (JStr (b "ok"))]
    /\ sent c' = sent bob_with_history
                 ++ [encode_request (b "POST") (b "/send_message") []
                       (Some (json_dumps None
                                (message_data_of (JInt 3) (JStr (b "text")) (JStr (b "hello"))
                                                 (b "2024-01-01 00:00:01") bob_with_history)))].
Proof.
  apply (send_message_not_saved_on_201 (RT := py_runtime)
           (JInt 3) (JStr (b "text")) (JStr (b "hello")) (b "2024-01-01 00:00:01")
           bob_with_history _ message_body [(b "message", JStr (b "ok"))]).
  - split; reflexivity.
  - reply_of (b "HTTP/1.1 201 Created") [(b "content-length", b "16")].
  - reflexivity.
Defined.

Lemma friend_requests_succeed_on_200_only_witness :
  let chunks := [reply_frame "HTTP/1.1 201 Created" message_body] in
  let wrote path c' :=
    sent c' = sent logged_in_as_7
              ++ [encode_request (b "POST") path [] (Some (friend_body (JInt 2) logged_in_as_7))] in
  (exists c', send_friend_request (JInt 2) chunks logged_in_as_7 = Return false c'
              /\ wrote (b "/add_friend") c')
  /\ (exists c', accept_friend_request (JInt 2) chunks logged_in_as_7 = Return false c'
                 /\ wrote (b "/accept_friend") c')
  /\ (exists c', decline_friend_request (JInt 2) chunks logged_in_as_7 = Return false c'
                 /\ wrote (b "/decline_friend") c').
Proof.
  apply (friend_requests_succeed_on_200_only (RT := py_runtime)
           (JInt 2) logged_in_as_7 _ 201 message_body [(b "message", JStr (b "ok"))]).
  - split; reflexivity.
  - reply_of (b "HTTP/1.1 201 Created") [(b "content-length", b "16")].
  - now right.
  - reflexivity.
Defined.

Lemma list_getters_default_to_empty_witness :
  let chunks := [reply_frame "HTTP/1.1 200 OK" chats_body] in
  (exists c', get_gallery chunks logged_in_as_7 = Return (JArr []) c')
  /\ (exists c', get_chats chunks logged_in_as_7 = Return (JArr [JInt 1; JInt 2]) c')
  /\ (exists c', get_friends chunks logged_in_as_7 = Return (JArr []) c')
  /\ (exists c', get_incoming_requests chunks logged_in_as_7 = Return (JArr []) c')
  /\ (exists c', get_outgoing_requests chunks logged_in_as_7 = Return (JArr []) c')
  /\ (exists c', search_user (JStr (b "an")) (JInt 7) chunks logged_in_as_7
                 = Return (JArr []) c').
Proof.
  apply (list_getters_default_to_empty (RT := py_runtime)
           (JStr (b "an")) (JInt 7) logged_in_as_7 _ 200 chats_body
           [(b "chats", JArr [JInt 1; JInt 2])]).
  - split; reflexivity.
  - reply_of (b "HTTP/1.1 200 OK") [(b "content-length", b "15")].
  - now left.
  - reflexivity.
Defined.

Lemma download_and_cache_downloads_once_witness :
  let local_path := path_join (b "temp_gallery_cache") (b "a.png") in
  exists c1,
    download_and_cache (JStr (b "uploads/7/a.png")) (b "a.png")
                       [reply_frame "HTTP/1.1 200 OK" image_bytes] logged_in_as_7
    = Return (Some local_path) c1
    /\ files c1 !! local_path = Some image_bytes
    /\ forall other_path incoming,
         download_and_cache other_path (b "a.png") incoming c1 = Return (Some local_path) c1.
Proof.
  apply (download_and_cache_downloads_once (RT := py_runtime)
           (JStr (b "uploads/7/a.png")) (b "a.png") logged_in_as_7 _ image_bytes).
  - split; reflexivity.
  - reflexivity.
  - reply_of (b "HTTP/1.1 200 OK") [(b "content-length", b "11")].
Defined.

Lemma absolute_file_name_escapes_cache_witness :
  exists c1,
    download_and_cache (JStr (b "uploads/7/a.png")) (b "/home/bob/.profile")
                       [reply_frame "HTTP/1.1 200 OK" image_bytes] logged_in_as_7
    = Return (Some (string_of_list_byte (b "/home/bob/.profile"))) c1
    /\ files c1 = <[string_of_list_byte (b "/home/bob/.profile") := image_bytes]>
                    (files logged_in_as_7).
Proof.
  apply (absolute_file_name_escapes_cache (RT := py_runtime)
           (JStr (b "uploads/7/a.png")) (b "/home/bob/.profile") logged_in_as_7 _ image_bytes).
  - split; reflexivity.
  - reflexivity.
  - reflexivity.
  - reply_of (b "HTTP/1.1 200 OK") [(b "content-length", b "11")].
Defined.

Lemma reply_that_is_not_json_raises_witness :
  let c := bob_with_history in
  let chunks := [reply_frame "HTTP/1.1 200 OK" (b "<html>")] in
  let x := JInt 3 in
  let y := JStr (b "text") in
  let z := JStr (b "hello") in
  let raises (A : Type) (o : outcome A) :=
    exists e c', o = Raise e c'
                 /\ session c' = session c /\ files c' = files c /\ stdout c' = stdout c in
  raises _ (login x y chunks c)
  /\ raises _ (sign_in x y z chunks c)
  /\ raises _ (upload x image_bytes chunks c)
  /\ raises _ (send_message x y z (b "2024-01-01 00:00:01") chunks c)
  /\ raises _ (add_to_chat x y chunks c)
  /\ raises _ (send_friend_request x chunks c)
  /\ raises _ (accept_friend_request x chunks c)
  /\ raises _ (decline_friend_request x chunks c)
  /\ raises _ (remove_friend x chunks c)
  /\ raises _ (get_gallery chunks c)
  /\ raises _ (get_chats chunks c)
  /\ raises _ (get_friends chunks c)
  /\ raises _ (get_incoming_requests chunks c)
  /\ raises _ (get_outgoing_requests chunks c)
  /\ raises _ (search_user x y chunks c).
Proof.
  apply (reply_that_is_not_json_raises (RT := py_runtime) (JInt 3) (JStr (b "text"))
           (JStr (b "hello")) image_bytes (b "2024-01-01 00:00:01") bob_with_history _ 200
           (b "<html>")).
  - split; reflexivity.
  - reply_of (b "HTTP/1.1 200 OK") [(b "content-length", b "6")].
  - now left.
  - reflexivity.
Defined.

(** * Properties of the image editor *)

Section EditorFacts.
Context `{PIL : Pillow}.

Lemma pop_last (stack : list image) (top : image) :
  Editor.pop (stack ++ [top]) = Some (stack, top).
Proof.
  induction stack as [|x stack IH]; [reflexivity|].
  cbn [app Editor.pop]. rewrite IH.
  destruct (stack ++ [top]) eqn:E; [|reflexivity].
  now destruct stack.
Qed.

(** A request leaves two empty stacks empty, whether it raises or not. *)
Lemma perform_empty_stacks (a : Editor.action) (e : Editor.editor) :
  Editor.undo_stack e = [] -> Editor.redo_stack e = [] ->
  let e' := match Editor.perform a e with Some e' => e' | None => e end in
  Editor.undo_stack e' = [] /\ Editor.redo_stack e' = [].
Proof.
  intros Hu Hr.
  destruct a as [[opened|]| | | |x0 y0 x1 y1|angle|[computed|]]; cbn [Editor.perform].
  - split; reflexivity.
  - split; assumption.
  - unfold Editor.reset. destruct (Editor.original_image e); split; assumption.
  - unfold Editor.undo. rewrite Hu. split; assumption.
  - unfold Editor.redo. rewrite Hr. split; assumption.
  - unfold Editor.crop_rect.
    destruct (Editor.current_image e) as [img|]; [|split; assumption].
    destruct (Editor.crop_box _ _ _ _ _); split; assumption.
  - unfold Editor.rotate_image. destruct (Editor.current_image e); split; assumption.
  - destruct (Editor.current_image e); split; assumption.
  - destruct (Editor.current_image e); split; assumption.
Qed.

Lemma run_empty_stacks (actions : list Editor.action) :
  forall e, Editor.undo_stack e = [] -> Editor.redo_stack e = [] ->
            Editor.undo_stack (Editor.run actions e) = []
            /\ Editor.redo_stack (Editor.run actions e) = [].
Proof.
  induction actions as [|a actions IH]; intros e Hu Hr.
  - split; assumption.
  - cbn [Editor.run]. destruct (perform_empty_stacks a e Hu Hr) as [Hu1 Hr1].
    now apply IH.
Qed.

(** X25.  Undo and redo never change the image.  Only [redo] pushes on
    the undo stack and only [undo] pushes on the redo stack, each when the
    other stack is not empty, and nothing else in the program pushes on
    either: whatever the editor window has asked of a new editor, and
    whichever of these requests raised, both stacks are empty, and [undo]
    and [redo] return without changing anything. *)
Theorem undo_and_redo_do_nothing (actions : list Editor.action) :
  let e := Editor.run actions Editor.new_editor in
  Editor.undo_stack e = [] /\ Editor.redo_stack e = []
  /\ Editor.undo e = Ok e /\ Editor.redo e = Ok e.
Proof.
  intros e.
  destruct (run_empty_stacks actions Editor.new_editor eq_refl eq_refl) as [Hu Hr].
  fold e in Hu, Hr. repeat split; try assumption.
  - unfold Editor.undo. now rewrite Hu.
  - unfold Editor.redo. now rewrite Hr.
Qed.

(** X26.  [crop_rect] never asks Pillow for a box outside the image or
    for an empty one: either the editor is left as it is, or the current
    image is cropped to a box with [0 <= left < right <= width] and
    [0 <= top < bottom <= height], which is the requested box when that
    one already lies inside the image. *)
Theorem crop_rect_stays_inside_image
        (left top right bottom width height : Z) (img : image) (e : Editor.editor) :
  Editor.current_image e = Some img ->
  image_size img = (width, height) ->
  Editor.crop_rect left top right bottom e = e
  \/ exists l t r b0,
       Editor.crop_rect left top right bottom e
       = Editor.set_current_image (Some (image_crop img (l, t, r, b0))) e
       /\ 0 <= l < r /\ r <= width /\ 0 <= t < b0 /\ b0 <= height
       /\ (0 <= left < right -> right <= width -> 0 <= top < bottom -> bottom <= height ->
           (l, t, r, b0) = (left, top, right, bottom)).
Proof.
  intros Hcur Hsize. unfold Editor.crop_rect, Editor.crop_box. rewrite Hcur, Hsize.
  destruct ((Z.max 0 (Z.min left width) <? Z.max 0 (Z.min right width))
            && (Z.max 0 (Z.min top height) <? Z.max 0 (Z.min bottom height))) eqn:E;
    [|now left].
  right. apply andb_true_iff in E. destruct E as [E1 E2].
  apply Z.ltb_lt in E1. apply Z.ltb_lt in E2.
  eexists _, _, _, _. split; [reflexivity|].
  repeat split; try lia.
  intros H1 H2 H3 H4. repeat f_equal; lia.
Qed.

(** X27.  [redo] takes back an [undo]: when the undo stack is not empty
    and an image is loaded, [undo] makes the top of the stack the current
    image, and [redo] after it restores the editor exactly, stacks
    included. *)
Theorem redo_takes_back_undo
        (e : Editor.editor) (rest : list image) (top img : image) :
  Editor.undo_stack e = rest ++ [top] ->
  Editor.current_image e = Some img ->
  exists e1,
    Editor.undo e = Ok e1
    /\ Editor.current_image e1 = Some top
    /\ Editor.undo_stack e1 = rest
    /\ Editor.redo_stack e1 = Editor.redo_stack e ++ [img]
    /\ Editor.redo e1 = Ok e.
Proof.
  intros Hu Hcur. unfold Editor.undo. rewrite Hu, pop_last, Hcur.
  eexists. split; [reflexivity|]. cbn [Editor.current_image Editor.undo_stack Editor.redo_stack].
  repeat split. unfold Editor.redo.
  cbn [Editor.current_image Editor.undo_stack Editor.redo_stack Editor.original_image].
  rewrite pop_last. destruct e; cbn in *. now subst.
Qed.

End EditorFacts.

Lemma crop_rect_stays_inside_image_witness :
  let e := Editor.load_image (PIL := sized_images) (640, 480) Editor.new_editor in
  Editor.crop_rect (-20) 100 700 200 e = e
  \/ exists l t r b0,
       Editor.crop_rect (-20) 100 700 200 e
       = Editor.set_current_image (Some (image_crop (640, 480) (l, t, r, b0))) e
       /\ 0 <= l < r /\ r <= 640 /\ 0 <= t < b0 /\ b0 <= 480
       /\ (0 <= -20 < 700 -> 700 <= 640 -> 0 <= 100 < 200 -> 200 <= 480 ->
           (l, t, r, b0) = (-20, 100, 700, 200)).
Proof.
  apply (crop_rect_stays_inside_image (PIL := sized_images) (-20) 100 700 200 640 480 (640, 480));
    reflexivity.
Defined.

Lemma redo_takes_back_undo_witness :
  let e := Editor.mkEditor (PIL := sized_images) (Some (640, 480)) (Some (100, 100))
                           ([(640, 480)] ++ [(320, 240)]) [] in
  exists e1,
    Editor.undo e = Ok e1
    /\ Editor.current_image e1 = Some (320, 240)
    /\ Editor.undo_stack e1 = [(640, 480)]
    /\ Editor.redo_stack e1 = Editor.redo_stack e ++ [(100, 100)]
    /\ Editor.redo e1 = Ok e.
Proof.
  apply (redo_takes_back_undo (PIL := sized_images)
           (Editor.mkEditor (PIL := sized_images) (Some (640, 480)) (Some (100, 100))
                            ([(640, 480)] ++ [(320, 240)]) [])
           [(640, 480)] (320, 240) (100, 100)); reflexivity.
Defined.

(** * What a call of the facade leaves alone *)

Section Invariants.
Context `{RT : Runtime}.

(** ** The receiving thread writes nothing to the socket *)

Lemma handle_incoming_message_sent (body : bytes) (c : client) :
  sent (handle_incoming_message body c) = sent c.
Proof.
  unfold handle_incoming_message, push_try, push_show.
  destruct (json_loads body) as [message|]; [|reflexivity].
  destruct (py_get message (b "chat_id")) as [chat_id|]; [|reflexivity].
  destruct (truthy chat_id); [|reflexivity].
  destruct (save_message chat_id message (files c)) as [fs|]; [|reflexivity].
  destruct (py_get message (b "sender")) as [sender|]; [|reflexivity].
  destruct (py_get message (b "content")) as [content|]; [|reflexivity].
  cbn [chat_frame print set_files].
  destruct (chat_frame c) as [frame|]; [|reflexivity].
  destruct (py_eq (selected_chat_id frame) chat_id); [|reflexivity].
  destruct (display_message frame message); reflexivity.
Qed.

Lemma route_sent status_line headers_dict body (c : client) :
  sent (route status_line headers_dict body c) = sent c.
Proof.
  unfold route. destruct (parse_status status_line) as [status|e]; [|reflexivity].
  destruct ((status =? 200) || (status =? 201)); [|reflexivity].
  destruct (bytes_eqb _ _); [|reflexivity].
  unfold next_frame. change (sent (set_receiver ?r ?x)) with (sent x).
  apply handle_incoming_message_sent.
Qed.

Lemma on_recv_sent (c : client) (chunk : bytes) : sent (on_recv c chunk) = sent c.
Proof.
  unfold on_recv. destruct (receiver c); [|reflexivity|reflexivity].
  destruct (decode r chunk); try reflexivity. apply route_sent.
Qed.

Lemma receive_sent (chunks : list bytes) (c : client) :
  sent (receive c chunks) = sent c.
Proof.
  revert c. induction chunks as [|chunk chunks IH]; intros c; [reflexivity|].
  rewrite receive_cons, IH. apply on_recv_sent.
Qed.

Lemma send_request_sent method path params body incoming (c : client) :
  sent (client_of (send_request method path params body incoming c))
  = sent c ++ [encode_request method path params body].
Proof.
  unfold send_request, queue_get.
  destruct (response_queue _) eqn:E; cbn [client_of];
    [|change (sent (set_queue ?q ?x)) with (sent x)];
    now rewrite receive_sent.
Qed.

(** ** What the operations do after the reply *)

(** The ways in which an operation can go on after [send_request]. *)
Ltac after_reply :=
  unfold request_json, loads_or_raise, get_or_raise, return_get_list;
  repeat match goal with
         | |- context [send_request ?m ?p ?ps ?rb ?i ?c] =>
             let Hs := fresh "Hsession" in
             let Ht := fresh "Hsent" in
             pose proof (send_request_session m p ps rb i c) as Hs;
             pose proof (send_request_sent m p ps rb i c) as Ht;
             destruct (send_request m p ps rb i c) as [[? ?] ?| |]
         end;
  cbn [and_then client_of] in *;
  repeat match goal with
         | |- context [json_loads ?x] => destruct (json_loads x)
         | |- context [Z.eqb ?x ?y] => destruct (Z.eqb x y)
         | |- context [py_get ?x ?y] => destruct (py_get x y)
         | |- context [py_get_default ?x ?y ?z] => destruct (py_get_default x y z)
         | |- context [save_message ?x ?y ?z] => destruct (save_message x y z)
         end;
  cbn [client_of].

(** X28.  No operation of the facade other than [login] and [sign_in]
    touches the session: whatever the server sends while the call waits,
    and whether the call returns, raises or stays blocked, the user id,
    the login and the user name are afterwards what they were. *)
Theorem session_changes_only_at_login_and_sign_in
        (x y z : json) (data name timestamp : bytes) (incoming : list bytes) (c : client) :
  let kept (A : Type) (o : outcome A) := session (client_of o) = session c in
  kept _ (upload x data incoming c)
  /\ kept _ (send_message x y z timestamp incoming c)
  /\ kept _ (add_to_chat x y incoming c)
  /\ kept _ (send_friend_request x incoming c)
  /\ kept _ (accept_friend_request x incoming c)
  /\ kept _ (decline_friend_request x incoming c)
  /\ kept _ (remove_friend x incoming c)
  /\ kept _ (download x incoming c)
  /\ kept _ (download_and_cache x name incoming c)
  /\ kept _ (get_gallery incoming c)
  /\ kept _ (get_chats incoming c)
  /\ kept _ (get_friends incoming c)
  /\ kept _ (get_incoming_requests incoming c)
  /\ kept _ (get_outgoing_requests incoming c)
  /\ kept _ (search_user x y incoming c).
Proof.
  intros kept. unfold kept.
  repeat split;
    unfold upload, send_message, add_to_chat, send_friend_request, accept_friend_request,
      decline_friend_request, remove_friend, download_and_cache, download, get_gallery,
      get_chats, get_friends, get_incoming_requests, get_outgoing_requests, search_user;
    try (destruct (files c !! _); [reflexivity|]);
    after_reply; try assumption;
    try (repeat match goal with |- context [match ?o with Some _ => _ | None => _ end] =>
                  destruct o end; cbn [client_of]; assumption).
Qed.


End Invariants.
